(** * The quoting and inventory core of the autotrader (src/strategy/autotrader.cc)

    A shallow embedding of the event handlers of [AutoTrader]: the order-book
    handler with its two repricing passes, the order-status handler with its
    hedging, and the error handler.  The trader's member variables become an
    explicit record that every handler takes and returns, together with the
    list of commands it sent ([SendInsertOrder], [SendCancelOrder],
    [SendHedgeOrder]), in the order they were sent. *)

From Stdlib Require Import ZArith List Bool Lia String.
From stdpp Require Import base gmap fin_maps list.

Open Scope Z_scope.

(** ** Machine integers

    [unsigned long] and [long] are 64 bits wide.  Values are kept in [Z];
    the conversions below write the wrap-around out. *)

Definition to_ulong (z : Z) : Z := z mod 2 ^ 64.
Definition to_long (z : Z) : Z := (z + 2 ^ 63) mod 2 ^ 64 - 2 ^ 63.

(** ** Constants of the translation unit *)

Definition MARGIN_BASIS : Z := 7.
Definition MAX_ORDER_DEPTH : Z := 5.
Definition POSITION_LIMIT : Z := 100.
Definition TICK_SIZE_IN_CENTS : Z := 100.

(** ** Types of the exchange interface *)

(** Modelled from the spec: the enumerations [Instrument], [Side] and
    [Lifespan] are declared in the exchange library's header, which is not
    among the sources.  The code names [Instrument::FUTURE], [Side::SELL],
    [Side::BUY] and [Lifespan::GOOD_FOR_DAY]; the specification has two
    instruments, the future and the ETF. *)
Inductive Instrument := FUTURE | ETF.
Inductive Side := SELL | BUY.
Inductive Lifespan := FILL_AND_KILL | GOOD_FOR_DAY.

(** Modelled from the spec: [struct Order] is declared in autotrader.h, which
    is not among the sources.  The brace initialisers of the translation
    unit give the fields and their order,
    [{ price, remainingVolume, filledVolume, cancelling }]; the specification
    has the two volumes as non-negative integers.  Whatever integer type the
    header gives [filledVolume] and [remainingVolume], a difference with the
    handler's [unsigned long] argument is an [unsigned long]. *)
Record Order := mkOrder {
  price : Z;
  remainingVolume : Z;
  filledVolume : Z;
  cancelling : bool
}.

(** The write [order.cancelling = true]. *)
Definition mark_cancelling (o : Order) : Order :=
  {| price := price o; remainingVolume := remainingVolume o;
     filledVolume := filledVolume o; cancelling := true |}.

(** The sentinel the sell-side loop starts its search for the largest
    price from. *)
Definition MIN_ORDER : Order := mkOrder 0 0 0 false.

(** The commands a handler sends to the exchange. *)
Inductive Command :=
| InsertOrder (clientOrderId : Z) (side : Side) (price volume : Z) (lifespan : Lifespan)
| CancelOrder (clientOrderId : Z)
| HedgeOrder (clientOrderId : Z) (side : Side) (price volume : Z).

(** Modelled from the spec: the member variables of [AutoTrader] are declared
    in autotrader.h, which is not among the sources.  The fields are the
    members the translation unit reads and writes; following the
    specification's data model the position and the two reserved volumes
    are signed ([long]), the order counts are integers, and ids, sequence
    numbers and prices are [unsigned long] as in the handlers' signatures.
    The side maps are maps from order id to [Order]; the loops below visit
    them in the order of [map_to_list], and nothing proved depends on that
    order. *)
Record AutoTrader := mkAutoTrader {
  mAsks : gmap Z Order;
  mBids : gmap Z Order;
  mETFPosition : Z;
  mETFOrderPositionSell : Z;
  mETFOrderPositionBuy : Z;
  mETFOrderAskCount : Z;
  mETFOrderBidCount : Z;
  mNextMessageId : Z;
  mOrderBookSequence : Z;
  mMarketMaxBid : Z;
  mMarketMinAsk : Z
}.

(** The inbound events, one constructor per message handler. *)
Inductive Event :=
| OrderBookMessage (instrument : Instrument) (sequenceNumber : Z)
    (askPrices askVolumes bidPrices bidVolumes : list Z)
| OrderStatusMessage (clientOrderId fillVolume remainingVolume fees : Z)
| ErrorMessage (clientOrderId : Z) (errorMessage : string)
| OrderFilledMessage (clientOrderId price volume : Z)
| HedgeFilledMessage (clientOrderId price volume : Z)
| TradeTicksMessage (instrument : Instrument) (sequenceNumber : Z)
    (askPrices askVolumes bidPrices bidVolumes : list Z).

(** [largestOrder] and [smallestOrder] point either at the global sentinel
    order or at an element of the side map. *)
Inductive OrderRef := RefSentinel | RefEntry (orderId : Z).

(** Reading through such a pointer. *)
Definition deref (sentinel : Order) (orders : gmap Z Order) (r : OrderRef) : Order :=
  match r with
  | RefSentinel => sentinel
  | RefEntry orderId => default sentinel (orders !! orderId)
  end.

(** The local variables of a reconciliation loop and what it has touched:
    the side map (its [cancelling] flags are written in place), the cancels
    sent so far, [askAlreadyExists] or [bidAlreadyExists], and the eviction
    candidate, [largestOrderId] with [largestOrder] on the sell side,
    [smallestOrderId] with [smallestOrder] on the buy side. *)
Record Scan := mkScan {
  scanOrders : gmap Z Order;
  scanOut : list Command;
  alreadyExists : bool;
  chosenId : Z;
  chosen : OrderRef
}.

(** The locals before the first iteration. *)
Definition scan_init (orders : gmap Z Order) : Scan :=
  mkScan orders [] false 0 RefSentinel.

(** [unsigned long MultiplyBasis(unsigned long n, long basis, bool ceil)];
    the body does not read [ceil]. *)
Definition MultiplyBasis (n basis : Z) (ceil : bool) : Z :=
  let d := to_ulong (10000 + basis) in
  to_ulong (100 * (to_ulong (n * d) / 1000000)).

(** [askPrices[0]] of a [std::array] of [TOP_LEVEL_COUNT] levels; the array
    always has its first element, the default only makes [nth] total. *)
Definition top (levels : list Z) : Z := nth 0 levels 0.

(** The trader with one side map replaced. *)
Definition set_mAsks (s : AutoTrader) (m : gmap Z Order) : AutoTrader :=
  mkAutoTrader m (mBids s) (mETFPosition s) (mETFOrderPositionSell s)
    (mETFOrderPositionBuy s) (mETFOrderAskCount s) (mETFOrderBidCount s)
    (mNextMessageId s) (mOrderBookSequence s) (mMarketMaxBid s) (mMarketMinAsk s).

Definition set_mBids (s : AutoTrader) (m : gmap Z Order) : AutoTrader :=
  mkAutoTrader (mAsks s) m (mETFPosition s) (mETFOrderPositionSell s)
    (mETFOrderPositionBuy s) (mETFOrderAskCount s) (mETFOrderBidCount s)
    (mNextMessageId s) (mOrderBookSequence s) (mMarketMaxBid s) (mMarketMinAsk s).

(** One iteration of [for (auto& [orderId, order] : mAsks)].  The element is
    taken as the loop finds it: an element is written only during its own
    visit, and the write goes to the map the loop carries along. *)
Definition sell_scan_step (newAskPrice : Z) (st : Scan) (entry : Z * Order) : Scan :=
  let orderId := entry.1 in
  let order := entry.2 in
  if cancelling order then st
  else
    let askAlreadyExists :=
      if price order =? newAskPrice then true else alreadyExists st in
    if price order <? newAskPrice then
      mkScan (<[orderId := mark_cancelling order]> (scanOrders st))
             (scanOut st ++ [CancelOrder orderId])
             askAlreadyExists (chosenId st) (chosen st)
    else if price (deref MIN_ORDER (scanOrders st) (chosen st)) <=? price order then
      mkScan (scanOrders st) (scanOut st) askAlreadyExists orderId (RefEntry orderId)
    else
      mkScan (scanOrders st) (scanOut st) askAlreadyExists (chosenId st) (chosen st).

(** The whole sell-side loop. *)
Definition sell_scan (newAskPrice : Z) (orders : gmap Z Order) : Scan :=
  fold_left (sell_scan_step newAskPrice) (map_to_list orders) (scan_init orders).

(** The write [ref->cancelling = true]; it is only reached with a reference
    into the side map. *)
Definition cancel_through (r : OrderRef) (orders : gmap Z Order) : gmap Z Order :=
  match r with
  | RefSentinel => orders
  | RefEntry orderId => alter mark_cancelling orderId orders
  end.

Section Strategy.

(** [MAXIMUM_ASK] and [MINIMUM_BID] come from the exchange library's header,
    which is not part of the sources; they are taken as parameters. *)
Variables MAXIMUM_ASK MINIMUM_BID : Z.

(** The two [constexpr int] tick bounds, in [int] arithmetic. *)
Definition MIN_BID_NEARST_TICK : Z :=
  (MINIMUM_BID + TICK_SIZE_IN_CENTS) ÷ TICK_SIZE_IN_CENTS * TICK_SIZE_IN_CENTS.
Definition MAX_ASK_NEAREST_TICK : Z :=
  MAXIMUM_ASK ÷ TICK_SIZE_IN_CENTS * TICK_SIZE_IN_CENTS.

(** The sentinel the buy-side loop starts its search for the smallest
    price from. *)
Definition MAX_ORDER : Order := mkOrder MAXIMUM_ASK 0 0 false.

(** One iteration of [for (auto& [orderId, order] : mBids)]. *)
Definition buy_scan_step (newBidPrice : Z) (st : Scan) (entry : Z * Order) : Scan :=
  let orderId := entry.1 in
  let order := entry.2 in
  if cancelling order then st
  else
    let bidAlreadyExists :=
      if price order =? newBidPrice then true else alreadyExists st in
    if newBidPrice <? price order then
      mkScan (<[orderId := mark_cancelling order]> (scanOrders st))
             (scanOut st ++ [CancelOrder orderId])
             bidAlreadyExists (chosenId st) (chosen st)
    else if price order <=? price (deref MAX_ORDER (scanOrders st) (chosen st)) then
      mkScan (scanOrders st) (scanOut st) bidAlreadyExists orderId (RefEntry orderId)
    else
      mkScan (scanOrders st) (scanOut st) bidAlreadyExists (chosenId st) (chosen st).

(** The whole buy-side loop. *)
Definition buy_scan (newBidPrice : Z) (orders : gmap Z Order) : Scan :=
  fold_left (buy_scan_step newBidPrice) (map_to_list orders) (scan_init orders).

(** [newAskPrice] and [newBidPrice]. *)
Definition sell_target (askPrices : list Z) (s : AutoTrader) : Z :=
  if top askPrices =? 0 then MAXIMUM_ASK
  else Z.max (to_ulong (mMarketMaxBid s + 100))
             (MultiplyBasis (top askPrices) MARGIN_BASIS true).

Definition buy_target (bidPrices : list Z) (s : AutoTrader) : Z :=
  if top bidPrices =? 0 then 0
  else Z.min (to_ulong (mMarketMinAsk s - 100))
             (MultiplyBasis (top bidPrices) (- MARGIN_BASIS) false).

(** The depth eviction that follows a reconciliation loop: the candidate, if
    there is one and the side already holds [MAX_ORDER_DEPTH - 1] orders, is
    marked and cancelled. *)
Definition evict (sentinel : Order) (count : Z) (sc : Scan) : gmap Z Order * list Command :=
  if negb (chosenId sc =? 0)
     && negb (cancelling (deref sentinel (scanOrders sc) (chosen sc)))
     && (MAX_ORDER_DEPTH - 1 <=? count)
  then (cancel_through (chosen sc) (scanOrders sc),
        scanOut sc ++ [CancelOrder (chosenId sc)])
  else (scanOrders sc, scanOut sc).

(** [orderVolume] of the sell pass and of the buy pass, in [long]
    arithmetic (division truncates). *)
Definition sell_volume (s : AutoTrader) : Z :=
  (mETFPosition s + POSITION_LIMIT) ÷ MAX_ORDER_DEPTH.

Definition buy_volume (s : AutoTrader) : Z :=
  (POSITION_LIMIT - mETFPosition s) ÷ MAX_ORDER_DEPTH.

Definition RepriceSellOrders (askPrices askVolumes : list Z) (s : AutoTrader)
  : AutoTrader * list Command :=
  let newAskPrice := sell_target askPrices s in
  let sc := sell_scan newAskPrice (mAsks s) in
  let '(asks, out) := evict MIN_ORDER (mETFOrderAskCount s) sc in
  let orderVolume := sell_volume s in
  if alreadyExists sc
     || (mETFPosition s - mETFOrderPositionSell s - orderVolume <? - POSITION_LIMIT)
     || (MAX_ORDER_DEPTH <=? mETFOrderAskCount s)
     || (top askPrices =? 0)
  then (set_mAsks s asks, out)
  else
    let orderId := mNextMessageId s in
    (mkAutoTrader
       (<[orderId := mkOrder newAskPrice (to_ulong orderVolume) 0 false]> asks)
       (mBids s) (mETFPosition s)
       (mETFOrderPositionSell s + orderVolume) (mETFOrderPositionBuy s)
       (mETFOrderAskCount s + 1) (mETFOrderBidCount s)
       (to_ulong (orderId + 1)) (mOrderBookSequence s)
       (mMarketMaxBid s) (mMarketMinAsk s),
     out ++ [InsertOrder orderId SELL newAskPrice (to_ulong orderVolume) GOOD_FOR_DAY]).

Definition RepriceBuyOrders (bidPrices bidVolumes : list Z) (s : AutoTrader)
  : AutoTrader * list Command :=
  let newBidPrice := buy_target bidPrices s in
  let sc := buy_scan newBidPrice (mBids s) in
  let '(bids, out) := evict MAX_ORDER (mETFOrderBidCount s) sc in
  let orderVolume := buy_volume s in
  if alreadyExists sc
     || (POSITION_LIMIT <? mETFPosition s + mETFOrderPositionBuy s + orderVolume)
     || (MAX_ORDER_DEPTH <=? mETFOrderBidCount s)
     || (top bidPrices =? 0)
  then (set_mBids s bids, out)
  else
    let orderId := mNextMessageId s in
    (mkAutoTrader
       (mAsks s)
       (<[orderId := mkOrder newBidPrice (to_ulong orderVolume) 0 false]> bids)
       (mETFPosition s)
       (mETFOrderPositionSell s) (mETFOrderPositionBuy s + orderVolume)
       (mETFOrderAskCount s) (mETFOrderBidCount s + 1)
       (to_ulong (orderId + 1)) (mOrderBookSequence s)
       (mMarketMaxBid s) (mMarketMinAsk s),
     out ++ [InsertOrder orderId BUY newBidPrice (to_ulong orderVolume) GOOD_FOR_DAY]).

Definition OrderBookMessageHandler (instrument : Instrument) (sequenceNumber : Z)
    (askPrices askVolumes bidPrices bidVolumes : list Z) (s : AutoTrader)
  : AutoTrader * list Command :=
  match instrument with
  | ETF =>
    (mkAutoTrader (mAsks s) (mBids s) (mETFPosition s)
       (mETFOrderPositionSell s) (mETFOrderPositionBuy s)
       (mETFOrderAskCount s) (mETFOrderBidCount s)
       (mNextMessageId s) (mOrderBookSequence s)
       (top bidPrices)
       (if top askPrices =? 0 then MAXIMUM_ASK else top askPrices),
     [])
  | FUTURE =>
    if sequenceNumber <=? mOrderBookSequence s then (s, [])
    else
      let s1 :=
        mkAutoTrader (mAsks s) (mBids s) (mETFPosition s)
          (mETFOrderPositionSell s) (mETFOrderPositionBuy s)
          (mETFOrderAskCount s) (mETFOrderBidCount s)
          (mNextMessageId s) sequenceNumber
          (mMarketMaxBid s) (mMarketMinAsk s) in
      let '(s2, out2) := RepriceSellOrders askPrices askVolumes s1 in
      let '(s3, out3) := RepriceBuyOrders bidPrices bidVolumes s2 in
      (s3, out2 ++ out3)
  end.

(** The part of [OrderStatusMessageHandler] after the side is known;
    [order] is [sideMap[clientOrderId]]. *)
Definition status_update (isSellOrder : bool) (order : Order)
    (clientOrderId fillVolume remainingVolume' : Z) (s : AutoTrader)
  : AutoTrader * list Command :=
  let dFilled := to_ulong (fillVolume - filledVolume order) in
  let hedged := 0 <? dFilled in
  let position :=
    if hedged
    then to_long (mETFPosition s + (if isSellOrder then to_ulong (- dFilled) else dFilled))
    else mETFPosition s in
  let out :=
    if hedged
    then [HedgeOrder (mNextMessageId s)
            (if isSellOrder then BUY else SELL)
            (if isSellOrder then MAX_ASK_NEAREST_TICK else MIN_BID_NEARST_TICK)
            dFilled]
    else [] in
  let nextId :=
    if hedged then to_ulong (mNextMessageId s + 1) else mNextMessageId s in
  let dRemaining := to_ulong (remainingVolume order - remainingVolume') in
  let positionSell :=
    if isSellOrder then to_long (mETFOrderPositionSell s - dRemaining)
    else mETFOrderPositionSell s in
  let positionBuy :=
    if isSellOrder then mETFOrderPositionBuy s
    else to_long (mETFOrderPositionBuy s - dRemaining) in
  let sideMap := if isSellOrder then mAsks s else mBids s in
  let terminal := negb (0 <? remainingVolume') in
  let sideMap' :=
    if terminal then delete clientOrderId sideMap
    else <[clientOrderId :=
             mkOrder (price order) remainingVolume' fillVolume (cancelling order)]> sideMap in
  (mkAutoTrader
     (if isSellOrder then sideMap' else mAsks s)
     (if isSellOrder then mBids s else sideMap')
     position positionSell positionBuy
     (if terminal && isSellOrder then mETFOrderAskCount s - 1 else mETFOrderAskCount s)
     (if terminal && negb isSellOrder then mETFOrderBidCount s - 1 else mETFOrderBidCount s)
     nextId (mOrderBookSequence s) (mMarketMaxBid s) (mMarketMinAsk s),
   out).

Definition OrderStatusMessageHandler (clientOrderId fillVolume remainingVolume fees : Z)
    (s : AutoTrader) : AutoTrader * list Command :=
  match mAsks s !! clientOrderId with
  | Some order => status_update true order clientOrderId fillVolume remainingVolume s
  | None =>
    match mBids s !! clientOrderId with
    | Some order => status_update false order clientOrderId fillVolume remainingVolume s
    | None => (s, [])
    end
  end.

(** [mAsks.count(id) == 1 || mBids.count(id) == 1]. *)
Definition tracked (clientOrderId : Z) (s : AutoTrader) : bool :=
  bool_decide (is_Some (mAsks s !! clientOrderId))
  || bool_decide (is_Some (mBids s !! clientOrderId)).

Definition ErrorMessageHandler (clientOrderId : Z) (errorMessage : string) (s : AutoTrader)
  : AutoTrader * list Command :=
  if negb (clientOrderId =? 0) && tracked clientOrderId s
  then OrderStatusMessageHandler clientOrderId 0 0 0 s
  else (s, []).

(** Dispatch of one inbound event to its handler; the fill and trade-tick
    handlers only log. *)
Definition handle (e : Event) (s : AutoTrader) : AutoTrader * list Command :=
  match e with
  | OrderBookMessage i n ap av bp bv => OrderBookMessageHandler i n ap av bp bv s
  | OrderStatusMessage id f r fees => OrderStatusMessageHandler id f r fees s
  | ErrorMessage id msg => ErrorMessageHandler id msg s
  | OrderFilledMessage _ _ _ => (s, [])
  | HedgeFilledMessage _ _ _ => (s, [])
  | TradeTicksMessage _ _ _ _ _ _ => (s, [])
  end.

(** Events delivered one at a time, in order. *)
Fixpoint run (es : list Event) (s : AutoTrader) : AutoTrader * list Command :=
  match es with
  | [] => (s, [])
  | e :: es' =>
    let '(s1, out1) := handle e s in
    let '(s2, out2) := run es' s1 in
    (s2, out1 ++ out2)
  end.

End Strategy.

(** ** Session start *)

(** Modelled from the spec: the member initialisers are in autotrader.h,
    which is not among the sources.  A session starts with no orders, no
    position and no order book seen; order ids are non-zero, so the first id
    is 1.  The two recorded market quotes start at whatever the header
    gives them. *)
Definition start (maxBid minAsk : Z) : AutoTrader :=
  mkAutoTrader ∅ ∅ 0 0 0 0 0 1 0 maxBid minAsk.

(** ** Bookkeeping read off a side map *)

(** Forgetting the [cancelling] flags of a side map. *)
Definition erase (orders : gmap Z Order) : gmap Z Order := mark_cancelling <$> orders.

(** The sum of [remainingVolume] over a side map. *)
Definition reserved (orders : gmap Z Order) : Z :=
  map_fold (λ _ o acc, remainingVolume o + acc) 0 orders.

(** The number of orders of a side map whose [cancelling] flag is false. *)
Definition resting (orders : gmap Z Order) : nat :=
  length (List.filter (λ e : Z * Order, negb (cancelling e.2)) (map_to_list orders)).

(** How many cancels for [orderId] a list of commands holds. *)
Definition is_cancel_of (orderId : Z) (c : Command) : bool :=
  match c with
  | CancelOrder k => k =? orderId
  | _ => false
  end.

Definition cancels_of (orderId : Z) (out : list Command) : nat :=
  length (List.filter (is_cancel_of orderId) out).

Definition is_cancel (c : Command) : Prop :=
  match c with
  | CancelOrder _ => True
  | _ => False
  end.

(** The total volume of the hedge orders in a list of commands. *)
Fixpoint hedged_volume (out : list Command) : Z :=
  match out with
  | [] => 0
  | HedgeOrder _ _ _ v :: out' => v + hedged_volume out'
  | _ :: out' => hedged_volume out'
  end.

(** The entries a sell-side loop cancels: not yet cancelling and priced
    below the target. *)
Definition crosses_ask (newAskPrice : Z) (e : Z * Order) : bool :=
  negb (cancelling e.2) && (price e.2 <? newAskPrice).

(** The entries a buy-side loop cancels: not yet cancelling and priced
    above the target. *)
Definition crosses_bid (newBidPrice : Z) (e : Z * Order) : bool :=
  negb (cancelling e.2) && (newBidPrice <? price e.2).

(** ** Invariants of the trader's state *)

(** Every id of a side map lies in [1, n). *)
Definition keys_below (orders : gmap Z Order) (n : Z) : Prop :=
  ∀ k, is_Some (orders !! k) → 1 ≤ k < n.

(** The order counts are the sizes of the side maps, within the depth cap;
    every tracked id was handed out by [mNextMessageId]; no id is on both
    sides. *)
Record structural (s : AutoTrader) : Prop := mkStructural {
  st_ask_count : mETFOrderAskCount s = Z.of_nat (size (mAsks s));
  st_bid_count : mETFOrderBidCount s = Z.of_nat (size (mBids s));
  st_ask_depth : mETFOrderAskCount s ≤ MAX_ORDER_DEPTH;
  st_bid_depth : mETFOrderBidCount s ≤ MAX_ORDER_DEPTH;
  st_ask_ids : keys_below (mAsks s) (mNextMessageId s);
  st_bid_ids : keys_below (mBids s) (mNextMessageId s);
  st_one_side : ∀ k, mAsks s !! k = None ∨ mBids s !! k = None
}.

(** No order of a side map has a negative volume. *)
Definition volumes_nonneg (orders : gmap Z Order) : Prop :=
  ∀ k o, orders !! k = Some o → 0 ≤ remainingVolume o ∧ 0 ≤ filledVolume o.

(** The position is within the limit and stays there even if every resting
    order fills; the two reserved volumes are the sums they stand for. *)
Record positioned (s : AutoTrader) : Prop := mkPositioned {
  pos_range : - POSITION_LIMIT ≤ mETFPosition s ≤ POSITION_LIMIT;
  pos_sell : mETFOrderPositionSell s = reserved (mAsks s);
  pos_buy : mETFOrderPositionBuy s = reserved (mBids s);
  pos_asks : volumes_nonneg (mAsks s);
  pos_bids : volumes_nonneg (mBids s);
  pos_short : - POSITION_LIMIT ≤ mETFPosition s - mETFOrderPositionSell s;
  pos_long : mETFPosition s + mETFOrderPositionBuy s ≤ POSITION_LIMIT
}.

(** The order a status for [clientOrderId] is applied to. *)
Definition order_of (clientOrderId : Z) (s : AutoTrader) : option Order :=
  match mAsks s !! clientOrderId with
  | Some order => Some order
  | None => mBids s !! clientOrderId
  end.

(** A status the exchange can send for a tracked order: its volumes are
    [unsigned long]s, the fill does not go down, and fill plus remainder
    stays within the volume the order still stood for. *)
Definition wf_status (clientOrderId fillVolume remaining : Z) (s : AutoTrader) : Prop :=
  0 ≤ fillVolume < 2 ^ 64 ∧ 0 ≤ remaining < 2 ^ 64 ∧
  ∀ o, order_of clientOrderId s = Some o →
       filledVolume o ≤ fillVolume
       ∧ fillVolume + remaining ≤ filledVolume o + remainingVolume o.

(** Well-formed delivery.  An error on a tracked order is handled as the
    status [(0, 0)], so that status has to be well-formed as well: a
    well-formed delivery has errors only for orders that have not filled. *)
Definition wf_event (s : AutoTrader) (e : Event) : Prop :=
  match e with
  | OrderStatusMessage id f r _ => wf_status id f r s
  | ErrorMessage id _ => wf_status id 0 0 s
  | _ => True
  end.

(** The id counter can still serve one event (two inserts at most). *)
Definition ids_left (s : AutoTrader) : Prop := mNextMessageId s + 2 < 2 ^ 64.

Section Reachability.

Variables MAXIMUM_ASK MINIMUM_BID : Z.

(** The states the trader goes through, from session start, one event at a
    time, for as long as the 64-bit id counter has not run out. *)
Inductive reachable : AutoTrader → Prop :=
| reachable_start maxBid minAsk : reachable (start maxBid minAsk)
| reachable_step s e :
    reachable s → ids_left s → reachable (handle MAXIMUM_ASK MINIMUM_BID e s).1.

(** The same under well-formed delivery. *)
Inductive wf_reachable : AutoTrader → Prop :=
| wf_reachable_start maxBid minAsk : wf_reachable (start maxBid minAsk)
| wf_reachable_step s e :
    wf_reachable s → ids_left s → wf_event s e →
    wf_reachable (handle MAXIMUM_ASK MINIMUM_BID e s).1.

End Reachability.

(** ** Sample session *)

(** The values used where an example needs the two header constants. *)
Definition demo_MAXIMUM_ASK : Z := 2147483647.
Definition demo_MINIMUM_BID : Z := 1.

Definition demo_handle : Event → AutoTrader → AutoTrader * list Command :=
  handle demo_MAXIMUM_ASK demo_MINIMUM_BID.

(** A first order book of the future: one sell order and one buy order go out. *)
Definition book1 : Event := OrderBookMessage FUTURE 1 [10000] [5] [9900] [5].
(** A second one with a higher ask: sell order 1 now crosses the target. *)
Definition book2 : Event := OrderBookMessage FUTURE 2 [10200] [5] [9900] [5].
(** Order 1 fills for 4 lots, 16 remain. *)
Definition fill1 : Event := OrderStatusMessage 1 4 16 0.

Definition after_book1 : AutoTrader := (demo_handle book1 (start 0 0)).1.
Definition after_book2 : AutoTrader := (demo_handle book2 after_book1).1.
Definition after_fill1 : AutoTrader := (demo_handle fill1 after_book1).1.

(** A session in which every status conserves the order's volume, ending in
    an error that names sell order 1 after 19 of its 20 lots have filled:
    one sell order, five buy orders of 23 lots each, all five filled. *)
Definition error_session : list Event :=
  [ OrderBookMessage FUTURE 1 [10000] [5] [0] [0];
    OrderStatusMessage 1 19 1 0;
    OrderBookMessage FUTURE 2 [0] [0] [10000] [5];
    OrderBookMessage FUTURE 3 [0] [0] [10100] [5];
    OrderBookMessage FUTURE 4 [0] [0] [10200] [5];
    OrderBookMessage FUTURE 5 [0] [0] [10300] [5];
    OrderBookMessage FUTURE 6 [0] [0] [10400] [5];
    OrderStatusMessage 3 23 0 0;
    OrderStatusMessage 4 23 0 0;
    OrderStatusMessage 5 23 0 0;
    OrderStatusMessage 6 23 0 0;
    OrderStatusMessage 7 23 0 0;
    ErrorMessage 1 "rejected" ].

(** A resting order of 20 lots at price [p]. *)
Definition sample_order (p : Z) : Order := mkOrder p 20 0 false.

(** ** Runs of statuses for one order

    A status is kept as the triple of its fill, its remainder and its fees. *)

(** The reported fills never go down, starting from [f0]. *)
Fixpoint nondecreasing_from (f0 : Z) (sts : list (Z * Z * Z)) : Prop :=
  match sts with
  | [] => True
  | st :: sts' => f0 ≤ st.1.1 ∧ nondecreasing_from st.1.1 sts'
  end.

(** Every status but the last leaves something resting, so the order is
    still tracked when the next one arrives. *)
Fixpoint resting_until_last (sts : list (Z * Z * Z)) : Prop :=
  match sts with
  | [] => True
  | st :: sts' => (sts' = [] ∨ 0 < st.1.2) ∧ resting_until_last sts'
  end.

(** The fill the last status reports; [f0] if there is none. *)
Fixpoint final_fill (f0 : Z) (sts : list (Z * Z * Z)) : Z :=
  match sts with
  | [] => f0
  | st :: sts' => final_fill st.1.1 sts'
  end.

(** The order id a status or an error names. *)
Definition names (e : Event) : option Z :=
  match e with
  | OrderStatusMessage id _ _ _ => Some id
  | ErrorMessage id _ => Some id
  | _ => None
  end.

(** Two map entries that differ at most in the [cancelling] flag. *)
Definition same_entry (x y : option Order) : Prop :=
  mark_cancelling <$> x = mark_cancelling <$> y.

(** Whether [id] is found in [mAsks], the handler's [isSellOrder]. *)
Definition on_sell_side (id : Z) (s : AutoTrader) : bool :=
  bool_decide (is_Some (mAsks s !! id)).

(** The hedge for a fill of a sell order is a buy at the highest tick, the
    hedge for a fill of a buy order a sell at the lowest tick. *)
Definition hedge_for (MAXIMUM_ASK MINIMUM_BID : Z) (isSellOrder : bool)
    (hedgeId volume : Z) : Command :=
  HedgeOrder hedgeId
    (if isSellOrder then BUY else SELL)
    (if isSellOrder then MAX_ASK_NEAREST_TICK MAXIMUM_ASK
     else MIN_BID_NEARST_TICK MINIMUM_BID)
    volume.

(** ** Commands by kind *)

(** The id a command allocates: inserts and hedges take a fresh one, a
    cancel names an existing order. *)
Definition new_id (c : Command) : option Z :=
  match c with
  | InsertOrder id _ _ _ _ => Some id
  | HedgeOrder id _ _ _ => Some id
  | CancelOrder _ => None
  end.

(** The ids allocated by a list of commands, in the order they were sent. *)
Definition new_ids (out : list Command) : list Z := omap new_id out.

Definition is_hedge (c : Command) : Prop :=
  match c with
  | HedgeOrder _ _ _ _ => True
  | _ => False
  end.

Definition is_quote (c : Command) : Prop :=
  match c with
  | HedgeOrder _ _ _ _ => False
  | _ => True
  end.

(** The futures position the hedge orders of a list of commands add up to,
    once they have all executed: a buy adds its volume, a sell takes it off. *)
Fixpoint future_position (out : list Command) : Z :=
  match out with
  | [] => 0
  | HedgeOrder _ BUY _ v :: out' => v + future_position out'
  | HedgeOrder _ SELL _ v :: out' => - v + future_position out'
  | _ :: out' => future_position out'
  end.

Section Runs.

Variables MAXIMUM_ASK MINIMUM_BID : Z.

(** The id counter does not run out while [es] is delivered from [s]. *)
Fixpoint ids_left_along (es : list Event) (s : AutoTrader) : Prop :=
  match es with
  | [] => True
  | e :: es' =>
    ids_left s ∧ ids_left_along es' (handle MAXIMUM_ASK MINIMUM_BID e s).1
  end.

(** [es] is a well-formed delivery from [s] on. *)
Fixpoint wf_along (es : list Event) (s : AutoTrader) : Prop :=
  match es with
  | [] => True
  | e :: es' =>
    ids_left s ∧ wf_event s e ∧ wf_along es' (handle MAXIMUM_ASK MINIMUM_BID e s).1
  end.

End Runs.

(** ** Entries by what a reconciliation loop does with them *)

(** A resting order priced exactly at the target. *)
Definition at_target (target : Z) (e : Z * Order) : bool :=
  negb (cancelling e.2) && (price e.2 =? target).

(** A resting sell order the sell pass keeps: priced at or above the target. *)
Definition keeps_ask (target : Z) (e : Z * Order) : bool :=
  negb (cancelling e.2) && (target <=? price e.2).

(** A resting buy order the buy pass keeps: priced at or below the target. *)
Definition keeps_bid (target : Z) (e : Z * Order) : bool :=
  negb (cancelling e.2) && (price e.2 <=? target).

(** What the sell-side loop knows about its eviction candidate after the
    entries [l]: either it still points at the sentinel, and no kept order
    reached the sentinel's price, or it points at a kept order of [l] whose
    price no kept order of [l] exceeds. *)
Definition largest_of (target : Z) (l : list (Z * Order)) (sc : Scan) : Prop :=
  match chosen sc with
  | RefSentinel =>
      chosenId sc = 0
      ∧ ∀ e, e ∈ l → keeps_ask target e = true → price e.2 < price MIN_ORDER
  | RefEntry c =>
      chosenId sc = c
      ∧ ∃ oc, (c, oc) ∈ l ∧ keeps_ask target (c, oc) = true
              ∧ price MIN_ORDER ≤ price oc
              ∧ ∀ e, e ∈ l → keeps_ask target e = true → price e.2 ≤ price oc
  end.

(** The same for the buy-side loop and the smallest price. *)
Definition smallest_of (MAXIMUM_ASK target : Z) (l : list (Z * Order)) (sc : Scan) : Prop :=
  match chosen sc with
  | RefSentinel =>
      chosenId sc = 0
      ∧ ∀ e, e ∈ l → keeps_bid target e = true → MAXIMUM_ASK < price e.2
  | RefEntry c =>
      chosenId sc = c
      ∧ ∃ oc, (c, oc) ∈ l ∧ keeps_bid target (c, oc) = true
              ∧ price oc ≤ MAXIMUM_ASK
              ∧ ∀ e, e ∈ l → keeps_bid target e = true → price oc ≤ price e.2
  end.

(** Whether the depth eviction after a loop cancels order [k]: there is a
    candidate, the side holds [MAX_ORDER_DEPTH - 1] orders or more, and the
    candidate is [k]. *)
Definition evicts (count : Z) (sc : Scan) (k : Z) : bool :=
  negb (chosenId sc =? 0) && (MAX_ORDER_DEPTH - 1 <=? count) && (chosenId sc =? k).

(** A session that leaves four sell orders and four buy orders resting: the
    ask falls and the bid rises from one order book to the next, so the
    older orders stay behind the target. *)
Definition deep_session : list Event :=
  [ OrderBookMessage FUTURE 1 [10400] [5] [9700] [5];
    OrderBookMessage FUTURE 2 [10300] [5] [9800] [5];
    OrderBookMessage FUTURE 3 [10200] [5] [9900] [5];
    OrderBookMessage FUTURE 4 [10100] [5] [10000] [5] ].

Definition deep_book : AutoTrader := (run demo_MAXIMUM_ASK demo_MINIMUM_BID deep_session (start 0 0)).1.

(** * The one-order-per-side autotrader (src/unnamed/part_000)

    The second translation unit with decision logic quotes one sell order and
    one buy order of [LOT_SIZE] lots, one tick away from the future's top of
    book, and replaces a quote when its price changes.  Its status and error
    handlers are those of the strategy above without the order counts. *)

Module Basic.

Definition LOT_SIZE : Z := 10.

(** Modelled from the spec: the member variables are declared in the
    translation unit's header, which is not among the sources.  The fields
    are the members the translation unit reads and writes, typed as in the
    strategy above; the side maps hold [Order]s, whose fourth field this
    translation unit never names (its brace initialisers leave it
    value-initialised, false). *)
Record AutoTrader := mkAutoTrader {
  mAsks : gmap Z Order;
  mBids : gmap Z Order;
  mETFPosition : Z;
  mETFOrderPositionSell : Z;
  mETFOrderPositionBuy : Z;
  mNextMessageId : Z;
  mOrderBookSequence : Z;
  mAskId : Z;
  mAskPrice : Z;
  mBidId : Z;
  mBidPrice : Z
}.

(** Modelled from the spec: the member initialisers are in the header; a
    session starts with no orders, no position, no quote ([mAskId] and
    [mBidId] zero, which the code reads as no order) and the first id 1. *)
Definition start : AutoTrader :=
  mkAutoTrader ∅ ∅ 0 0 0 1 0 0 0 0 0.

(** The two cancels of [OrderBookMessageHandler]: a quote whose price is no
    longer the new price is cancelled and forgotten. *)
Definition cancel_ask (newAskPrice : Z) (s : AutoTrader) : AutoTrader * list Command :=
  if negb (mAskId s =? 0) && negb (newAskPrice =? 0) && negb (newAskPrice =? mAskPrice s)
  then (mkAutoTrader (mAsks s) (mBids s) (mETFPosition s)
          (mETFOrderPositionSell s) (mETFOrderPositionBuy s)
          (mNextMessageId s) (mOrderBookSequence s)
          0 (mAskPrice s) (mBidId s) (mBidPrice s),
        [CancelOrder (mAskId s)])
  else (s, []).

Definition cancel_bid (newBidPrice : Z) (s : AutoTrader) : AutoTrader * list Command :=
  if negb (mBidId s =? 0) && negb (newBidPrice =? 0) && negb (newBidPrice =? mBidPrice s)
  then (mkAutoTrader (mAsks s) (mBids s) (mETFPosition s)
          (mETFOrderPositionSell s) (mETFOrderPositionBuy s)
          (mNextMessageId s) (mOrderBookSequence s)
          (mAskId s) (mAskPrice s) 0 (mBidPrice s),
        [CancelOrder (mBidId s)])
  else (s, []).

(** The two inserts: a side without a quote gets one if the book has a price
    and the position limit leaves room for [LOT_SIZE] more. *)
Definition insert_ask (newAskPrice : Z) (s : AutoTrader) : AutoTrader * list Command :=
  if (mAskId s =? 0) && negb (newAskPrice =? 0)
     && (- POSITION_LIMIT <=? mETFPosition s - mETFOrderPositionSell s - LOT_SIZE)
  then
    let id := mNextMessageId s in
    (mkAutoTrader (<[id := mkOrder newAskPrice LOT_SIZE 0 false]> (mAsks s)) (mBids s)
       (mETFPosition s)
       (mETFOrderPositionSell s + LOT_SIZE) (mETFOrderPositionBuy s)
       (to_ulong (id + 1)) (mOrderBookSequence s)
       id newAskPrice (mBidId s) (mBidPrice s),
     [InsertOrder id SELL newAskPrice LOT_SIZE GOOD_FOR_DAY])
  else (s, []).

Definition insert_bid (newBidPrice : Z) (s : AutoTrader) : AutoTrader * list Command :=
  if (mBidId s =? 0) && negb (newBidPrice =? 0)
     && (mETFPosition s + mETFOrderPositionBuy s + LOT_SIZE <=? POSITION_LIMIT)
  then
    let id := mNextMessageId s in
    (mkAutoTrader (mAsks s) (<[id := mkOrder newBidPrice LOT_SIZE 0 false]> (mBids s))
       (mETFPosition s)
       (mETFOrderPositionSell s) (mETFOrderPositionBuy s + LOT_SIZE)
       (to_ulong (id + 1)) (mOrderBookSequence s)
       (mAskId s) (mAskPrice s) id newBidPrice,
     [InsertOrder id BUY newBidPrice LOT_SIZE GOOD_FOR_DAY])
  else (s, []).

Definition set_mOrderBookSequence (s : AutoTrader) (sequenceNumber : Z) : AutoTrader :=
  mkAutoTrader (mAsks s) (mBids s) (mETFPosition s)
    (mETFOrderPositionSell s) (mETFOrderPositionBuy s)
    (mNextMessageId s) sequenceNumber
    (mAskId s) (mAskPrice s) (mBidId s) (mBidPrice s).

Definition OrderBookMessageHandler (instrument : Instrument) (sequenceNumber : Z)
    (askPrices askVolumes bidPrices bidVolumes : list Z) (s : AutoTrader)
  : AutoTrader * list Command :=
  if sequenceNumber <=? mOrderBookSequence s then (s, [])
  else
    let s0 := set_mOrderBookSequence s sequenceNumber in
    match instrument with
    | ETF => (s0, [])
    | FUTURE =>
      let priceAdjustment := 100 in
      let newAskPrice :=
        if top askPrices =? 0 then 0 else to_ulong (top askPrices + priceAdjustment) in
      let newBidPrice :=
        if top bidPrices =? 0 then 0 else to_ulong (top bidPrices - priceAdjustment) in
      let '(s1, out1) := cancel_ask newAskPrice s0 in
      let '(s2, out2) := cancel_bid newBidPrice s1 in
      let '(s3, out3) := insert_ask newAskPrice s2 in
      let '(s4, out4) := insert_bid newBidPrice s3 in
      (s4, out1 ++ out2 ++ out3 ++ out4)
    end.

Section Handlers.

Variables MAXIMUM_ASK MINIMUM_BID : Z.

(** The part of [OrderStatusMessageHandler] after the side is known. *)
Definition status_update (isSellOrder : bool) (order : Order)
    (clientOrderId fillVolume remainingVolume' : Z) (s : AutoTrader)
  : AutoTrader * list Command :=
  let dFilled := to_ulong (fillVolume - filledVolume order) in
  let hedged := 0 <? dFilled in
  let position :=
    if hedged
    then to_long (mETFPosition s + (if isSellOrder then to_ulong (- dFilled) else dFilled))
    else mETFPosition s in
  let out :=
    if hedged
    then [HedgeOrder (mNextMessageId s)
            (if isSellOrder then BUY else SELL)
            (if isSellOrder then MAX_ASK_NEAREST_TICK MAXIMUM_ASK
             else MIN_BID_NEARST_TICK MINIMUM_BID)
            dFilled]
    else [] in
  let nextId :=
    if hedged then to_ulong (mNextMessageId s + 1) else mNextMessageId s in
  let dRemaining := to_ulong (remainingVolume order - remainingVolume') in
  let positionSell :=
    if isSellOrder then to_long (mETFOrderPositionSell s - dRemaining)
    else mETFOrderPositionSell s in
  let positionBuy :=
    if isSellOrder then mETFOrderPositionBuy s
    else to_long (mETFOrderPositionBuy s - dRemaining) in
  let sideMap := if isSellOrder then mAsks s else mBids s in
  let terminal := negb (0 <? remainingVolume') in
  let sideMap' :=
    if terminal then delete clientOrderId sideMap
    else <[clientOrderId :=
             mkOrder (price order) remainingVolume' fillVolume (cancelling order)]> sideMap in
  (mkAutoTrader
     (if isSellOrder then sideMap' else mAsks s)
     (if isSellOrder then mBids s else sideMap')
     position positionSell positionBuy
     nextId (mOrderBookSequence s)
     (if terminal && (mAskId s =? clientOrderId) then 0 else mAskId s) (mAskPrice s)
     (if terminal && (mBidId s =? clientOrderId) then 0 else mBidId s) (mBidPrice s),
   out).

Definition OrderStatusMessageHandler (clientOrderId fillVolume remainingVolume fees : Z)
    (s : AutoTrader) : AutoTrader * list Command :=
  match mAsks s !! clientOrderId with
  | Some order => status_update true order clientOrderId fillVolume remainingVolume s
  | None =>
    match mBids s !! clientOrderId with
    | Some order => status_update false order clientOrderId fillVolume remainingVolume s
    | None => (s, [])
    end
  end.

Definition tracked (clientOrderId : Z) (s : AutoTrader) : bool :=
  bool_decide (is_Some (mAsks s !! clientOrderId))
  || bool_decide (is_Some (mBids s !! clientOrderId)).

Definition ErrorMessageHandler (clientOrderId : Z) (errorMessage : string) (s : AutoTrader)
  : AutoTrader * list Command :=
  if negb (clientOrderId =? 0) && tracked clientOrderId s
  then OrderStatusMessageHandler clientOrderId 0 0 0 s
  else (s, []).

Definition handle (e : Event) (s : AutoTrader) : AutoTrader * list Command :=
  match e with
  | OrderBookMessage i n ap av bp bv => OrderBookMessageHandler i n ap av bp bv s
  | OrderStatusMessage id f r fees => OrderStatusMessageHandler id f r fees s
  | ErrorMessage id msg => ErrorMessageHandler id msg s
  | OrderFilledMessage _ _ _ => (s, [])
  | HedgeFilledMessage _ _ _ => (s, [])
  | TradeTicksMessage _ _ _ _ _ _ => (s, [])
  end.

Fixpoint run (es : list Event) (s : AutoTrader) : AutoTrader * list Command :=
  match es with
  | [] => (s, [])
  | e :: es' =>
    let '(s1, out1) := handle e s in
    let '(s2, out2) := run es' s1 in
    (s2, out1 ++ out2)
  end.

End Handlers.

(** The price the handler quotes a sell order at, and a buy order at, for a
    top-of-book price [p]: a tick away, zero for an empty side. *)
Definition ask_quote (p : Z) : Z := if p =? 0 then 0 else to_ulong (p + 100).
Definition bid_quote (p : Z) : Z := if p =? 0 then 0 else to_ulong (p - 100).

(** The order a status for [clientOrderId] is applied to. *)
Definition order_of (clientOrderId : Z) (s : AutoTrader) : option Order :=
  match mAsks s !! clientOrderId with
  | Some order => Some order
  | None => mBids s !! clientOrderId
  end.

(** A status the exchange can send for a tracked order, as for the strategy
    above. *)
Definition wf_status (clientOrderId fillVolume remaining : Z) (s : AutoTrader) : Prop :=
  0 ≤ fillVolume < 2 ^ 64 ∧ 0 ≤ remaining < 2 ^ 64 ∧
  ∀ o, order_of clientOrderId s = Some o →
       filledVolume o ≤ fillVolume
       ∧ fillVolume + remaining ≤ filledVolume o + remainingVolume o.

(** Well-formed delivery: as above, an error is handled as the status
    [(0, 0)], so it may name only an order that has not filled. *)
Definition wf_event (s : AutoTrader) (e : Event) : Prop :=
  match e with
  | OrderStatusMessage id f r _ => wf_status id f r s
  | ErrorMessage id _ => wf_status id 0 0 s
  | _ => True
  end.

(** The id counter can still serve one event (two inserts at most). *)
Definition ids_left (s : AutoTrader) : Prop := mNextMessageId s + 2 < 2 ^ 64.

Section Runs.

Variables MAXIMUM_ASK MINIMUM_BID : Z.

(** [es] is a well-formed delivery from [s] on, and the id counter does not
    run out on the way. *)
Fixpoint wf_along (es : list Event) (s : AutoTrader) : Prop :=
  match es with
  | [] => True
  | e :: es' =>
    ids_left s ∧ wf_event s e ∧ wf_along es' (handle MAXIMUM_ASK MINIMUM_BID e s).1
  end.

End Runs.

(** The current quotes are tracked: a non-zero [mAskId] names an order of
    [mAsks] priced [mAskPrice], and likewise for the buy side. *)
Definition quoted (s : AutoTrader) : Prop :=
  (mAskId s ≠ 0 → ∃ o, mAsks s !! mAskId s = Some o ∧ price o = mAskPrice s)
  ∧ (mBidId s ≠ 0 → ∃ o, mBids s !! mBidId s = Some o ∧ price o = mBidPrice s).

(** Every order of a side map stands for at most [LOT_SIZE] lots, filled
    and remaining together. *)
Definition lots_bounded (orders : gmap Z Order) : Prop :=
  ∀ k o, orders !! k = Some o → filledVolume o + remainingVolume o ≤ LOT_SIZE.

(** The position is within the limit and stays there even if every tracked
    order fills; the reserved volumes are the sums they stand for; the
    tracked ids were handed out by the counter. *)
Record sound (s : AutoTrader) : Prop := mkSound {
  snd_range : - POSITION_LIMIT ≤ mETFPosition s ≤ POSITION_LIMIT;
  snd_sell : mETFOrderPositionSell s = reserved (mAsks s);
  snd_buy : mETFOrderPositionBuy s = reserved (mBids s);
  snd_asks : volumes_nonneg (mAsks s);
  snd_bids : volumes_nonneg (mBids s);
  snd_ask_lots : lots_bounded (mAsks s);
  snd_bid_lots : lots_bounded (mBids s);
  snd_short : - POSITION_LIMIT ≤ mETFPosition s - mETFOrderPositionSell s;
  snd_long : mETFPosition s + mETFOrderPositionBuy s ≤ POSITION_LIMIT;
  snd_next : 1 ≤ mNextMessageId s;
  snd_ask_ids : keys_below (mAsks s) (mNextMessageId s);
  snd_bid_ids : keys_below (mBids s) (mNextMessageId s)
}.

(** A hedge order for at least one lot and at most [LOT_SIZE]; any other
    command passes. *)
Definition hedge_within_lot (c : Command) : Prop :=
  match c with
  | HedgeOrder _ _ _ v => 1 ≤ v ≤ LOT_SIZE
  | _ => True
  end.

(** A session: the future's book arrives, both quotes go out (ids 1 and 2);
    sell order 1 fills for 4 lots; the book moves up a tick, both quotes are
    replaced (ids 4 and 5). *)
Definition session : list Event :=
  [ OrderBookMessage FUTURE 1 [10000] [5] [9900] [5];
    OrderStatusMessage 1 4 6 0;
    OrderBookMessage FUTURE 2 [10100] [5] [10000] [5] ].

Definition quoting : AutoTrader :=
  (run demo_MAXIMUM_ASK demo_MINIMUM_BID (firstn 2 session) start).1.

End Basic.

(** ** One order's statuses within a delivery *)

(** The statuses that name [id] among the events [es], in delivery order. *)
Fixpoint statuses_for (id : Z) (es : list Event) : list (Z * Z * Z) :=
  match es with
  | [] => []
  | OrderStatusMessage k f r fees :: es' =>
      if k =? id then (f, r, fees) :: statuses_for id es' else statuses_for id es'
  | _ :: es' => statuses_for id es'
  end.

(** No error among [es] names [id]. *)
Definition no_error_for (id : Z) (es : list Event) : Prop :=
  Forall (λ e, match e with ErrorMessage k _ => k ≠ id | _ => True end) es.

Section SentFor.

Variables MAXIMUM_ASK MINIMUM_BID : Z.

(** The commands sent for order [id] while [es] is delivered from [s]: the
    output of the events that name [id], in sending order. *)
Fixpoint sent_for (id : Z) (es : list Event) (s : AutoTrader) : list Command :=
  match es with
  | [] => []
  | e :: es' =>
    (if bool_decide (names e = Some id)
     then (handle MAXIMUM_ASK MINIMUM_BID e s).2 else [])
    ++ sent_for id es' (handle MAXIMUM_ASK MINIMUM_BID e s).1
  end.

End SentFor.

(** From the state after the first order book: sell order 1 (20 lots) fills
    4, then 10, then all 20 lots, with an order book and a fill of buy
    order 2 in between. *)
Definition fills_of_order1 : list Event :=
  [ OrderStatusMessage 1 4 16 0;
    OrderBookMessage FUTURE 2 [10200] [5] [9900] [5];
    OrderStatusMessage 1 10 10 0;
    OrderStatusMessage 2 5 15 0;
    OrderStatusMessage 1 20 0 0 ].

(** ** Deliveries with well-formed statuses *)

(** Well-formed delivery as far as statuses go: a status is well-formed,
    any other event, an error included, is not restricted. *)
Definition status_wf (s : AutoTrader) (e : Event) : Prop :=
  match e with
  | OrderStatusMessage id f r _ => wf_status id f r s
  | _ => True
  end.

Section StatusRuns.

Variables MAXIMUM_ASK MINIMUM_BID : Z.
(** Every status of [es] is well-formed when it is delivered, and the id
    counter does not run out on the way. *)
Fixpoint statuses_wf_along (es : list Event) (s : AutoTrader) : Prop :=
  match es with
  | [] => True
  | e :: es' =>
    ids_left s ∧ status_wf s e
    ∧ statuses_wf_along es' (handle MAXIMUM_ASK MINIMUM_BID e s).1
  end.

End StatusRuns.

(** * Proofs *)

(** ** Machine arithmetic *)

Lemma to_ulong_small z : 0 ≤ z < 2 ^ 64 → to_ulong z = z.
Proof. intros H. unfold to_ulong. by apply Z.mod_small. Qed.

Lemma to_long_small z : - 2 ^ 63 ≤ z < 2 ^ 63 → to_long z = z.
Proof. intros H. unfold to_long. rewrite Z.mod_small; lia. Qed.

Lemma to_ulong_range z : 0 ≤ to_ulong z < 2 ^ 64.
Proof. unfold to_ulong. apply Z.mod_pos_bound. lia. Qed.

Lemma to_long_neg_ulong z d :
  0 < d < 2 ^ 64 → - 2 ^ 63 ≤ z - d < 2 ^ 63 → to_long (z + to_ulong (- d)) = z - d.
Proof.
  intros Hd Hz. unfold to_long, to_ulong.
  replace ((- d) mod 2 ^ 64) with (2 ^ 64 - d).
  - replace (z + (2 ^ 64 - d) + 2 ^ 63) with (z - d + 2 ^ 63 + 1 * 2 ^ 64) by ring.
    rewrite Z.mod_add by lia. rewrite Z.mod_small; lia.
  - apply Z.mod_unique with (q := -1); lia.
Qed.

(** ** Side maps up to their flags *)

Lemma erase_lookup m k : erase m !! k = mark_cancelling <$> (m !! k).
Proof. unfold erase. by rewrite lookup_fmap. Qed.

Lemma erase_lookup_None m m' k : erase m = erase m' → m !! k = None → m' !! k = None.
Proof.
  intros He Hk. assert (H : erase m' !! k = None).
  { rewrite <- He, erase_lookup, Hk. done. }
  rewrite erase_lookup in H. by destruct (m' !! k).
Qed.

Lemma erase_lookup_Some m m' k o' :
  erase m = erase m' → m' !! k = Some o' →
  ∃ o, m !! k = Some o ∧ price o = price o'
       ∧ remainingVolume o = remainingVolume o' ∧ filledVolume o = filledVolume o'.
Proof.
  intros He Hk. assert (H : erase m !! k = Some (mark_cancelling o')).
  { rewrite He, erase_lookup, Hk. done. }
  rewrite erase_lookup in H. destruct (m !! k) as [o|]; [|done].
  exists o. injection H as H1 H2 H3. done.
Qed.

Lemma erase_size m m' : erase m = erase m' → size m = size m'.
Proof.
  intros He. rewrite <- (map_size_fmap mark_cancelling m).
  rewrite <- (map_size_fmap mark_cancelling m'). by f_equal.
Qed.

Lemma erase_insert_same m k o :
  m !! k = Some o → erase (<[k := mark_cancelling o]> m) = erase m.
Proof.
  intros Hk. unfold erase. rewrite fmap_insert. apply insert_id.
  rewrite lookup_fmap, Hk. done.
Qed.

Lemma erase_alter m k : erase (alter mark_cancelling k m) = erase m.
Proof.
  apply map_eq. intros j. rewrite !erase_lookup, lookup_alter.
  case_decide; [subst|done]. by destruct (m !! j).
Qed.

Lemma erase_insert_fresh m m' k o :
  erase m = erase m' → erase (<[k := o]> m) = erase (<[k := o]> m').
Proof. unfold erase. intros He. by rewrite !fmap_insert, He. Qed.

(** ** The reserved volume of a side map *)

Lemma reserved_empty : reserved ∅ = 0.
Proof. unfold reserved. by rewrite map_fold_empty. Qed.

Lemma reserved_insert m k o :
  m !! k = None → reserved (<[k := o]> m) = remainingVolume o + reserved m.
Proof.
  intros Hk. unfold reserved. rewrite map_fold_insert_L; [done| |done].
  intros. lia.
Qed.

Lemma reserved_delete m k o :
  m !! k = Some o → reserved m = remainingVolume o + reserved (delete k m).
Proof.
  intros Hk. unfold reserved.
  rewrite (map_fold_delete_L _ _ k o m); [done| |done]. intros. lia.
Qed.

Lemma reserved_update m k o o' :
  m !! k = Some o →
  reserved (<[k := o']> m) = reserved m - remainingVolume o + remainingVolume o'.
Proof.
  intros Hk. rewrite <- insert_delete_eq.
  rewrite reserved_insert by apply lookup_delete_eq.
  rewrite (reserved_delete m k o Hk). lia.
Qed.

Lemma reserved_erase m : reserved (erase m) = reserved m.
Proof. unfold reserved, erase. by rewrite map_fold_fmap. Qed.

Lemma reserved_same m m' : erase m = erase m' → reserved m = reserved m'.
Proof. intros He. by rewrite <- (reserved_erase m), He, reserved_erase. Qed.

Lemma reserved_nonneg m :
  (∀ k o, m !! k = Some o → 0 ≤ remainingVolume o) → 0 ≤ reserved m.
Proof.
  induction m as [|k o m Hk IH] using map_ind; intros H.
  - by rewrite reserved_empty.
  - rewrite reserved_insert by done.
    assert (0 ≤ remainingVolume o) by (apply (H k); by rewrite lookup_insert_eq).
    assert (0 ≤ reserved m); [|lia].
    apply IH. intros j x Hj. apply (H j).
    rewrite lookup_insert_ne; [done|]. intros ->. congruence.
Qed.

(** ** The reconciliation loops *)

Ltac scan_cases e :=
  destruct e as [k o]; simpl;
  destruct (cancelling o) eqn:Hc; simpl;
  [| repeat match goal with
            | |- context [if ?b then _ else _] =>
                 lazymatch b with
                 | (_ <? _) => destruct b eqn:?
                 | (_ <=? _) => destruct b eqn:?
                 end
            end; simpl ].

Lemma sell_step_out t st e :
  scanOut (sell_scan_step t st e)
  = scanOut st ++ (if crosses_ask t e then [CancelOrder e.1] else []).
Proof.
  unfold sell_scan_step, crosses_ask. scan_cases e; by rewrite ?app_nil_r.
Qed.

Lemma sell_step_orders t st e :
  scanOrders (sell_scan_step t st e)
  = if crosses_ask t e then <[e.1 := mark_cancelling e.2]> (scanOrders st)
    else scanOrders st.
Proof. unfold sell_scan_step, crosses_ask. scan_cases e; done. Qed.

Lemma buy_step_out M t st e :
  scanOut (buy_scan_step M t st e)
  = scanOut st ++ (if crosses_bid t e then [CancelOrder e.1] else []).
Proof.
  unfold buy_scan_step, crosses_bid. scan_cases e; by rewrite ?app_nil_r.
Qed.

Lemma buy_step_orders M t st e :
  scanOrders (buy_scan_step M t st e)
  = if crosses_bid t e then <[e.1 := mark_cancelling e.2]> (scanOrders st)
    else scanOrders st.
Proof. unfold buy_scan_step, crosses_bid. scan_cases e; done. Qed.

Lemma sell_step_chosen t st e :
  chosenId (sell_scan_step t st e) = chosenId st
  ∨ (crosses_ask t e = false ∧ chosenId (sell_scan_step t st e) = e.1).
Proof.
  unfold sell_scan_step, crosses_ask. scan_cases e; auto.
Qed.

Lemma buy_step_chosen M t st e :
  chosenId (buy_scan_step M t st e) = chosenId st
  ∨ (crosses_bid t e = false ∧ chosenId (buy_scan_step M t st e) = e.1).
Proof.
  unfold buy_scan_step, crosses_bid. scan_cases e; auto.
Qed.

Section Loop.

(** What the proofs need from a loop body: which entries it cancels, and
    that cancelling an entry is all it does to the map and the commands. *)
Variable step : Scan → Z * Order → Scan.
Variable crosses : Z * Order → bool.
Hypothesis step_out : ∀ st e,
  scanOut (step st e) = scanOut st ++ (if crosses e then [CancelOrder e.1] else []).
Hypothesis step_orders : ∀ st e,
  scanOrders (step st e)
  = if crosses e then <[e.1 := mark_cancelling e.2]> (scanOrders st) else scanOrders st.

Lemma loop_out l st :
  scanOut (fold_left step l st)
  = scanOut st ++ map (λ e, CancelOrder e.1) (List.filter crosses l).
Proof.
  revert st. induction l as [|e l IH]; intros st; simpl.
  - by rewrite app_nil_r.
  - rewrite IH, step_out. destruct (crosses e); simpl.
    + by rewrite <- app_assoc.
    + by rewrite app_nil_r.
Qed.

Lemma loop_erase (m0 : gmap Z Order) l st :
  (∀ k o, (k, o) ∈ l → m0 !! k = Some o) →
  erase (scanOrders st) = erase m0 →
  erase (scanOrders (fold_left step l st)) = erase m0.
Proof.
  revert st. induction l as [|[k o] l IH]; intros st Hl Hst; simpl; [done|].
  apply IH.
  - intros j x Hj. apply Hl. by right.
  - rewrite step_orders. destruct (crosses (k, o)); [|done]. simpl.
    unfold erase. rewrite fmap_insert. fold (erase (scanOrders st)).
    rewrite Hst. apply insert_id. rewrite erase_lookup, (Hl k o); [done|by left].
Qed.

Lemma loop_lookup_other l st k :
  k ∉ l.*1 → scanOrders (fold_left step l st) !! k = scanOrders st !! k.
Proof.
  revert st. induction l as [|[j x] l IH]; intros st Hk; simpl; [done|].
  simpl in Hk. apply not_elem_of_cons in Hk as [Hne Hk].
  rewrite IH by done. rewrite step_orders.
  destruct (crosses (j, x)); [|done]. simpl. by rewrite lookup_insert_ne.
Qed.

Lemma loop_lookup l st k o :
  NoDup l.*1 → (k, o) ∈ l →
  scanOrders (fold_left step l st) !! k
  = if crosses (k, o) then Some (mark_cancelling o) else scanOrders st !! k.
Proof.
  revert st. induction l as [|[j x] l IH]; intros st Hnd Hin; simpl.
  - by apply elem_of_nil in Hin.
  - simpl in Hnd. apply NoDup_cons in Hnd as [Hj Hnd].
    apply elem_of_cons in Hin as [Heq|Hin].
    + injection Heq as -> ->. rewrite loop_lookup_other by done.
      rewrite step_orders. destruct (crosses (j, x)); [|done].
      simpl. by rewrite lookup_insert_eq.
    + assert (j ≠ k).
      { intros ->. apply Hj. apply list_elem_of_fmap. by exists (k, o). }
      rewrite (IH _ Hnd Hin). rewrite step_orders.
      destruct (crosses (k, o)); [done|].
      destruct (crosses (j, x)); [|done]. simpl. by rewrite lookup_insert_ne.
Qed.

Lemma loop_cancels_other l k :
  k ∉ l.*1 → cancels_of k (map (λ e, CancelOrder e.1) (List.filter crosses l)) = 0%nat.
Proof.
  induction l as [|[j x] l IH]; intros Hk; simpl; [done|].
  simpl in Hk. apply not_elem_of_cons in Hk as [Hne Hk].
  destruct (crosses (j, x)); simpl; [|by apply IH].
  unfold cancels_of in *. simpl.
  destruct (j =? k) eqn:E; [lia|by apply IH].
Qed.

Lemma loop_cancels l k o :
  NoDup l.*1 → (k, o) ∈ l →
  cancels_of k (map (λ e, CancelOrder e.1) (List.filter crosses l))
  = if crosses (k, o) then 1%nat else 0%nat.
Proof.
  induction l as [|[j x] l IH]; intros Hnd Hin; simpl.
  - by apply elem_of_nil in Hin.
  - simpl in Hnd. apply NoDup_cons in Hnd as [Hj Hnd].
    apply elem_of_cons in Hin as [Heq|Hin].
    + injection Heq as -> ->.
      pose proof (loop_cancels_other l j Hj) as H0.
      destruct (crosses (j, x)); simpl; [|done].
      unfold cancels_of in *. simpl. rewrite Z.eqb_refl. simpl. by rewrite H0.
    + assert (j ≠ k).
      { intros ->. apply Hj. apply list_elem_of_fmap. by exists (k, o). }
      rewrite <- (IH Hnd Hin).
      destruct (crosses (j, x)); simpl; [|done].
      unfold cancels_of. simpl. destruct (j =? k) eqn:E; [lia|done].
Qed.

Hypothesis step_chosen : ∀ st e,
  chosenId (step st e) = chosenId st
  ∨ (crosses e = false ∧ chosenId (step st e) = e.1).

Lemma loop_chosen l st :
  chosenId (fold_left step l st) = chosenId st
  ∨ ∃ e, e ∈ l ∧ crosses e = false ∧ chosenId (fold_left step l st) = e.1.
Proof.
  revert st. induction l as [|e l IH]; intros st; simpl; [by left|].
  destruct (IH (step st e)) as [Heq|(x & Hx & Hc & Hid)].
  - destruct (step_chosen st e) as [H|[Hc H]].
    + left. congruence.
    + right. exists e. split; [by left|]. split; [done|congruence].
  - right. exists x. split; [by right|done].
Qed.

Lemma loop_only_cancels l st :
  Forall is_cancel (scanOut st) → Forall is_cancel (scanOut (fold_left step l st)).
Proof.
  intros Hst. rewrite loop_out. apply Forall_app. split; [done|].
  apply Forall_forall. intros c Hc. apply list_elem_of_In, in_map_iff in Hc.
  destruct Hc as (e & <- & _). done.
Qed.

End Loop.

(** ** The depth eviction *)

Lemma evict_erase sentinel count sc :
  erase (evict sentinel count sc).1 = erase (scanOrders sc).
Proof.
  unfold evict. destruct (_ && _); simpl; [|done].
  destruct (chosen sc); simpl; [done|]. apply erase_alter.
Qed.

Lemma evict_only_cancels sentinel count sc :
  Forall is_cancel (scanOut sc) → Forall is_cancel (evict sentinel count sc).2.
Proof.
  intros H. unfold evict. destruct (_ && _); simpl; [|done].
  apply Forall_app. split; [done|]. by apply Forall_cons.
Qed.

Lemma sell_scan_erase t m : erase (scanOrders (sell_scan t m)) = erase m.
Proof.
  unfold sell_scan.
  apply (loop_erase _ (crosses_ask t) (sell_step_orders t)); [|done].
  intros k o. apply elem_of_map_to_list.
Qed.

Lemma sell_scan_only_cancels t m : Forall is_cancel (scanOut (sell_scan t m)).
Proof.
  unfold sell_scan.
  by apply (loop_only_cancels _ (crosses_ask t) (sell_step_out t)).
Qed.

Lemma buy_scan_erase M t m : erase (scanOrders (buy_scan M t m)) = erase m.
Proof.
  unfold buy_scan.
  apply (loop_erase _ (crosses_bid t) (buy_step_orders M t)); [|done].
  intros k o. apply elem_of_map_to_list.
Qed.

Lemma buy_scan_only_cancels M t m : Forall is_cancel (scanOut (buy_scan M t m)).
Proof.
  unfold buy_scan.
  by apply (loop_only_cancels _ (crosses_bid t) (buy_step_out M t)).
Qed.

(** ** The two outcomes of a repricing pass *)

Lemma RepriceSellOrders_cases MAXIMUM_ASK askPrices askVolumes s :
  ∃ asks out,
    erase asks = erase (mAsks s) ∧ Forall is_cancel out ∧
    (RepriceSellOrders MAXIMUM_ASK askPrices askVolumes s = (set_mAsks s asks, out)
     ∨ (- POSITION_LIMIT ≤ mETFPosition s - mETFOrderPositionSell s - sell_volume s
        ∧ mETFOrderAskCount s < MAX_ORDER_DEPTH
        ∧ RepriceSellOrders MAXIMUM_ASK askPrices askVolumes s
          = (mkAutoTrader
               (<[mNextMessageId s :=
                    mkOrder (sell_target MAXIMUM_ASK askPrices s)
                            (to_ulong (sell_volume s)) 0 false]> asks)
               (mBids s) (mETFPosition s)
               (mETFOrderPositionSell s + sell_volume s) (mETFOrderPositionBuy s)
               (mETFOrderAskCount s + 1) (mETFOrderBidCount s)
               (to_ulong (mNextMessageId s + 1)) (mOrderBookSequence s)
               (mMarketMaxBid s) (mMarketMinAsk s),
             out ++ [InsertOrder (mNextMessageId s) SELL
                       (sell_target MAXIMUM_ASK askPrices s)
                       (to_ulong (sell_volume s)) GOOD_FOR_DAY]))).
Proof.
  unfold RepriceSellOrders.
  pose proof (evict_erase MIN_ORDER (mETFOrderAskCount s)
                (sell_scan (sell_target MAXIMUM_ASK askPrices s) (mAsks s))) as He.
  pose proof (evict_only_cancels MIN_ORDER (mETFOrderAskCount s) _
                (sell_scan_only_cancels (sell_target MAXIMUM_ASK askPrices s) (mAsks s))) as Hc.
  destruct (evict _ _ _) as [asks out]. simpl in He, Hc.
  rewrite sell_scan_erase in He.
  exists asks, out. split; [done|]. split; [done|].
  destruct (alreadyExists _) eqn:E1; simpl; [by left|].
  destruct (_ <? - POSITION_LIMIT) eqn:E2; simpl; [by left|].
  destruct (MAX_ORDER_DEPTH <=? _) eqn:E3; simpl; [by left|].
  destruct (top askPrices =? 0) eqn:E4; simpl; [by left|].
  right. repeat split; [lia|lia].
Qed.

Lemma RepriceBuyOrders_cases MAXIMUM_ASK bidPrices bidVolumes s :
  ∃ bids out,
    erase bids = erase (mBids s) ∧ Forall is_cancel out ∧
    (RepriceBuyOrders MAXIMUM_ASK bidPrices bidVolumes s = (set_mBids s bids, out)
     ∨ (mETFPosition s + mETFOrderPositionBuy s + buy_volume s ≤ POSITION_LIMIT
        ∧ mETFOrderBidCount s < MAX_ORDER_DEPTH
        ∧ RepriceBuyOrders MAXIMUM_ASK bidPrices bidVolumes s
          = (mkAutoTrader
               (mAsks s)
               (<[mNextMessageId s :=
                    mkOrder (buy_target bidPrices s)
                            (to_ulong (buy_volume s)) 0 false]> bids)
               (mETFPosition s)
               (mETFOrderPositionSell s) (mETFOrderPositionBuy s + buy_volume s)
               (mETFOrderAskCount s) (mETFOrderBidCount s + 1)
               (to_ulong (mNextMessageId s + 1)) (mOrderBookSequence s)
               (mMarketMaxBid s) (mMarketMinAsk s),
             out ++ [InsertOrder (mNextMessageId s) BUY
                       (buy_target bidPrices s)
                       (to_ulong (buy_volume s)) GOOD_FOR_DAY]))).
Proof.
  unfold RepriceBuyOrders.
  pose proof (evict_erase (MAX_ORDER MAXIMUM_ASK) (mETFOrderBidCount s)
                (buy_scan MAXIMUM_ASK (buy_target bidPrices s) (mBids s))) as He.
  pose proof (evict_only_cancels (MAX_ORDER MAXIMUM_ASK) (mETFOrderBidCount s) _
                (buy_scan_only_cancels MAXIMUM_ASK (buy_target bidPrices s) (mBids s))) as Hc.
  destruct (evict _ _ _) as [bids out]. simpl in He, Hc.
  rewrite buy_scan_erase in He.
  exists bids, out. split; [done|]. split; [done|].
  destruct (alreadyExists _) eqn:E1; simpl; [by left|].
  destruct (POSITION_LIMIT <? _) eqn:E2; simpl; [by left|].
  destruct (MAX_ORDER_DEPTH <=? _) eqn:E3; simpl; [by left|].
  destruct (top bidPrices =? 0) eqn:E4; simpl; [by left|].
  right. repeat split; [lia|lia].
Qed.

(** ** The structural invariant *)

Lemma keys_below_fresh m n : keys_below m n → m !! n = None.
Proof.
  intros H. destruct (m !! n) eqn:E; [|done].
  assert (1 ≤ n < n) by (apply H; by rewrite E). lia.
Qed.

Lemma keys_below_same m m' n : erase m = erase m' → keys_below m n → keys_below m' n.
Proof.
  intros He H k [o Hk]. apply H.
  destruct (erase_lookup_Some m m' k o He Hk) as (x & Hx & _). by rewrite Hx.
Qed.

Lemma keys_below_mono m n n' : n ≤ n' → keys_below m n → keys_below m n'.
Proof. intros Hn H k Hk. specialize (H k Hk). lia. Qed.

Lemma keys_below_insert m n o : 1 ≤ n → keys_below m n → keys_below (<[n := o]> m) (n + 1).
Proof.
  intros Hn H k Hk. destruct (decide (n = k)) as [<-|Hne]; [lia|].
  rewrite lookup_insert_ne in Hk by done. specialize (H k Hk). lia.
Qed.

Lemma volumes_nonneg_same m m' : erase m = erase m' → volumes_nonneg m → volumes_nonneg m'.
Proof.
  intros He H k o' Hk.
  destruct (erase_lookup_Some m m' k o' He Hk) as (o & Ho & _ & Hr & Hf).
  destruct (H k o Ho). lia.
Qed.

Lemma structural_start maxBid minAsk : structural (start maxBid minAsk).
Proof.
  split; simpl.
  - by rewrite map_size_empty.
  - by rewrite map_size_empty.
  - unfold MAX_ORDER_DEPTH. lia.
  - unfold MAX_ORDER_DEPTH. lia.
  - intros k [o Hk]. by rewrite lookup_empty in Hk.
  - intros k [o Hk]. by rewrite lookup_empty in Hk.
  - intros k. left. apply lookup_empty.
Qed.

Lemma structural_sell MAXIMUM_ASK askPrices askVolumes s :
  structural s → 1 ≤ mNextMessageId s → mNextMessageId s + 1 < 2 ^ 64 →
  let s' := (RepriceSellOrders MAXIMUM_ASK askPrices askVolumes s).1 in
  structural s' ∧ mNextMessageId s ≤ mNextMessageId s' ≤ mNextMessageId s + 1.
Proof.
  intros [Ha Hb Hda Hdb Hka Hkb Hone] Hn1 Hn.
  destruct (RepriceSellOrders_cases MAXIMUM_ASK askPrices askVolumes s)
    as (asks & out & He & _ & [Hr|(_ & Hcount & Hr)]); rewrite Hr; simpl;
    unfold MAX_ORDER_DEPTH in *.
  - split; [|lia]. split; simpl; try done.
    + by rewrite (erase_size _ _ He).
    + by apply (keys_below_same (mAsks s)).
    + intros k. destruct (Hone k) as [H|H]; [left|by right].
      by apply (erase_lookup_None (mAsks s)).
  - rewrite (to_ulong_small (mNextMessageId s + 1)) by lia. split; [|lia].
    assert (Hfresh : asks !! mNextMessageId s = None).
    { apply (erase_lookup_None (mAsks s)); [done|]. by apply keys_below_fresh. }
    split; simpl.
    + rewrite map_size_insert_None by done. rewrite (erase_size _ _ He). lia.
    + done.
    + unfold MAX_ORDER_DEPTH. lia.
    + done.
    + apply keys_below_insert; [done|]. by apply (keys_below_same (mAsks s)).
    + by apply (keys_below_mono _ (mNextMessageId s)); [lia|].
    + intros k. destruct (decide (mNextMessageId s = k)) as [<-|Hne].
      * right. by apply keys_below_fresh.
      * rewrite lookup_insert_ne by done.
        destruct (Hone k) as [H|H]; [left|by right].
        by apply (erase_lookup_None (mAsks s)).
Qed.

Lemma structural_buy MAXIMUM_ASK bidPrices bidVolumes s :
  structural s → 1 ≤ mNextMessageId s → mNextMessageId s + 1 < 2 ^ 64 →
  let s' := (RepriceBuyOrders MAXIMUM_ASK bidPrices bidVolumes s).1 in
  structural s' ∧ mNextMessageId s ≤ mNextMessageId s' ≤ mNextMessageId s + 1.
Proof.
  intros [Ha Hb Hda Hdb Hka Hkb Hone] Hn1 Hn.
  destruct (RepriceBuyOrders_cases MAXIMUM_ASK bidPrices bidVolumes s)
    as (bids & out & He & _ & [Hr|(_ & Hcount & Hr)]); rewrite Hr; simpl;
    unfold MAX_ORDER_DEPTH in *.
  - split; [|lia]. split; simpl; try done.
    + by rewrite (erase_size _ _ He).
    + by apply (keys_below_same (mBids s)).
    + intros k. destruct (Hone k) as [H|H]; [by left|right].
      by apply (erase_lookup_None (mBids s)).
  - rewrite (to_ulong_small (mNextMessageId s + 1)) by lia. split; [|lia].
    assert (Hfresh : bids !! mNextMessageId s = None).
    { apply (erase_lookup_None (mBids s)); [done|]. by apply keys_below_fresh. }
    split; simpl.
    + done.
    + rewrite map_size_insert_None by done. rewrite (erase_size _ _ He). lia.
    + done.
    + unfold MAX_ORDER_DEPTH. lia.
    + by apply (keys_below_mono _ (mNextMessageId s)); [lia|].
    + apply keys_below_insert; [done|]. by apply (keys_below_same (mBids s)).
    + intros k. destruct (decide (mNextMessageId s = k)) as [<-|Hne].
      * left. by apply keys_below_fresh.
      * rewrite lookup_insert_ne by done.
        destruct (Hone k) as [H|H]; [by left|right].
        by apply (erase_lookup_None (mBids s)).
Qed.

Lemma size_delete_Z (m : gmap Z Order) k o :
  m !! k = Some o → Z.of_nat (size (delete k m)) = Z.of_nat (size m) - 1.
Proof.
  intros Hk. rewrite map_size_delete_Some by (by rewrite Hk).
  assert (size m ≠ 0%nat) by (apply (map_size_ne_0_lookup_2 m k); by rewrite Hk).
  lia.
Qed.

Lemma keys_below_delete m n k : keys_below m n → keys_below (delete k m) n.
Proof.
  intros H j [o Hj]. apply H. rewrite lookup_delete in Hj.
  case_decide; [done|]. by rewrite Hj.
Qed.

Lemma keys_below_update m n k o o' :
  m !! k = Some o → keys_below m n → keys_below (<[k := o']> m) n.
Proof.
  intros Hk H j Hj. apply H. destruct (decide (k = j)) as [<-|Hne].
  - by rewrite Hk.
  - by rewrite lookup_insert_ne in Hj.
Qed.

Lemma lookup_delete_None_keep (m : gmap Z Order) k j : m !! j = None → delete k m !! j = None.
Proof. intros H. rewrite lookup_delete. by case_decide. Qed.

Lemma lookup_update_None_keep (m : gmap Z Order) k j o o' :
  m !! k = Some o → m !! j = None → <[k := o']> m !! j = None.
Proof.
  intros Hk Hj. rewrite lookup_insert_ne; [done|]. intros ->. congruence.
Qed.

Lemma structural_status_update MAXIMUM_ASK MINIMUM_BID (isSellOrder : bool) o id f r s :
  structural s → 1 ≤ mNextMessageId s → mNextMessageId s + 1 < 2 ^ 64 →
  (if isSellOrder then mAsks s else mBids s) !! id = Some o →
  let s' := (status_update MAXIMUM_ASK MINIMUM_BID isSellOrder o id f r s).1 in
  structural s' ∧ mNextMessageId s ≤ mNextMessageId s' ≤ mNextMessageId s + 1.
Proof.
  intros [Ha Hb Hda Hdb Hka Hkb Hone] Hn1 Hn Hid. unfold status_update. simpl.
  assert (Hnext : to_ulong (mNextMessageId s + 1) = mNextMessageId s + 1)
    by (apply to_ulong_small; lia).
  rewrite Hnext.
  set (hedged := 0 <? to_ulong (f - filledVolume o)).
  set (n' := if hedged then mNextMessageId s + 1 else mNextMessageId s).
  assert (Hn' : mNextMessageId s ≤ n' ≤ mNextMessageId s + 1)
    by (unfold n'; destruct hedged; lia).
  split; [|done].
  pose proof (size_delete_Z _ _ _ Hid) as Hsz.
  assert (Hsame : ∀ x, size (<[id := x]> (if isSellOrder then mAsks s else mBids s))
                       = size (if isSellOrder then mAsks s else mBids s)).
  { intros x. apply map_size_insert_Some. by rewrite Hid. }
  unfold MAX_ORDER_DEPTH in *.
  destruct isSellOrder, (0 <? r); simpl; split; simpl;
    unfold MAX_ORDER_DEPTH; rewrite ?Hsz, ?Hsame;
    first
      [ lia
      | done
      | apply (keys_below_mono _ (mNextMessageId s)); [lia|];
        first [ done | by apply keys_below_delete
              | by apply (keys_below_update _ _ _ o) ]
      | intros k; destruct (Hone k) as [H|H];
        solve [ left; done | right; done
              | left; by apply lookup_delete_None_keep
              | right; by apply lookup_delete_None_keep
              | left; by apply (lookup_update_None_keep _ _ _ o)
              | right; by apply (lookup_update_None_keep _ _ _ o) ] ].
Qed.

Lemma structural_status MAXIMUM_ASK MINIMUM_BID id f r fees s :
  structural s → 1 ≤ mNextMessageId s → mNextMessageId s + 1 < 2 ^ 64 →
  let s' := (OrderStatusMessageHandler MAXIMUM_ASK MINIMUM_BID id f r fees s).1 in
  structural s' ∧ mNextMessageId s ≤ mNextMessageId s' ≤ mNextMessageId s + 1.
Proof.
  intros Hs Hn1 Hn. unfold OrderStatusMessageHandler.
  destruct (mAsks s !! id) as [o|] eqn:Ea.
  - by apply structural_status_update.
  - destruct (mBids s !! id) as [o|] eqn:Eb.
    + by apply structural_status_update.
    + simpl. split; [done|lia].
Qed.

Lemma structural_handle MAXIMUM_ASK MINIMUM_BID e s :
  structural s → 1 ≤ mNextMessageId s → ids_left s →
  let s' := (handle MAXIMUM_ASK MINIMUM_BID e s).1 in
  structural s' ∧ mNextMessageId s ≤ mNextMessageId s' ≤ mNextMessageId s + 2.
Proof.
  intros Hs Hn1 Hn. unfold ids_left in Hn.
  destruct e as [i n ap av bp bv|id f r fees|id msg| | |]; simpl;
    try (split; [done|lia]).
  - unfold OrderBookMessageHandler. destruct i.
    + destruct (n <=? mOrderBookSequence s); simpl; [split; [done|lia]|].
      set (s1 := mkAutoTrader _ _ _ _ _ _ _ _ n _ _).
      assert (Hs1 : structural s1) by (destruct Hs; by split).
      destruct (structural_sell MAXIMUM_ASK ap av s1 Hs1) as [Hs2 Hn2];
        [done|simpl; lia|].
      destruct (RepriceSellOrders MAXIMUM_ASK ap av s1) as [s2 out2]. simpl in *.
      destruct (structural_buy MAXIMUM_ASK bp bv s2 Hs2) as [Hs3 Hn3]; [lia|lia|].
      destruct (RepriceBuyOrders MAXIMUM_ASK bp bv s2) as [s3 out3]. simpl in *.
      split; [done|lia].
    + simpl. split; [|lia]. destruct Hs; by split.
  - destruct (structural_status MAXIMUM_ASK MINIMUM_BID id f r fees s Hs) as [H1 H2];
      [done|lia|]. split; [done|lia].
  - unfold ErrorMessageHandler. destruct (_ && _); [|simpl; split; [done|lia]].
    destruct (structural_status MAXIMUM_ASK MINIMUM_BID id 0 0 0 s Hs) as [H1 H2];
      [done|lia|]. split; [done|lia].
Qed.

Lemma reachable_structural MAXIMUM_ASK MINIMUM_BID s :
  reachable MAXIMUM_ASK MINIMUM_BID s → structural s ∧ 1 ≤ mNextMessageId s.
Proof.
  induction 1 as [mb ma|s e Hr [IH1 IH2] Hids].
  - split; [apply structural_start|simpl; lia].
  - destruct (structural_handle MAXIMUM_ASK MINIMUM_BID e s IH1 IH2 Hids). split; [done|lia].
Qed.

Lemma wf_reachable_reachable MAXIMUM_ASK MINIMUM_BID s :
  wf_reachable MAXIMUM_ASK MINIMUM_BID s → reachable MAXIMUM_ASK MINIMUM_BID s.
Proof. induction 1; by constructor. Qed.

(** ** The position invariant *)

Lemma quot_depth_bounds a : 0 ≤ a → 0 ≤ a ÷ MAX_ORDER_DEPTH ≤ a.
Proof.
  intros Ha. unfold MAX_ORDER_DEPTH. rewrite Z.quot_div_nonneg by lia.
  split; [apply Z.div_pos; lia|]. apply Z.div_le_upper_bound; lia.
Qed.

Lemma volumes_nonneg_insert m k o :
  0 ≤ remainingVolume o → 0 ≤ filledVolume o →
  volumes_nonneg m → volumes_nonneg (<[k := o]> m).
Proof.
  intros Hr Hf H j x Hj. destruct (decide (k = j)) as [<-|Hne].
  - rewrite lookup_insert_eq in Hj. by injection Hj as <-.
  - rewrite lookup_insert_ne in Hj by done. by apply (H j).
Qed.

Lemma volumes_nonneg_delete m k : volumes_nonneg m → volumes_nonneg (delete k m).
Proof.
  intros H j x Hj. rewrite lookup_delete in Hj. case_decide; [done|]. by apply (H j).
Qed.

Lemma reserved_member m k o :
  volumes_nonneg m → m !! k = Some o → remainingVolume o ≤ reserved m.
Proof.
  intros H Hk. rewrite (reserved_delete m k o Hk).
  assert (0 ≤ reserved (delete k m)); [|lia].
  apply reserved_nonneg. intros j x Hj.
  by apply (volumes_nonneg_delete m k H j x).
Qed.

Lemma positioned_start maxBid minAsk : positioned (start maxBid minAsk).
Proof.
  split; simpl; unfold POSITION_LIMIT; rewrite ?reserved_empty; try lia; try done.
Qed.

Lemma positioned_sell MAXIMUM_ASK askPrices askVolumes s :
  structural s → positioned s →
  positioned (RepriceSellOrders MAXIMUM_ASK askPrices askVolumes s).1.
Proof.
  intros [_ _ _ _ Hka _ _] [Hp Hps Hpb Hva Hvb Hshort Hlong].
  destruct (RepriceSellOrders_cases MAXIMUM_ASK askPrices askVolumes s)
    as (asks & out & He & _ & [Hr|(Hguard & _ & Hr)]); rewrite Hr; simpl.
  - split; simpl; try done.
    + rewrite Hps. by apply reserved_same.
    + by apply (volumes_nonneg_same (mAsks s)).
  - assert (Hvol : 0 ≤ sell_volume s ≤ mETFPosition s + POSITION_LIMIT)
      by (apply quot_depth_bounds; lia).
    unfold POSITION_LIMIT in *.
    assert (Hu : to_ulong (sell_volume s) = sell_volume s)
      by (apply to_ulong_small; lia).
    rewrite Hu.
    assert (Hfresh : asks !! mNextMessageId s = None).
    { apply (erase_lookup_None (mAsks s)); [done|]. by apply keys_below_fresh. }
    split; simpl; unfold POSITION_LIMIT; try done; try lia.
    + rewrite reserved_insert by done. simpl.
      rewrite (reserved_same _ _ He). lia.
    + apply volumes_nonneg_insert; simpl; [lia|lia|].
      by apply (volumes_nonneg_same (mAsks s)).
Qed.

Lemma positioned_buy MAXIMUM_ASK bidPrices bidVolumes s :
  structural s → positioned s →
  positioned (RepriceBuyOrders MAXIMUM_ASK bidPrices bidVolumes s).1.
Proof.
  intros [_ _ _ _ _ Hkb _] [Hp Hps Hpb Hva Hvb Hshort Hlong].
  destruct (RepriceBuyOrders_cases MAXIMUM_ASK bidPrices bidVolumes s)
    as (bids & out & He & _ & [Hr|(Hguard & _ & Hr)]); rewrite Hr; simpl.
  - split; simpl; try done.
    + rewrite Hpb. by apply reserved_same.
    + by apply (volumes_nonneg_same (mBids s)).
  - assert (Hvol : 0 ≤ buy_volume s ≤ POSITION_LIMIT - mETFPosition s)
      by (apply quot_depth_bounds; lia).
    unfold POSITION_LIMIT in *.
    assert (Hu : to_ulong (buy_volume s) = buy_volume s)
      by (apply to_ulong_small; lia).
    rewrite Hu.
    assert (Hfresh : bids !! mNextMessageId s = None).
    { apply (erase_lookup_None (mBids s)); [done|]. by apply keys_below_fresh. }
    split; simpl; unfold POSITION_LIMIT; try done; try lia.
    + rewrite reserved_insert by done. simpl.
      rewrite (reserved_same _ _ He). lia.
    + apply volumes_nonneg_insert; simpl; [lia|lia|].
      by apply (volumes_nonneg_same (mBids s)).
Qed.

Lemma positioned_status_update MAXIMUM_ASK MINIMUM_BID (isSellOrder : bool) o id f r s :
  positioned s →
  (if isSellOrder then mAsks s else mBids s) !! id = Some o →
  0 ≤ f < 2 ^ 64 → 0 ≤ r < 2 ^ 64 →
  filledVolume o ≤ f → f + r ≤ filledVolume o + remainingVolume o →
  positioned (status_update MAXIMUM_ASK MINIMUM_BID isSellOrder o id f r s).1.
Proof.
  intros [Hp Hps Hpb Hva Hvb Hshort Hlong] Hid Hf Hr Hmono Hvol.
  unfold POSITION_LIMIT in *.
  assert (Ho : 0 ≤ remainingVolume o ∧ 0 ≤ filledVolume o)
    by (destruct isSellOrder; [apply (Hva id)|apply (Hvb id)]; done).
  assert (Hmem : remainingVolume o ≤ reserved (if isSellOrder then mAsks s else mBids s))
    by (destruct isSellOrder; by apply (reserved_member _ id)).
  pose proof (reserved_delete _ _ _ Hid) as Hdel.
  pose proof (reserved_update _ _ _ (mkOrder (price o) r f (cancelling o)) Hid) as Hupd.
  simpl in Hupd.
  assert (Hnn : 0 ≤ reserved (delete id (if isSellOrder then mAsks s else mBids s))).
  { apply reserved_nonneg. intros j x Hj.
    destruct isSellOrder;
      [apply (volumes_nonneg_delete _ id Hva j x Hj)
      |apply (volumes_nonneg_delete _ id Hvb j x Hj)]. }
  unfold status_update. simpl.
  destruct isSellOrder;
    rewrite (to_ulong_small (f - filledVolume o)) by lia;
    rewrite (to_ulong_small (remainingVolume o - r)) by lia.
  - assert (Hpos' : (if 0 <? f - filledVolume o
                     then to_long (mETFPosition s + to_ulong (- (f - filledVolume o)))
                     else mETFPosition s) = mETFPosition s - (f - filledVolume o)).
    { destruct (0 <? f - filledVolume o) eqn:E.
      - apply to_long_neg_ulong; lia.
      - lia. }
    rewrite Hpos'. rewrite to_long_small by lia.
    destruct (0 <? r) eqn:Er; simpl; split; simpl; unfold POSITION_LIMIT;
      first [ lia | done
            | by apply volumes_nonneg_delete
            | apply volumes_nonneg_insert; simpl; first [lia|done] ].
  - assert (Hpos' : (if 0 <? f - filledVolume o
                     then to_long (mETFPosition s + (f - filledVolume o))
                     else mETFPosition s) = mETFPosition s + (f - filledVolume o)).
    { destruct (0 <? f - filledVolume o) eqn:E.
      - apply to_long_small; lia.
      - lia. }
    rewrite Hpos'. rewrite to_long_small by lia.
    destruct (0 <? r) eqn:Er; simpl; split; simpl; unfold POSITION_LIMIT;
      first [ lia | done
            | by apply volumes_nonneg_delete
            | apply volumes_nonneg_insert; simpl; first [lia|done] ].
Qed.

Lemma positioned_status MAXIMUM_ASK MINIMUM_BID id f r fees s :
  positioned s → wf_status id f r s →
  positioned (OrderStatusMessageHandler MAXIMUM_ASK MINIMUM_BID id f r fees s).1.
Proof.
  intros Hs (Hf & Hr & Ho). unfold OrderStatusMessageHandler.
  unfold order_of in Ho.
  destruct (mAsks s !! id) as [o|] eqn:Ea.
  - destruct (Ho o eq_refl). by apply positioned_status_update.
  - destruct (mBids s !! id) as [o|] eqn:Eb; [|done].
    destruct (Ho o eq_refl). by apply positioned_status_update.
Qed.

Lemma positioned_handle MAXIMUM_ASK MINIMUM_BID e s :
  structural s → 1 ≤ mNextMessageId s → ids_left s →
  positioned s → wf_event s e →
  positioned (handle MAXIMUM_ASK MINIMUM_BID e s).1.
Proof.
  intros Hs Hn1 Hn Hp Hwf. unfold ids_left in Hn.
  destruct e as [i n ap av bp bv|id f r fees|id msg| | |]; simpl; try done.
  - unfold OrderBookMessageHandler. destruct i.
    + destruct (n <=? mOrderBookSequence s); simpl; [done|].
      set (s1 := mkAutoTrader _ _ _ _ _ _ _ _ n _ _).
      assert (Hs1 : structural s1) by (destruct Hs; by split).
      assert (Hp1 : positioned s1) by (destruct Hp; by split).
      destruct (structural_sell MAXIMUM_ASK ap av s1 Hs1) as [Hs2 Hn2];
        [done|simpl; lia|].
      pose proof (positioned_sell MAXIMUM_ASK ap av s1 Hs1 Hp1) as Hp2.
      destruct (RepriceSellOrders MAXIMUM_ASK ap av s1) as [s2 out2]. simpl in *.
      pose proof (positioned_buy MAXIMUM_ASK bp bv s2 Hs2 Hp2) as Hp3.
      destruct (RepriceBuyOrders MAXIMUM_ASK bp bv s2) as [s3 out3]. done.
    + simpl. destruct Hp; by split.
  - by apply positioned_status.
  - unfold ErrorMessageHandler. destruct (_ && _); [|done].
    by apply positioned_status.
Qed.

Lemma wf_reachable_positioned MAXIMUM_ASK MINIMUM_BID s :
  wf_reachable MAXIMUM_ASK MINIMUM_BID s → positioned s.
Proof.
  induction 1 as [mb ma|s e Hr IH Hids Hwf].
  - apply positioned_start.
  - destruct (reachable_structural MAXIMUM_ASK MINIMUM_BID s) as [Hs Hn].
    { by apply wf_reachable_reachable. }
    by apply positioned_handle.
Qed.

(** ** What a repricing pass can emit *)

Lemma only_cancels_no_insert out id side p v l :
  Forall is_cancel out → ¬ In (InsertOrder id side p v l) out.
Proof.
  intros H Hin. rewrite Forall_forall in H.
  apply list_elem_of_In in Hin. by apply H in Hin.
Qed.

Lemma sell_pass_insert MAXIMUM_ASK ap av s id side p v l :
  In (InsertOrder id side p v l) (RepriceSellOrders MAXIMUM_ASK ap av s).2 →
  side = SELL ∧ v = to_ulong (sell_volume s)
  ∧ - POSITION_LIMIT ≤ mETFPosition s - mETFOrderPositionSell s - sell_volume s.
Proof.
  destruct (RepriceSellOrders_cases MAXIMUM_ASK ap av s)
    as (asks & out & _ & Hc & [Hr|(Hguard & _ & Hr)]); rewrite Hr; simpl; intros Hin.
  - by apply only_cancels_no_insert in Hin.
  - apply in_app_or in Hin as [Hin|[Hin|[]]].
    + by apply only_cancels_no_insert in Hin.
    + by injection Hin as <- <- <- <- <-.
Qed.

Lemma buy_pass_insert MAXIMUM_ASK bp bv s id side p v l :
  In (InsertOrder id side p v l) (RepriceBuyOrders MAXIMUM_ASK bp bv s).2 →
  side = BUY ∧ v = to_ulong (buy_volume s)
  ∧ mETFPosition s + mETFOrderPositionBuy s + buy_volume s ≤ POSITION_LIMIT.
Proof.
  destruct (RepriceBuyOrders_cases MAXIMUM_ASK bp bv s)
    as (bids & out & _ & Hc & [Hr|(Hguard & _ & Hr)]); rewrite Hr; simpl; intros Hin.
  - by apply only_cancels_no_insert in Hin.
  - apply in_app_or in Hin as [Hin|[Hin|[]]].
    + by apply only_cancels_no_insert in Hin.
    + by injection Hin as <- <- <- <- <-.
Qed.

Lemma sell_pass_keeps_ledger MAXIMUM_ASK ap av s :
  let s' := (RepriceSellOrders MAXIMUM_ASK ap av s).1 in
  mETFPosition s' = mETFPosition s ∧ mETFOrderPositionBuy s' = mETFOrderPositionBuy s.
Proof.
  destruct (RepriceSellOrders_cases MAXIMUM_ASK ap av s)
    as (asks & out & _ & _ & [Hr|(_ & _ & Hr)]); by rewrite Hr.
Qed.

(** The position limit, for deliveries without an error on a partly filled
    order.  Under in-order delivery in which every status for a tracked
    order never lowers its fill and never reports more fill plus remainder
    than the order stood for, and in which every error names an order
    that has not filled (the handler turns an error into the status
    [(0, 0)], which has to meet the same two conditions), the position
    never leaves [-POSITION_LIMIT, POSITION_LIMIT], and every insert that
    an order-book update emits passed its side's guard on the state the
    update found: a sell of volume [v] only with
    [netPosition - reservedSell - v >= -POSITION_LIMIT], a buy only with
    [netPosition + reservedBuy + v <= POSITION_LIMIT]. *)
Theorem position_limit_invariant MAXIMUM_ASK MINIMUM_BID s :
  wf_reachable MAXIMUM_ASK MINIMUM_BID s →
  (- POSITION_LIMIT ≤ mETFPosition s ≤ POSITION_LIMIT)
  ∧ ∀ i n ap av bp bv id side p v l,
      In (InsertOrder id side p v l)
         (OrderBookMessageHandler MAXIMUM_ASK i n ap av bp bv s).2 →
      match side with
      | SELL => - POSITION_LIMIT ≤ mETFPosition s - mETFOrderPositionSell s - v
      | BUY => mETFPosition s + mETFOrderPositionBuy s + v ≤ POSITION_LIMIT
      end.
Proof.
  intros Hwf. pose proof (wf_reachable_positioned _ _ _ Hwf) as Hp.
  destruct Hp as [Hp _ _ _ _ _ _]. split; [done|].
  intros i n ap av bp bv id side p v l. unfold OrderBookMessageHandler.
  destruct i; [|by intros []].
  destruct (n <=? mOrderBookSequence s); [by intros []|].
  set (s1 := mkAutoTrader _ _ _ _ _ _ _ _ n _ _).
  pose proof (sell_pass_insert MAXIMUM_ASK ap av s1 id side p v l) as Hsell.
  pose proof (sell_pass_keeps_ledger MAXIMUM_ASK ap av s1) as [Hk1 Hk2].
  destruct (RepriceSellOrders MAXIMUM_ASK ap av s1) as [s2 out2].
  pose proof (buy_pass_insert MAXIMUM_ASK bp bv s2 id side p v l) as Hbuy.
  destruct (RepriceBuyOrders MAXIMUM_ASK bp bv s2) as [s3 out3].
  simpl in *. intros Hin. apply in_app_or in Hin as [Hin|Hin].
  - destruct (Hsell Hin) as (-> & -> & Hg). unfold POSITION_LIMIT in *.
    assert (0 ≤ sell_volume s1 ≤ mETFPosition s + 100).
    { apply (quot_depth_bounds (mETFPosition s + 100)). lia. }
    rewrite to_ulong_small by lia. done.
  - destruct (Hbuy Hin) as (-> & -> & Hg). unfold POSITION_LIMIT in *.
    assert (0 ≤ buy_volume s2 ≤ 100 - mETFPosition s2).
    { apply (quot_depth_bounds (100 - mETFPosition s2)). lia. }
    rewrite to_ulong_small by lia. rewrite <- Hk1, <- Hk2. done.
Qed.

(** ** The sample session is reachable *)

Lemma ids_left_after_book1 : ids_left after_book1.
Proof. unfold ids_left. vm_compute. reflexivity. Qed.

Lemma reachable_after_book1 : reachable demo_MAXIMUM_ASK demo_MINIMUM_BID after_book1.
Proof.
  apply reachable_step; [apply reachable_start|]. unfold ids_left. vm_compute. reflexivity.
Qed.

Lemma reachable_after_book2 : reachable demo_MAXIMUM_ASK demo_MINIMUM_BID after_book2.
Proof.
  apply reachable_step; [apply reachable_after_book1|apply ids_left_after_book1].
Qed.

Lemma wf_reachable_after_book1 : wf_reachable demo_MAXIMUM_ASK demo_MINIMUM_BID after_book1.
Proof.
  apply wf_reachable_step; [apply wf_reachable_start| |exact I].
  unfold ids_left. vm_compute. reflexivity.
Defined.

Lemma wf_reachable_after_fill1 : wf_reachable demo_MAXIMUM_ASK demo_MINIMUM_BID after_fill1.
Proof.
  apply wf_reachable_step;
    [apply wf_reachable_after_book1|apply ids_left_after_book1|].
  split; [lia|]. split; [lia|].
  intros o Ho. vm_compute in Ho. injection Ho as <-. simpl. lia.
Defined.

Lemma position_limit_invariant_witness :
  - POSITION_LIMIT ≤ mETFPosition after_fill1 ≤ POSITION_LIMIT.
Proof.
  exact (proj1 (position_limit_invariant demo_MAXIMUM_ASK demo_MINIMUM_BID after_fill1
                  wf_reachable_after_fill1)).
Defined.

(** ** Order-book updates *)

(** C3, as the code has it: an order book of the future whose sequence
    number does not exceed [mOrderBookSequence] changes nothing and sends
    nothing, so feeding it again changes nothing either. *)
Theorem stale_future_book_ignored MAXIMUM_ASK n ap av bp bv s :
  n ≤ mOrderBookSequence s →
  OrderBookMessageHandler MAXIMUM_ASK FUTURE n ap av bp bv s = (s, []).
Proof.
  intros Hn. unfold OrderBookMessageHandler.
  destruct (n <=? mOrderBookSequence s) eqn:E; [done|lia].
Qed.

Lemma stale_future_book_ignored_witness :
  OrderBookMessageHandler demo_MAXIMUM_ASK FUTURE 1 [10300] [5] [9800] [5] after_book1
  = (after_book1, []).
Proof.
  apply (stale_future_book_ignored demo_MAXIMUM_ASK 1 [10300] [5] [9800] [5] after_book1).
  vm_compute. discriminate.
Defined.

(** C3 fails for the ETF, the instrument the orders are placed in: its order
    books are never compared with [mOrderBookSequence]; here one with
    sequence number 0, not above the current 0, overwrites the recorded best
    bid and best ask. *)
Lemma stale_etf_book_changes_state :
  0 ≤ mOrderBookSequence (start 0 0)
  ∧ (OrderBookMessageHandler demo_MAXIMUM_ASK ETF 0 [10000] [5] [9900] [5] (start 0 0)).1
    ≠ start 0 0.
Proof.
  split; [simpl; lia|]. intros H. apply (f_equal mMarketMaxBid) in H.
  vm_compute in H. discriminate.
Qed.

(** C4, as the code has it: an order book of any instrument other than the
    future (the ETF) records its best bid and its best ask, the ask
    defaulting to [MAXIMUM_ASK] when the top level is zero, and does nothing
    else: no other field changes and nothing is sent. *)
Theorem etf_book_records_quotes MAXIMUM_ASK n ap av bp bv s :
  OrderBookMessageHandler MAXIMUM_ASK ETF n ap av bp bv s
  = (mkAutoTrader (mAsks s) (mBids s) (mETFPosition s)
       (mETFOrderPositionSell s) (mETFOrderPositionBuy s)
       (mETFOrderAskCount s) (mETFOrderBidCount s)
       (mNextMessageId s) (mOrderBookSequence s)
       (top bp) (if top ap =? 0 then MAXIMUM_ASK else top ap),
     []).
Proof. reflexivity. Qed.

(** C4 fails for the future: its order book is not recorded as best bid and
    ask; it runs the repricing pass, which here sends two inserts. *)
Lemma future_book_reprices :
  demo_handle (OrderBookMessage FUTURE 1 [10000] [5] [9900] [5]) (start 0 0)
  = (mkAutoTrader {[ 1 := mkOrder 10000 20 0 false ]} {[ 2 := mkOrder 9800 20 0 false ]}
       0 20 20 1 1 3 1 0 0,
     [InsertOrder 1 SELL 10000 20 GOOD_FOR_DAY; InsertOrder 2 BUY 9800 20 GOOD_FOR_DAY]).
Proof. vm_compute. reflexivity. Qed.

(** ** Status and error events *)

(** C10: a status or an error that names an id found in neither side map
    returns the state as it was and sends nothing. *)
Theorem untracked_events_ignored MAXIMUM_ASK MINIMUM_BID id f r fees msg s :
  mAsks s !! id = None → mBids s !! id = None →
  OrderStatusMessageHandler MAXIMUM_ASK MINIMUM_BID id f r fees s = (s, [])
  ∧ ErrorMessageHandler MAXIMUM_ASK MINIMUM_BID id msg s = (s, []).
Proof.
  intros Ha Hb. unfold ErrorMessageHandler, tracked, OrderStatusMessageHandler.
  rewrite Ha, Hb. split; [done|]. by destruct (negb (id =? 0) && _).
Qed.

Lemma untracked_events_ignored_witness :
  OrderStatusMessageHandler demo_MAXIMUM_ASK demo_MINIMUM_BID 7 3 0 0 after_book1
  = (after_book1, [])
  ∧ ErrorMessageHandler demo_MAXIMUM_ASK demo_MINIMUM_BID 7 "unknown order" after_book1
    = (after_book1, []).
Proof.
  apply (untracked_events_ignored demo_MAXIMUM_ASK demo_MINIMUM_BID 7 3 0 0
           "unknown order" after_book1); vm_compute; reflexivity.
Defined.

(** C7: in a reachable state, a status with [remainingVolume == 0] for a
    tracked order leaves its id in neither side map and takes exactly one
    off the order count of the side the order was on, leaving the other
    side's count as it was. *)
Theorem terminal_status_removes_order MAXIMUM_ASK MINIMUM_BID id f fees s :
  reachable MAXIMUM_ASK MINIMUM_BID s → tracked id s = true →
  let s' := (OrderStatusMessageHandler MAXIMUM_ASK MINIMUM_BID id f 0 fees s).1 in
  mAsks s' !! id = None ∧ mBids s' !! id = None
  ∧ (is_Some (mAsks s !! id) →
       mETFOrderAskCount s' = mETFOrderAskCount s - 1
       ∧ mETFOrderBidCount s' = mETFOrderBidCount s)
  ∧ (is_Some (mBids s !! id) →
       mETFOrderBidCount s' = mETFOrderBidCount s - 1
       ∧ mETFOrderAskCount s' = mETFOrderAskCount s).
Proof.
  intros Hr Ht. destruct (reachable_structural _ _ _ Hr) as [[_ _ _ _ _ _ Hone] _].
  unfold tracked in Ht. unfold OrderStatusMessageHandler.
  destruct (mAsks s !! id) as [o|] eqn:Ea.
  - destruct (Hone id) as [H|Hb]; [congruence|].
    unfold status_update. simpl. rewrite Hb, lookup_delete_eq.
    repeat split; try done; by intros [x Hx].
  - destruct (mBids s !! id) as [o|] eqn:Eb.
    + unfold status_update. simpl. rewrite Ea, lookup_delete_eq.
      repeat split; try done; by intros [x Hx].
    + by vm_compute in Ht.
Qed.

Lemma terminal_status_removes_order_witness :
  let s' := (OrderStatusMessageHandler demo_MAXIMUM_ASK demo_MINIMUM_BID 1 20 0 0
               after_book1).1 in
  mAsks s' !! 1 = None ∧ mBids s' !! 1 = None
  ∧ (is_Some (mAsks after_book1 !! 1) →
       mETFOrderAskCount s' = mETFOrderAskCount after_book1 - 1
       ∧ mETFOrderBidCount s' = mETFOrderBidCount after_book1)
  ∧ (is_Some (mBids after_book1 !! 1) →
       mETFOrderBidCount s' = mETFOrderBidCount after_book1 - 1
       ∧ mETFOrderAskCount s' = mETFOrderAskCount after_book1).
Proof.
  apply (terminal_status_removes_order demo_MAXIMUM_ASK demo_MINIMUM_BID 1 20 0
           after_book1 reachable_after_book1).
  vm_compute. reflexivity.
Defined.

(** ** Order counts *)

(** C9, as the code has it: in every reachable state each order count is the
    number of orders in its side map, cancelling ones included (a cancel
    only sets the flag; the count goes down when the order's terminal status
    arrives), and each count is at most [MAX_ORDER_DEPTH]. *)
Theorem order_counts_are_map_sizes MAXIMUM_ASK MINIMUM_BID s :
  reachable MAXIMUM_ASK MINIMUM_BID s →
  mETFOrderAskCount s = Z.of_nat (size (mAsks s))
  ∧ mETFOrderBidCount s = Z.of_nat (size (mBids s))
  ∧ mETFOrderAskCount s ≤ MAX_ORDER_DEPTH
  ∧ mETFOrderBidCount s ≤ MAX_ORDER_DEPTH.
Proof.
  intros Hr. by destruct (reachable_structural _ _ _ Hr) as [[? ? ? ? _ _ _] _].
Qed.

Lemma order_counts_are_map_sizes_witness :
  mETFOrderAskCount after_book2 = Z.of_nat (size (mAsks after_book2))
  ∧ mETFOrderBidCount after_book2 = Z.of_nat (size (mBids after_book2))
  ∧ mETFOrderAskCount after_book2 ≤ MAX_ORDER_DEPTH
  ∧ mETFOrderBidCount after_book2 ≤ MAX_ORDER_DEPTH.
Proof.
  exact (order_counts_are_map_sizes demo_MAXIMUM_ASK demo_MINIMUM_BID after_book2
           reachable_after_book2).
Defined.

(** C9 fails as stated: after two order books the sell side holds order 1,
    cancelling, and order 3, resting; the count is 2, the number of
    non-cancelling orders is 1. *)
Lemma order_count_includes_cancelling :
  reachable demo_MAXIMUM_ASK demo_MINIMUM_BID after_book2
  ∧ mAsks after_book2
    = {[ 1 := mkOrder 10000 20 0 true; 3 := mkOrder 10200 20 0 false ]}
  ∧ mETFOrderAskCount after_book2 = 2
  ∧ resting (mAsks after_book2) = 1%nat
  ∧ mETFOrderAskCount after_book2 ≠ Z.of_nat (resting (mAsks after_book2)).
Proof.
  split; [apply reachable_after_book2|].
  split; [vm_compute; reflexivity|].
  split; [vm_compute; reflexivity|].
  split; [vm_compute; reflexivity|].
  vm_compute. discriminate.
Qed.

(** ** The reconciliation loops, order by order *)

Lemma sell_scan_entry t m k o :
  m !! k = Some o →
  cancels_of k (scanOut (sell_scan t m)) = (if crosses_ask t (k, o) then 1%nat else 0%nat)
  ∧ scanOrders (sell_scan t m) !! k
    = Some (if crosses_ask t (k, o) then mark_cancelling o else o).
Proof.
  intros Hk. unfold sell_scan.
  assert (Hin : (k, o) ∈ map_to_list m) by by apply elem_of_map_to_list.
  pose proof (NoDup_fst_map_to_list m) as Hnd. split.
  - rewrite (loop_out _ (crosses_ask t) (sell_step_out t)). simpl.
    by apply loop_cancels.
  - rewrite (loop_lookup _ (crosses_ask t) (sell_step_orders t) _ _ k o Hnd Hin).
    simpl. rewrite Hk. by destruct (crosses_ask t (k, o)).
Qed.

Lemma buy_scan_entry M t m k o :
  m !! k = Some o →
  cancels_of k (scanOut (buy_scan M t m)) = (if crosses_bid t (k, o) then 1%nat else 0%nat)
  ∧ scanOrders (buy_scan M t m) !! k
    = Some (if crosses_bid t (k, o) then mark_cancelling o else o).
Proof.
  intros Hk. unfold buy_scan.
  assert (Hin : (k, o) ∈ map_to_list m) by by apply elem_of_map_to_list.
  pose proof (NoDup_fst_map_to_list m) as Hnd. split.
  - rewrite (loop_out _ (crosses_bid t) (buy_step_out M t)). simpl.
    by apply loop_cancels.
  - rewrite (loop_lookup _ (crosses_bid t) (buy_step_orders M t) _ _ k o Hnd Hin).
    simpl. rewrite Hk. by destruct (crosses_bid t (k, o)).
Qed.

Lemma cancels_of_app k a b : cancels_of k (a ++ b) = (cancels_of k a + cancels_of k b)%nat.
Proof. unfold cancels_of. by rewrite List.filter_app, length_app. Qed.

Lemma evict_cancels_other sentinel count sc k :
  (chosenId sc ≠ 0 → chosenId sc ≠ k) →
  cancels_of k (evict sentinel count sc).2 = cancels_of k (scanOut sc).
Proof.
  intros Hne. unfold evict.
  destruct (chosenId sc =? 0) eqn:E0; simpl; [done|].
  destruct (negb _ && _); simpl; [|done].
  rewrite cancels_of_app. unfold cancels_of at 2. simpl.
  assert (E : (chosenId sc =? k) = false) by (apply Z.eqb_neq, Hne; lia).
  rewrite E. simpl. lia.
Qed.

(** Over the whole sell pass, depth eviction and insert included, an order
    that crossed the target still has exactly one cancel: the eviction
    candidate is never an order the loop cancelled. *)
Lemma sell_pass_cancels_once MAXIMUM_ASK ap av s k o :
  mAsks s !! k = Some o →
  crosses_ask (sell_target MAXIMUM_ASK ap s) (k, o) = true →
  cancels_of k (RepriceSellOrders MAXIMUM_ASK ap av s).2 = 1%nat.
Proof.
  intros Hk Hcross. unfold RepriceSellOrders.
  set (t := sell_target MAXIMUM_ASK ap s) in *.
  destruct (sell_scan_entry t (mAsks s) k o Hk) as [Hone _]. rewrite Hcross in Hone.
  assert (Hne : chosenId (sell_scan t (mAsks s)) ≠ 0 → chosenId (sell_scan t (mAsks s)) ≠ k).
  { intros H0. unfold sell_scan in *.
    destruct (loop_chosen _ (crosses_ask t) (sell_step_chosen t)
                (map_to_list (mAsks s)) (scan_init (mAsks s)))
      as [Hz|([j x] & Hin & Hc & Hid)]; [done|].
    rewrite Hid. simpl. intros ->. apply elem_of_map_to_list in Hin.
    rewrite Hk in Hin. injection Hin as <-. congruence. }
  pose proof (evict_cancels_other MIN_ORDER (mETFOrderAskCount s) _ k Hne) as Hev.
  destruct (evict _ _ _) as [asks out]. simpl in Hev.
  destruct (_ || _); simpl; [lia|].
  rewrite cancels_of_app. unfold cancels_of at 2. simpl. lia.
Qed.

Lemma buy_pass_cancels_once MAXIMUM_ASK bp bv s k o :
  mBids s !! k = Some o →
  crosses_bid (buy_target bp s) (k, o) = true →
  cancels_of k (RepriceBuyOrders MAXIMUM_ASK bp bv s).2 = 1%nat.
Proof.
  intros Hk Hcross. unfold RepriceBuyOrders.
  set (t := buy_target bp s) in *.
  destruct (buy_scan_entry MAXIMUM_ASK t (mBids s) k o Hk) as [Hone _].
  rewrite Hcross in Hone.
  assert (Hne : chosenId (buy_scan MAXIMUM_ASK t (mBids s)) ≠ 0
                → chosenId (buy_scan MAXIMUM_ASK t (mBids s)) ≠ k).
  { intros H0. unfold buy_scan in *.
    destruct (loop_chosen _ (crosses_bid t) (buy_step_chosen MAXIMUM_ASK t)
                (map_to_list (mBids s)) (scan_init (mBids s)))
      as [Hz|([j x] & Hin & Hc & Hid)]; [done|].
    rewrite Hid. simpl. intros ->. apply elem_of_map_to_list in Hin.
    rewrite Hk in Hin. injection Hin as <-. congruence. }
  pose proof (evict_cancels_other (MAX_ORDER MAXIMUM_ASK) (mETFOrderBidCount s) _ k Hne)
    as Hev.
  destruct (evict _ _ _) as [bids out]. simpl in Hev.
  destruct (_ || _); simpl; [lia|].
  rewrite cancels_of_app. unfold cancels_of at 2. simpl. lia.
Qed.

(** C8: in the sell-side loop a non-cancelling order priced strictly below
    the target gets exactly one cancel and comes out with [cancelling] true
    and its price and volumes as they were; one priced at or above the
    target gets no cancel from the loop and comes out unchanged, its flag
    still false.  The buy-side loop does the same with the comparison turned
    round: strictly above the target bid is cancelled, at or below is not. *)
Theorem reconciliation_cancels_crossing_orders MAXIMUM_ASK target orders k o :
  orders !! k = Some o → cancelling o = false →
  (price o < target →
     cancels_of k (scanOut (sell_scan target orders)) = 1%nat
     ∧ scanOrders (sell_scan target orders) !! k
       = Some (mkOrder (price o) (remainingVolume o) (filledVolume o) true))
  ∧ (target ≤ price o →
     cancels_of k (scanOut (sell_scan target orders)) = 0%nat
     ∧ scanOrders (sell_scan target orders) !! k = Some o)
  ∧ (target < price o →
     cancels_of k (scanOut (buy_scan MAXIMUM_ASK target orders)) = 1%nat
     ∧ scanOrders (buy_scan MAXIMUM_ASK target orders) !! k
       = Some (mkOrder (price o) (remainingVolume o) (filledVolume o) true))
  ∧ (price o ≤ target →
     cancels_of k (scanOut (buy_scan MAXIMUM_ASK target orders)) = 0%nat
     ∧ scanOrders (buy_scan MAXIMUM_ASK target orders) !! k = Some o).
Proof.
  intros Hk Hc.
  pose proof (sell_scan_entry target orders k o Hk) as Hs.
  pose proof (buy_scan_entry MAXIMUM_ASK target orders k o Hk) as Hb.
  unfold crosses_ask, crosses_bid in *. simpl in *. rewrite Hc in *. simpl in *.
  repeat split.
  - destruct (price o <? target) eqn:E; [apply Hs|lia].
  - destruct (price o <? target) eqn:E; [apply Hs|lia].
  - destruct (price o <? target) eqn:E; [lia|apply Hs].
  - destruct (price o <? target) eqn:E; [lia|apply Hs].
  - destruct (target <? price o) eqn:E; [apply Hb|lia].
  - destruct (target <? price o) eqn:E; [apply Hb|lia].
  - destruct (target <? price o) eqn:E; [lia|apply Hb].
  - destruct (target <? price o) eqn:E; [lia|apply Hb].
Qed.

Lemma reconciliation_cancels_crossing_orders_witness :
  (cancels_of 1 (scanOut (sell_scan 10007 {[ 1 := sample_order 9900 ]})) = 1%nat
   ∧ scanOrders (sell_scan 10007 {[ 1 := sample_order 9900 ]}) !! 1
     = Some (mkOrder 9900 20 0 true))
  ∧ (cancels_of 2 (scanOut (buy_scan demo_MAXIMUM_ASK 9900 {[ 2 := sample_order 10000 ]}))
     = 1%nat
     ∧ scanOrders (buy_scan demo_MAXIMUM_ASK 9900 {[ 2 := sample_order 10000 ]}) !! 2
       = Some (mkOrder 10000 20 0 true)).
Proof.
  split.
  - refine (proj1 (reconciliation_cancels_crossing_orders demo_MAXIMUM_ASK 10007
                     {[ 1 := sample_order 9900 ]} 1 (sample_order 9900) _ _) _).
    + vm_compute. reflexivity.
    + reflexivity.
    + vm_compute. reflexivity.
  - refine (proj1 (proj2 (proj2 (reconciliation_cancels_crossing_orders demo_MAXIMUM_ASK 9900
                     {[ 2 := sample_order 10000 ]} 2 (sample_order 10000) _ _))) _).
    + vm_compute. reflexivity.
    + reflexivity.
    + vm_compute. reflexivity.
Defined.

(** The two resting sell orders of the specification's scenario, against the
    target 10007: the one at 9900 is cancelled, the one at 10100 is kept. *)
Example reconciliation_scenario :
  let sc := sell_scan 10007 {[ 1 := sample_order 9900; 2 := sample_order 10100 ]} in
  scanOut sc = [CancelOrder 1]
  ∧ scanOrders sc = {[ 1 := mkOrder 9900 20 0 true; 2 := sample_order 10100 ]}
  ∧ chosenId sc = 2.
Proof. vm_compute. done. Qed.

(** ** The sell-side quote *)





(** ** An error after a partial fill *)

(** C6 on the code: order 1, a sell of 20 lots, has filled 4 when an error
    names it.  The handler's [0 - 4] is an [unsigned long]; it is positive,
    so the position moves from -4 back to 0 and a hedge order for
    [2^64 - 4] lots goes out.  The order is removed and its count and
    reserved volume are released. *)
Theorem error_after_partial_fill_hedges :
  mETFPosition after_fill1 = -4
  ∧ mAsks after_fill1 !! 1 = Some (mkOrder 10000 16 4 false)
  ∧ ErrorMessageHandler demo_MAXIMUM_ASK demo_MINIMUM_BID 1 "rejected" after_fill1
    = (mkAutoTrader ∅ {[ 2 := mkOrder 9800 20 0 false ]} 0 0 20 0 1 5 1 0 0,
       [HedgeOrder 4 BUY 2147483600 (2 ^ 64 - 4)]).
Proof. repeat split; vm_compute; reflexivity. Qed.

(** The same wrap-around undoes a fill in the ledger: in [error_session] the
    position is 96 before the error and 115, beyond [POSITION_LIMIT], after
    it.  The position invariant needs the error's status [(0, 0)] to be
    well-formed, which it is only for an order that has not filled. *)
Lemma error_on_filled_order_breaks_limit :
  mETFPosition
    (run demo_MAXIMUM_ASK demo_MINIMUM_BID (firstn 12 error_session) (start 0 0)).1 = 96
  ∧ mETFPosition
      (run demo_MAXIMUM_ASK demo_MINIMUM_BID error_session (start 0 0)).1 = 115.
Proof. split; vm_compute; reflexivity. Qed.

(** C1: the position limit does not survive an error that names a partly
    filled order.  In [error_session] every status is well-formed when it
    is delivered (fills never go down, never more fill than the order's
    volume) and the id counter is far from running out; the position is 96
    before the closing error on sell order 1, of which 19 lots had filled,
    and 115 after it, outside [-POSITION_LIMIT, POSITION_LIMIT]. *)
Theorem position_limit_broken_by_error :
  statuses_wf_along demo_MAXIMUM_ASK demo_MINIMUM_BID error_session (start 0 0)
  ∧ mETFPosition
      (run demo_MAXIMUM_ASK demo_MINIMUM_BID (firstn 12 error_session) (start 0 0)).1 = 96
  ∧ mETFPosition
      (run demo_MAXIMUM_ASK demo_MINIMUM_BID error_session (start 0 0)).1 = 115
  ∧ ¬ (- POSITION_LIMIT ≤ 115 ≤ POSITION_LIMIT).
Proof.
  split; [|split; [vm_compute; reflexivity|split; [vm_compute; reflexivity|]]].
  - repeat (split; [unfold ids_left; vm_compute; reflexivity|];
            split; [first [ exact I
                          | split; [lia|]; split; [lia|];
                            intros o Ho; vm_compute in Ho; injection Ho as <-;
                            simpl; lia ]|]).
    exact I.
  - unfold POSITION_LIMIT. lia.
Qed.

(** For an order that has not filled yet the error path sends no hedge and
    leaves the position as it was. *)
Lemma error_on_unfilled_order MAXIMUM_ASK MINIMUM_BID id msg o s :
  order_of id s = Some o → filledVolume o = 0 → id ≠ 0 →
  let r := ErrorMessageHandler MAXIMUM_ASK MINIMUM_BID id msg s in
  r.2 = [] ∧ mETFPosition r.1 = mETFPosition s.
Proof.
  intros Ho Hf Hid. unfold ErrorMessageHandler, tracked, OrderStatusMessageHandler.
  unfold order_of in Ho.
  assert (Eid : (id =? 0) = false) by lia. rewrite Eid. simpl.
  destruct (mAsks s !! id) as [x|] eqn:Ea.
  - injection Ho as ->. simpl. unfold status_update. rewrite Hf. done.
  - rewrite Ho. simpl. unfold status_update. rewrite Hf. done.
Qed.

(** ** Hedging the fills of one order *)

Lemma status_hedge MAXIMUM_ASK MINIMUM_BID id f r fees s o :
  order_of id s = Some o → 0 ≤ filledVolume o ≤ f → f < 2 ^ 64 →
  let res := OrderStatusMessageHandler MAXIMUM_ASK MINIMUM_BID id f r fees s in
  res.2 = (if 0 <? f - filledVolume o
           then [hedge_for MAXIMUM_ASK MINIMUM_BID (on_sell_side id s)
                   (mNextMessageId s) (f - filledVolume o)]
           else [])
  ∧ (0 < r →
     order_of id res.1 = Some (mkOrder (price o) r f (cancelling o))
     ∧ on_sell_side id res.1 = on_sell_side id s).
Proof.
  intros Ho Hf Hf64. unfold OrderStatusMessageHandler, order_of, on_sell_side in *.
  destruct (mAsks s !! id) as [x|] eqn:Ea.
  - injection Ho as ->. unfold status_update. simpl.
    rewrite to_ulong_small by lia. split.
    + by destruct (0 <? f - filledVolume o).
    + intros Hr. assert (E : (0 <? r) = true) by lia. rewrite E. simpl.
      by rewrite lookup_insert_eq.
  - rewrite Ho. unfold status_update. simpl.
    rewrite to_ulong_small by lia. split.
    + by destruct (0 <? f - filledVolume o).
    + intros Hr. assert (E : (0 <? r) = true) by lia. rewrite E. simpl.
      by rewrite Ea, lookup_insert_eq.
Qed.

(** ** Events that do not name the order *)

Lemma same_entry_erase m m' id : erase m = erase m' → same_entry (m !! id) (m' !! id).
Proof. intros He. unfold same_entry. by rewrite <- !erase_lookup, He. Qed.

Lemma sell_pass_keeps_entries MAXIMUM_ASK ap av s id :
  id < mNextMessageId s →
  let s' := (RepriceSellOrders MAXIMUM_ASK ap av s).1 in
  same_entry (mAsks s !! id) (mAsks s' !! id) ∧ mBids s' = mBids s.
Proof.
  intros Hid.
  destruct (RepriceSellOrders_cases MAXIMUM_ASK ap av s)
    as (asks & out & He & _ & [Hr|(_ & _ & Hr)]); rewrite Hr; simpl.
  - split; [|done]. by apply same_entry_erase.
  - split; [|done]. rewrite lookup_insert_ne by lia. by apply same_entry_erase.
Qed.

Lemma buy_pass_keeps_entries MAXIMUM_ASK bp bv s id :
  id < mNextMessageId s →
  let s' := (RepriceBuyOrders MAXIMUM_ASK bp bv s).1 in
  same_entry (mBids s !! id) (mBids s' !! id) ∧ mAsks s' = mAsks s.
Proof.
  intros Hid.
  destruct (RepriceBuyOrders_cases MAXIMUM_ASK bp bv s)
    as (bids & out & He & _ & [Hr|(_ & _ & Hr)]); rewrite Hr; simpl.
  - split; [|done]. by apply same_entry_erase.
  - split; [|done]. rewrite lookup_insert_ne by lia. by apply same_entry_erase.
Qed.

Lemma status_keeps_other_entries MAXIMUM_ASK MINIMUM_BID k f r fees s id :
  k ≠ id →
  let s' := (OrderStatusMessageHandler MAXIMUM_ASK MINIMUM_BID k f r fees s).1 in
  mAsks s' !! id = mAsks s !! id ∧ mBids s' !! id = mBids s !! id.
Proof.
  intros Hne. unfold OrderStatusMessageHandler.
  destruct (mAsks s !! k) as [x|]; [|destruct (mBids s !! k) as [x|]; [|done]];
    unfold status_update; simpl; destruct (0 <? r); simpl;
    by rewrite ?lookup_insert_ne, ?lookup_delete_ne by done.
Qed.

Lemma same_entries_same_order s s' id o :
  same_entry (mAsks s !! id) (mAsks s' !! id) →
  same_entry (mBids s !! id) (mBids s' !! id) →
  order_of id s = Some o →
  ∃ o', order_of id s' = Some o' ∧ price o' = price o
        ∧ remainingVolume o' = remainingVolume o ∧ filledVolume o' = filledVolume o
        ∧ on_sell_side id s' = on_sell_side id s.
Proof.
  unfold same_entry, order_of, on_sell_side. intros Ha Hb Ho.
  destruct (mAsks s !! id) as [x|], (mAsks s' !! id) as [x'|]; try done.
  - injection Ho as ->. injection Ha as H1 H2 H3. by exists x'.
  - destruct (mBids s' !! id) as [y'|]; rewrite Ho in Hb; [|done].
    injection Hb as H1 H2 H3. by exists y'.
Qed.

(** A tracked order keeps its price, its volumes and its side through any
    event that does not name it: order books touch at most its flag, and
    statuses and errors for other ids leave it alone.  Statuses for one
    order may therefore arrive with any other events in between. *)
Lemma other_event_keeps_order MAXIMUM_ASK MINIMUM_BID e id o s :
  reachable MAXIMUM_ASK MINIMUM_BID s → ids_left s →
  order_of id s = Some o → names e ≠ Some id →
  ∃ o', order_of id (handle MAXIMUM_ASK MINIMUM_BID e s).1 = Some o'
        ∧ price o' = price o
        ∧ remainingVolume o' = remainingVolume o ∧ filledVolume o' = filledVolume o
        ∧ on_sell_side id (handle MAXIMUM_ASK MINIMUM_BID e s).1 = on_sell_side id s.
Proof.
  intros Hr Hids Ho Hname.
  destruct (reachable_structural _ _ _ Hr) as [Hs Hn1].
  assert (Hid : id < mNextMessageId s).
  { destruct Hs as [_ _ _ _ Hka Hkb _]. unfold order_of in Ho.
    destruct (mAsks s !! id) as [x|] eqn:Ea.
    - assert (1 ≤ id < mNextMessageId s) by (apply Hka; by rewrite Ea). lia.
    - assert (1 ≤ id < mNextMessageId s) by (apply Hkb; by rewrite Ho). lia. }
  unfold ids_left in Hids.
  apply (same_entries_same_order s); [| |done];
    destruct e as [i n ap av bp bv|k f r fees|k msg| | |]; simpl; try done.
  - unfold OrderBookMessageHandler. destruct i; [|done].
    destruct (n <=? mOrderBookSequence s); [done|].
    set (s1 := mkAutoTrader _ _ _ _ _ _ _ _ n _ _).
    destruct (sell_pass_keeps_entries MAXIMUM_ASK ap av s1 id Hid) as [Ha Hb].
    assert (Hs1 : structural s1) by (destruct Hs; by split).
    destruct (structural_sell MAXIMUM_ASK ap av s1 Hs1) as [_ Hn2];
      [done|simpl; lia|].
    destruct (RepriceSellOrders MAXIMUM_ASK ap av s1) as [s2 out2]. simpl in *.
    destruct (buy_pass_keeps_entries MAXIMUM_ASK bp bv s2 id) as [Hb' Ha']; [lia|].
    destruct (RepriceBuyOrders MAXIMUM_ASK bp bv s2) as [s3 out3]. simpl in *.
    by rewrite Ha'.
  - assert (k ≠ id) by (intros ->; by apply Hname).
    destruct (status_keeps_other_entries MAXIMUM_ASK MINIMUM_BID k f r fees s id)
      as [Ha _]; [done|]. unfold same_entry. by rewrite Ha.
  - assert (k ≠ id) by (intros ->; by apply Hname). unfold ErrorMessageHandler.
    destruct (_ && _); [|done].
    destruct (status_keeps_other_entries MAXIMUM_ASK MINIMUM_BID k 0 0 0 s id)
      as [Ha _]; [done|]. unfold same_entry. by rewrite Ha.
  - unfold OrderBookMessageHandler. destruct i; [|done].
    destruct (n <=? mOrderBookSequence s); [done|].
    set (s1 := mkAutoTrader _ _ _ _ _ _ _ _ n _ _).
    destruct (sell_pass_keeps_entries MAXIMUM_ASK ap av s1 id Hid) as [Ha Hb].
    assert (Hs1 : structural s1) by (destruct Hs; by split).
    destruct (structural_sell MAXIMUM_ASK ap av s1 Hs1) as [_ Hn2];
      [done|simpl; lia|].
    destruct (RepriceSellOrders MAXIMUM_ASK ap av s1) as [s2 out2]. simpl in *.
    destruct (buy_pass_keeps_entries MAXIMUM_ASK bp bv s2 id) as [Hb' Ha']; [lia|].
    destruct (RepriceBuyOrders MAXIMUM_ASK bp bv s2) as [s3 out3]. simpl in *.
    by rewrite <- Hb.
  - assert (k ≠ id) by (intros ->; by apply Hname).
    destruct (status_keeps_other_entries MAXIMUM_ASK MINIMUM_BID k f r fees s id)
      as [_ Hb]; [done|]. unfold same_entry. by rewrite Hb.
  - assert (k ≠ id) by (intros ->; by apply Hname). unfold ErrorMessageHandler.
    destruct (_ && _); [|done].
    destruct (status_keeps_other_entries MAXIMUM_ASK MINIMUM_BID k 0 0 0 s id)
      as [_ Hb]; [done|]. unfold same_entry. by rewrite Hb.
Qed.

(** ** Hedges for one order *)

Lemma hedged_volume_app a b :
  hedged_volume (a ++ b) = hedged_volume a + hedged_volume b.
Proof. induction a as [|[] a IH]; simpl; lia. Qed.

Lemma sent_for_silent MAXIMUM_ASK MINIMUM_BID id es : ∀ s,
  statuses_for id es = [] → no_error_for id es →
  sent_for MAXIMUM_ASK MINIMUM_BID id es s = [].
Proof.
  induction es as [|e es IH]; intros s Hst Herr; [done|].
  apply Forall_cons in Herr as [He Herr].
  cbn [sent_for].
  assert (Hn : names e ≠ Some id ∧ statuses_for id es = []).
  { destruct e as [| k f r fees | k msg | | |]; simpl in *; try done.
    - destruct (k =? id) eqn:E; [done|]. split; [|done]. intros [=]. lia.
    - split; [|done]. intros [=]. done. }
  destruct Hn as [Hn Hst']. rewrite bool_decide_eq_false_2 by done.
  simpl. by apply IH.
Qed.

Lemma hedges_of_events MAXIMUM_ASK MINIMUM_BID id es : ∀ s o,
  reachable MAXIMUM_ASK MINIMUM_BID s →
  ids_left_along MAXIMUM_ASK MINIMUM_BID es s →
  order_of id s = Some o → 0 ≤ filledVolume o →
  no_error_for id es →
  nondecreasing_from (filledVolume o) (statuses_for id es) →
  Forall (λ st : Z * Z * Z, st.1.1 < 2 ^ 64) (statuses_for id es) →
  resting_until_last (statuses_for id es) →
  let out := sent_for MAXIMUM_ASK MINIMUM_BID id es s in
  hedged_volume out = final_fill (filledVolume o) (statuses_for id es) - filledVolume o
  ∧ Forall (λ c, ∃ hedgeId v,
              c = hedge_for MAXIMUM_ASK MINIMUM_BID (on_sell_side id s) hedgeId v
              ∧ 0 < v) out.
Proof.
  induction es as [|e es IH]; intros s o Hr Hids Ho Hf0 Herr Hmono H64 Hrest.
  { simpl. split; [lia|constructor]. }
  destruct Hids as [Hid Hids].
  apply Forall_cons in Herr as [He Herr].
  pose proof (reachable_step _ _ s e Hr Hid) as Hr1.
  assert (Hcase : (∃ f r fees, e = OrderStatusMessage id f r fees)
                  ∨ (names e ≠ Some id ∧ statuses_for id (e :: es) = statuses_for id es)).
  { destruct e as [| k f r fees | k msg | | |]; simpl in *; try (right; done).
    - destruct (k =? id) eqn:E.
      + left. exists f, r, fees. f_equal. lia.
      + right. split; [|done]. intros [=]. lia.
    - right. split; [|done]. intros [=]. done. }
  destruct Hcase as [(f & r & fees & ->)|[Hn Hst]].
  - cbn [statuses_for] in *. rewrite Z.eqb_refl in *.
    simpl in Hmono, Hrest. destruct Hmono as [Hf Hmono]. destruct Hrest as [Hlast Hrest].
    apply Forall_cons in H64 as [Hf64 H64]. simpl in Hf64.
    destruct (status_hedge MAXIMUM_ASK MINIMUM_BID id f r fees s o Ho) as [Hout Hnext];
      [lia|done|].
    cbn [sent_for names handle]. rewrite bool_decide_eq_true_2 by done.
    cbn [handle] in Hr1, Hids.
    destruct (OrderStatusMessageHandler MAXIMUM_ASK MINIMUM_BID id f r fees s)
      as [s1 out1] eqn:E1. simpl in Hout, Hnext, Hr1, Hids |- *.
    assert (Hhead : hedged_volume out1 = f - filledVolume o
                    ∧ Forall (λ c, ∃ hedgeId v,
                        c = hedge_for MAXIMUM_ASK MINIMUM_BID (on_sell_side id s) hedgeId v
                        ∧ 0 < v) out1).
    { rewrite Hout. destruct (0 <? f - filledVolume o) eqn:Ed; simpl.
      - split; [lia|]. apply Forall_cons. split; [|constructor].
        exists (mNextMessageId s), (f - filledVolume o). split; [done|lia].
      - split; [lia|constructor]. }
    destruct Hhead as [Hv1 Hf1].
    destruct (decide (0 < r)) as [Hrpos|Hr0].
    + destruct (Hnext Hrpos) as [Ho1 Hside].
      destruct (IH s1 _ Hr1 Hids Ho1) as [IHv IHf]; simpl; try done; [lia|].
      rewrite Hside in IHf. simpl in IHv.
      split.
      * rewrite hedged_volume_app. lia.
      * apply Forall_app. by split.
    + destruct Hlast as [Hnil|?]; [|lia]. rewrite Hnil in *.
      rewrite (sent_for_silent _ _ id es s1 Hnil Herr), app_nil_r. simpl.
      split; [lia|done].
  - rewrite Hst in *.
    destruct (other_event_keeps_order MAXIMUM_ASK MINIMUM_BID e id o s Hr Hid Ho Hn)
      as (o' & Ho' & _ & _ & Hfill & Hside).
    cbn [sent_for]. rewrite bool_decide_eq_false_2 by done. simpl.
    rewrite <- Hfill in *.
    destruct (IH _ o' Hr1 Hids Ho') as [IHv IHf]; try done.
    rewrite Hside in IHf. by split.
Qed.

Lemma hedge_for_explicit MAXIMUM_ASK MINIMUM_BID id s hedgeId v :
  hedge_for MAXIMUM_ASK MINIMUM_BID (on_sell_side id s) hedgeId v
  = HedgeOrder hedgeId
      (match mAsks s !! id with Some _ => BUY | None => SELL end)
      (match mAsks s !! id with
       | Some _ => MAXIMUM_ASK ÷ 100 * 100
       | None => (MINIMUM_BID + 100) ÷ 100 * 100
       end)
      v.
Proof.
  unfold hedge_for, on_sell_side. destruct (mAsks s !! id) as [x|] eqn:E.
  - by rewrite bool_decide_eq_true_2 by eauto.
  - rewrite bool_decide_eq_false_2; [done|]. by intros [? ?].
Qed.

(** C2: take a tracked order and any delivery in which the statuses that
    name it report fills that never go down (each but the last leaving
    volume resting, so that the order is still tracked), with any other
    events in between: order books, statuses and errors of other orders.
    The volumes of the hedge orders sent for the order add up to the last
    fill reported minus what the order had filled before, which for an
    order as inserted is its final fill.  Every command sent for the order
    is a hedge on the opposite side at the extreme tick: a buy at
    [MAXIMUM_ASK / 100 * 100] for a sell order, a sell at
    [(MINIMUM_BID + 100) / 100 * 100] for a buy order.  One status sends
    exactly one hedge, for exactly its increase in fill, or nothing when
    the fill did not increase. *)
Theorem hedges_cover_fills MAXIMUM_ASK MINIMUM_BID id es s o :
  reachable MAXIMUM_ASK MINIMUM_BID s →
  ids_left_along MAXIMUM_ASK MINIMUM_BID es s →
  order_of id s = Some o → 0 ≤ filledVolume o →
  no_error_for id es →
  let sts := statuses_for id es in
  nondecreasing_from (filledVolume o) sts →
  Forall (λ st : Z * Z * Z, st.1.1 < 2 ^ 64) sts →
  resting_until_last sts →
  let out := sent_for MAXIMUM_ASK MINIMUM_BID id es s in
  let side := match mAsks s !! id with Some _ => BUY | None => SELL end in
  let tick := match mAsks s !! id with
              | Some _ => MAXIMUM_ASK ÷ 100 * 100
              | None => (MINIMUM_BID + 100) ÷ 100 * 100
              end in
  hedged_volume out = final_fill (filledVolume o) sts - filledVolume o
  ∧ (filledVolume o = 0 → hedged_volume out = final_fill 0 sts)
  ∧ Forall (λ c, ∃ hedgeId v, c = HedgeOrder hedgeId side tick v ∧ 0 < v) out
  ∧ ∀ f r fees, filledVolume o ≤ f < 2 ^ 64 →
      (OrderStatusMessageHandler MAXIMUM_ASK MINIMUM_BID id f r fees s).2
      = if 0 <? f - filledVolume o
        then [HedgeOrder (mNextMessageId s) side tick (f - filledVolume o)]
        else [].
Proof.
  intros Hr Hids Ho Hf0 Herr sts Hmono H64 Hrest out side tick.
  destruct (hedges_of_events MAXIMUM_ASK MINIMUM_BID id es s o
              Hr Hids Ho Hf0 Herr Hmono H64 Hrest) as [Hsum Hall].
  fold sts out in Hsum. fold out in Hall.
  split; [done|]. split; [intros Hz; rewrite Hsum, Hz; lia|].
  split.
  - eapply Forall_impl; [exact Hall|]. intros c (hedgeId & v & -> & Hv).
    exists hedgeId, v. split; [apply hedge_for_explicit|done].
  - intros f r fees [Hf Hf64].
    destruct (status_hedge MAXIMUM_ASK MINIMUM_BID id f r fees s o Ho) as [Hout _];
      [lia|done|].
    simpl in Hout. rewrite Hout. by rewrite hedge_for_explicit.
Qed.

(** Sell order 1 fills in three steps with other events in between: three
    buy hedges at the top tick for 4, 6 and 10 lots, 20 lots in all.  A
    fill of buy order 2 is hedged by a sell at the bottom tick. *)
Lemma hedges_cover_fills_witness :
  sent_for demo_MAXIMUM_ASK demo_MINIMUM_BID 1 fills_of_order1 after_book1
  = [HedgeOrder 3 BUY 2147483600 4; HedgeOrder 5 BUY 2147483600 6;
     HedgeOrder 7 BUY 2147483600 10]
  ∧ hedged_volume (sent_for demo_MAXIMUM_ASK demo_MINIMUM_BID 1 fills_of_order1 after_book1)
    = 20
  ∧ (OrderStatusMessageHandler demo_MAXIMUM_ASK demo_MINIMUM_BID 2 5 15 0 after_book1).2
    = [HedgeOrder 3 SELL 100 5].
Proof.
  split; [vm_compute; reflexivity|]. split.
  - refine (proj1 (proj2 (hedges_cover_fills demo_MAXIMUM_ASK demo_MINIMUM_BID 1
                            fills_of_order1 after_book1 (mkOrder 10000 20 0 false)
                            reachable_after_book1 _ _ _ _ _ _ _)) _).
    + repeat (split; [unfold ids_left; vm_compute; reflexivity|]). exact I.
    + vm_compute. reflexivity.
    + simpl. lia.
    + repeat constructor.
    + simpl. lia.
    + repeat constructor.
    + simpl. repeat split; auto; right; lia.
    + reflexivity.
  - refine (proj2 (proj2 (proj2 (hedges_cover_fills demo_MAXIMUM_ASK demo_MINIMUM_BID 2
                            [] after_book1 (mkOrder 9800 20 0 false)
                            reachable_after_book1 _ _ _ _ _ _ _))) 5 15 0 _).
    + exact I.
    + vm_compute. reflexivity.
    + simpl. lia.
    + constructor.
    + exact I.
    + constructor.
    + exact I.
    + simpl. lia.
Defined.

(** * Further properties of the handlers *)

(** ** The margin arithmetic *)

(** [MultiplyBasis] scales [n] by [(10000 + basis) / 10000] and rounds the
    result down to a multiple of 100, whatever its [ceil] argument says, as
    long as the product fits an [unsigned long]. *)
Theorem MultiplyBasis_rounds_down n basis ceil :
  0 ≤ n → 0 ≤ 10000 + basis < 2 ^ 64 → n * (10000 + basis) < 2 ^ 64 →
  MultiplyBasis n basis ceil mod TICK_SIZE_IN_CENTS = 0
  ∧ 10000 * MultiplyBasis n basis ceil ≤ n * (10000 + basis)
  ∧ n * (10000 + basis) < 10000 * (MultiplyBasis n basis ceil + TICK_SIZE_IN_CENTS)
  ∧ MultiplyBasis n basis ceil = MultiplyBasis n basis (negb ceil).
Proof.
  intros Hn Hb Hfit. unfold MultiplyBasis, TICK_SIZE_IN_CENTS.
  rewrite (to_ulong_small (10000 + basis)) by lia.
  rewrite (to_ulong_small (n * (10000 + basis))) by nia.
  set (p := n * (10000 + basis)) in *.
  assert (Hp : 0 ≤ p) by (unfold p; nia).
  assert (Hq : 0 ≤ p / 1000000 ≤ p).
  { split; [apply Z.div_pos; lia|]. apply Z.div_le_upper_bound; lia. }
  pose proof (Z.div_mod p 1000000 ltac:(lia)) as Hdm.
  pose proof (Z.mod_pos_bound p 1000000 ltac:(lia)) as Hm.
  rewrite to_ulong_small by lia.
  repeat split; try lia.
  rewrite Z.mul_comm. apply Z.mod_mul. lia.
Qed.

Lemma MultiplyBasis_rounds_down_witness :
  10000 * MultiplyBasis 10050 7 true ≤ 10050 * (10000 + 7)
  ∧ 10050 * (10000 + 7) < 10000 * (MultiplyBasis 10050 7 true + TICK_SIZE_IN_CENTS).
Proof.
  refine ((λ H, conj (proj1 (proj2 H)) (proj1 (proj2 (proj2 H))))
            (MultiplyBasis_rounds_down 10050 7 true _ _ _)); lia.
Defined.

(** For a price that is a whole number of ticks, up to 142800, the margin of
    [MARGIN_BASIS] basis points does not move the ask at all and moves the
    bid down by exactly one tick. *)
Theorem margin_on_tick_prices k ceil :
  0 ≤ k ≤ 1428 →
  MultiplyBasis (TICK_SIZE_IN_CENTS * k) MARGIN_BASIS ceil = TICK_SIZE_IN_CENTS * k
  ∧ (1 ≤ k →
     MultiplyBasis (TICK_SIZE_IN_CENTS * k) (- MARGIN_BASIS) ceil
     = TICK_SIZE_IN_CENTS * k - TICK_SIZE_IN_CENTS).
Proof.
  intros Hk. unfold MultiplyBasis, TICK_SIZE_IN_CENTS, MARGIN_BASIS.
  rewrite (to_ulong_small (10000 + 7)) by lia.
  rewrite (to_ulong_small (10000 + - (7))) by lia.
  rewrite (to_ulong_small (100 * k * (10000 + 7))) by lia.
  rewrite (to_ulong_small (100 * k * (10000 + - (7)))) by lia.
  assert (H1 : 100 * k * (10000 + 7) / 1000000 = k).
  { symmetry. apply (Z.div_unique _ _ _ (700 * k)); lia. }
  rewrite H1. rewrite (to_ulong_small (100 * k)) by lia. split; [done|].
  intros Hk1.
  assert (H2 : 100 * k * (10000 + - (7)) / 1000000 = k - 1).
  { symmetry. apply (Z.div_unique _ _ _ (1000000 - 700 * k)); lia. }
  rewrite H2. rewrite to_ulong_small by lia. lia.
Qed.

Lemma margin_on_tick_prices_witness :
  MultiplyBasis (TICK_SIZE_IN_CENTS * 1000) MARGIN_BASIS true = TICK_SIZE_IN_CENTS * 1000.
Proof.
  refine (proj1 (margin_on_tick_prices 1000 true _)). lia.
Defined.

(** ** What a repricing pass leaves alone *)

Lemma sell_pass_frame MAXIMUM_ASK ap av s :
  let s' := (RepriceSellOrders MAXIMUM_ASK ap av s).1 in
  mBids s' = mBids s ∧ mETFPosition s' = mETFPosition s
  ∧ mETFOrderPositionBuy s' = mETFOrderPositionBuy s
  ∧ mETFOrderBidCount s' = mETFOrderBidCount s
  ∧ mOrderBookSequence s' = mOrderBookSequence s
  ∧ mMarketMaxBid s' = mMarketMaxBid s ∧ mMarketMinAsk s' = mMarketMinAsk s.
Proof.
  destruct (RepriceSellOrders_cases MAXIMUM_ASK ap av s)
    as (asks & out & _ & _ & [Hr|(_ & _ & Hr)]); by rewrite Hr.
Qed.

Lemma buy_pass_frame MAXIMUM_ASK bp bv s :
  let s' := (RepriceBuyOrders MAXIMUM_ASK bp bv s).1 in
  mAsks s' = mAsks s ∧ mETFPosition s' = mETFPosition s
  ∧ mETFOrderPositionSell s' = mETFOrderPositionSell s
  ∧ mETFOrderAskCount s' = mETFOrderAskCount s
  ∧ mOrderBookSequence s' = mOrderBookSequence s
  ∧ mMarketMaxBid s' = mMarketMaxBid s ∧ mMarketMinAsk s' = mMarketMinAsk s.
Proof.
  destruct (RepriceBuyOrders_cases MAXIMUM_ASK bp bv s)
    as (bids & out & _ & _ & [Hr|(_ & _ & Hr)]); by rewrite Hr.
Qed.

Lemma status_frame MAXIMUM_ASK MINIMUM_BID id f r fees s :
  let s' := (OrderStatusMessageHandler MAXIMUM_ASK MINIMUM_BID id f r fees s).1 in
  mOrderBookSequence s' = mOrderBookSequence s
  ∧ mMarketMaxBid s' = mMarketMaxBid s ∧ mMarketMinAsk s' = mMarketMinAsk s.
Proof.
  unfold OrderStatusMessageHandler.
  destruct (mAsks s !! id); [done|]. by destruct (mBids s !! id).
Qed.

(** ** Order-book sequence numbers *)

Lemma book_sequence_after MAXIMUM_ASK i n ap av bp bv s :
  mOrderBookSequence (OrderBookMessageHandler MAXIMUM_ASK i n ap av bp bv s).1
  = match i with
    | FUTURE => Z.max n (mOrderBookSequence s)
    | ETF => mOrderBookSequence s
    end.
Proof.
  unfold OrderBookMessageHandler. destruct i; [|done].
  destruct (n <=? mOrderBookSequence s) eqn:E; simpl; [lia|].
  set (s1 := mkAutoTrader _ _ _ _ _ _ _ _ n _ _).
  pose proof (sell_pass_frame MAXIMUM_ASK ap av s1) as (_ & _ & _ & _ & H1 & _).
  destruct (RepriceSellOrders MAXIMUM_ASK ap av s1) as [s2 out2].
  pose proof (buy_pass_frame MAXIMUM_ASK bp bv s2) as (_ & _ & _ & _ & H2 & _).
  destruct (RepriceBuyOrders MAXIMUM_ASK bp bv s2) as [s3 out3].
  simpl in *. lia.
Qed.

(** An order book of the future delivered a second time, right after the
    first, is dropped whole: whatever the first delivery did, the second
    changes nothing and sends nothing. *)
Theorem duplicate_future_book_ignored MAXIMUM_ASK n ap av bp bv s :
  let s1 := (OrderBookMessageHandler MAXIMUM_ASK FUTURE n ap av bp bv s).1 in
  OrderBookMessageHandler MAXIMUM_ASK FUTURE n ap av bp bv s1 = (s1, []).
Proof.
  intros s1.
  pose proof (book_sequence_after MAXIMUM_ASK FUTURE n ap av bp bv s) as Hseq.
  fold s1 in Hseq. simpl in Hseq.
  unfold OrderBookMessageHandler at 1.
  destruct (n <=? mOrderBookSequence s1) eqn:E; [done|lia].
Qed.

(** No event ever lowers [mOrderBookSequence]; only an accepted order book
    of the future raises it, to its own sequence number. *)
Theorem book_sequence_never_decreases MAXIMUM_ASK MINIMUM_BID e s :
  let s' := (handle MAXIMUM_ASK MINIMUM_BID e s).1 in
  mOrderBookSequence s ≤ mOrderBookSequence s'
  ∧ (mOrderBookSequence s < mOrderBookSequence s' →
     ∃ n ap av bp bv, e = OrderBookMessage FUTURE n ap av bp bv
                      ∧ mOrderBookSequence s' = n).
Proof.
  destruct e as [i n ap av bp bv|id f r fees|id msg| | |]; simpl;
    try (split; [lia|intros; lia]).
  - rewrite book_sequence_after. destruct i; [|split; [lia|intros; lia]].
    split; [lia|]. intros Hlt. exists n, ap, av, bp, bv. split; [done|lia].
  - destruct (status_frame MAXIMUM_ASK MINIMUM_BID id f r fees s) as [H _].
    rewrite H. split; [lia|intros; lia].
  - unfold ErrorMessageHandler.
    destruct (_ && _); [|simpl; split; [lia|intros; lia]].
    destruct (status_frame MAXIMUM_ASK MINIMUM_BID id 0 0 0 s) as [H _].
    rewrite H. split; [lia|intros; lia].
Qed.

(** ** Order ids *)

Lemma new_ids_app a b : new_ids (a ++ b) = new_ids a ++ new_ids b.
Proof. apply omap_app. Qed.

Lemma new_ids_cancels out : Forall is_cancel out → new_ids out = [].
Proof.
  induction 1 as [|c out Hc _ IH]; [done|]. destruct c; try done; exact IH.
Qed.

Lemma seqZ_one n : seqZ n 1 = [n].
Proof. rewrite seqZ_cons by lia. by rewrite seqZ_nil by lia. Qed.

Lemma sell_pass_ids MAXIMUM_ASK ap av s :
  0 ≤ mNextMessageId s → mNextMessageId s + 1 < 2 ^ 64 →
  let r := RepriceSellOrders MAXIMUM_ASK ap av s in
  new_ids r.2 = seqZ (mNextMessageId s) (mNextMessageId r.1 - mNextMessageId s)
  ∧ mNextMessageId s ≤ mNextMessageId r.1 ≤ mNextMessageId s + 1.
Proof.
  intros H0 Hn.
  destruct (RepriceSellOrders_cases MAXIMUM_ASK ap av s)
    as (asks & out & _ & Hc & [Hr|(_ & _ & Hr)]); rewrite Hr; simpl.
  - rewrite new_ids_cancels by done. rewrite seqZ_nil by lia. split; [done|lia].
  - rewrite (to_ulong_small (mNextMessageId s + 1)) by lia.
    rewrite new_ids_app, new_ids_cancels by done. simpl.
    replace (mNextMessageId s + 1 - mNextMessageId s) with 1 by lia.
    rewrite seqZ_one. split; [done|lia].
Qed.

Lemma buy_pass_ids MAXIMUM_ASK bp bv s :
  0 ≤ mNextMessageId s → mNextMessageId s + 1 < 2 ^ 64 →
  let r := RepriceBuyOrders MAXIMUM_ASK bp bv s in
  new_ids r.2 = seqZ (mNextMessageId s) (mNextMessageId r.1 - mNextMessageId s)
  ∧ mNextMessageId s ≤ mNextMessageId r.1 ≤ mNextMessageId s + 1.
Proof.
  intros H0 Hn.
  destruct (RepriceBuyOrders_cases MAXIMUM_ASK bp bv s)
    as (bids & out & _ & Hc & [Hr|(_ & _ & Hr)]); rewrite Hr; simpl.
  - rewrite new_ids_cancels by done. rewrite seqZ_nil by lia. split; [done|lia].
  - rewrite (to_ulong_small (mNextMessageId s + 1)) by lia.
    rewrite new_ids_app, new_ids_cancels by done. simpl.
    replace (mNextMessageId s + 1 - mNextMessageId s) with 1 by lia.
    rewrite seqZ_one. split; [done|lia].
Qed.

Lemma status_ids MAXIMUM_ASK MINIMUM_BID id f r fees s :
  0 ≤ mNextMessageId s → mNextMessageId s + 1 < 2 ^ 64 →
  let res := OrderStatusMessageHandler MAXIMUM_ASK MINIMUM_BID id f r fees s in
  new_ids res.2 = seqZ (mNextMessageId s) (mNextMessageId res.1 - mNextMessageId s)
  ∧ mNextMessageId s ≤ mNextMessageId res.1 ≤ mNextMessageId s + 1.
Proof.
  intros H0 Hn. unfold OrderStatusMessageHandler.
  assert (Hz : seqZ (mNextMessageId s) (mNextMessageId s - mNextMessageId s) = [])
    by (apply seqZ_nil; lia).
  assert (Ho : seqZ (mNextMessageId s) (mNextMessageId s + 1 - mNextMessageId s)
               = [mNextMessageId s]).
  { replace (mNextMessageId s + 1 - mNextMessageId s) with 1 by lia. apply seqZ_one. }
  destruct (mAsks s !! id) as [o|]; [|destruct (mBids s !! id) as [o|]];
    [| |simpl; split; [done|lia]];
    unfold status_update; simpl;
    rewrite (to_ulong_small (mNextMessageId s + 1)) by lia;
    destruct (0 <? to_ulong (f - filledVolume o)); simpl; (split; [done|lia]).
Qed.

Lemma handle_ids MAXIMUM_ASK MINIMUM_BID e s :
  0 ≤ mNextMessageId s → ids_left s →
  let res := handle MAXIMUM_ASK MINIMUM_BID e s in
  new_ids res.2 = seqZ (mNextMessageId s) (mNextMessageId res.1 - mNextMessageId s)
  ∧ mNextMessageId s ≤ mNextMessageId res.1 ≤ mNextMessageId s + 2.
Proof.
  intros H0 Hn. unfold ids_left in Hn.
  assert (Hz : seqZ (mNextMessageId s) (mNextMessageId s - mNextMessageId s) = [])
    by (apply seqZ_nil; lia).
  destruct e as [i n ap av bp bv|id f r fees|id msg| | |]; simpl;
    try (split; [done|lia]).
  - unfold OrderBookMessageHandler. destruct i; [|simpl; split; [done|lia]].
    destruct (n <=? mOrderBookSequence s); [simpl; split; [done|lia]|].
    set (s1 := mkAutoTrader _ _ _ _ _ _ _ _ n _ _).
    destruct (sell_pass_ids MAXIMUM_ASK ap av s1) as [Hi2 Hn2]; [done|simpl; lia|].
    destruct (RepriceSellOrders MAXIMUM_ASK ap av s1) as [s2 out2]. simpl in *.
    destruct (buy_pass_ids MAXIMUM_ASK bp bv s2) as [Hi3 Hn3]; [lia|lia|].
    destruct (RepriceBuyOrders MAXIMUM_ASK bp bv s2) as [s3 out3]. simpl in *.
    rewrite new_ids_app, Hi2, Hi3. split; [|lia].
    replace (mNextMessageId s3 - mNextMessageId s)
      with ((mNextMessageId s2 - mNextMessageId s) + (mNextMessageId s3 - mNextMessageId s2))
      by lia.
    rewrite seqZ_app by lia. do 2 f_equal. lia.
  - destruct (status_ids MAXIMUM_ASK MINIMUM_BID id f r fees s) as [H1 H2];
      [done|lia|]. split; [done|lia].
  - unfold ErrorMessageHandler. destruct (_ && _); [|simpl; split; [done|lia]].
    destruct (status_ids MAXIMUM_ASK MINIMUM_BID id 0 0 0 s) as [H1 H2];
      [done|lia|]. split; [done|lia].
Qed.

(** The ids handed out along a session are consecutive: the inserts and
    hedges that a run of events sends carry, in sending order, exactly the
    ids from the counter's value before the run up to its value after it,
    so no id is used twice and, for a counter that starts at 1 or above,
    none is zero. *)
Theorem outbound_ids_consecutive MAXIMUM_ASK MINIMUM_BID es s :
  1 ≤ mNextMessageId s → ids_left_along MAXIMUM_ASK MINIMUM_BID es s →
  let res := run MAXIMUM_ASK MINIMUM_BID es s in
  new_ids res.2 = seqZ (mNextMessageId s) (mNextMessageId res.1 - mNextMessageId s)
  ∧ mNextMessageId s ≤ mNextMessageId res.1
  ∧ NoDup (new_ids res.2)
  ∧ Forall (λ id, id ≠ 0) (new_ids res.2).
Proof.
  intros H1 Hids.
  assert (Hmain : new_ids (run MAXIMUM_ASK MINIMUM_BID es s).2
                  = seqZ (mNextMessageId s)
                      (mNextMessageId (run MAXIMUM_ASK MINIMUM_BID es s).1
                       - mNextMessageId s)
                  ∧ mNextMessageId s ≤ mNextMessageId (run MAXIMUM_ASK MINIMUM_BID es s).1).
  { revert s H1 Hids. induction es as [|e es IH]; intros s H1 Hids; simpl.
    - rewrite seqZ_nil by lia. split; [done|lia].
    - destruct Hids as [Hl Hids].
      destruct (handle_ids MAXIMUM_ASK MINIMUM_BID e s) as [Hi Hn]; [lia|done|].
      destruct (handle MAXIMUM_ASK MINIMUM_BID e s) as [s1 out1]. simpl in *.
      destruct (IH s1) as [IHi IHn]; [lia|done|].
      destruct (run MAXIMUM_ASK MINIMUM_BID es s1) as [s2 out2]. simpl in *.
      rewrite new_ids_app, Hi, IHi. split; [|lia].
      replace (mNextMessageId s2 - mNextMessageId s)
        with ((mNextMessageId s1 - mNextMessageId s)
              + (mNextMessageId s2 - mNextMessageId s1)) by lia.
      rewrite seqZ_app by lia. do 2 f_equal. lia. }
  destruct Hmain as [Hi Hn]. intros res. subst res.
  split; [done|]. split; [done|]. rewrite Hi. split; [apply NoDup_seqZ|].
  apply Forall_seqZ. intros k Hk. lia.
Qed.

Lemma outbound_ids_consecutive_witness :
  new_ids (run demo_MAXIMUM_ASK demo_MINIMUM_BID [book1; fill1; book2] (start 0 0)).2
  = seqZ 1 (mNextMessageId
              (run demo_MAXIMUM_ASK demo_MINIMUM_BID [book1; fill1; book2] (start 0 0)).1
            - 1).
Proof.
  refine (proj1 (outbound_ids_consecutive demo_MAXIMUM_ASK demo_MINIMUM_BID
                   [book1; fill1; book2] (start 0 0) _ _)).
  - simpl. lia.
  - repeat split; unfold ids_left; vm_compute; reflexivity.
Defined.

(** ** Inserts of a repricing pass *)

Lemma sell_step_exists t st e :
  alreadyExists (sell_scan_step t st e) = alreadyExists st || at_target t e.
Proof.
  unfold sell_scan_step, at_target. destruct e as [k o]. simpl.
  destruct (cancelling o); simpl; [by rewrite orb_false_r|].
  destruct (price o =? t); simpl;
    repeat match goal with
           | |- context [if ?b then _ else _] => destruct b; simpl
           end;
    by rewrite ?orb_true_r, ?orb_false_r.
Qed.

Lemma buy_step_exists M t st e :
  alreadyExists (buy_scan_step M t st e) = alreadyExists st || at_target t e.
Proof.
  unfold buy_scan_step, at_target. destruct e as [k o]. simpl.
  destruct (cancelling o); simpl; [by rewrite orb_false_r|].
  destruct (price o =? t); simpl;
    repeat match goal with
           | |- context [if ?b then _ else _] => destruct b; simpl
           end;
    by rewrite ?orb_true_r, ?orb_false_r.
Qed.

Section LoopExists.

Variable step : Scan → Z * Order → Scan.
Variable hit : Z * Order → bool.
Hypothesis step_exists : ∀ st e, alreadyExists (step st e) = alreadyExists st || hit e.

Lemma loop_exists l st :
  alreadyExists (fold_left step l st) = alreadyExists st || existsb hit l.
Proof.
  revert st. induction l as [|e l IH]; intros st; simpl.
  - by rewrite orb_false_r.
  - by rewrite IH, step_exists, orb_assoc.
Qed.

End LoopExists.

Lemma sell_scan_exists t m :
  alreadyExists (sell_scan t m) = existsb (at_target t) (map_to_list m).
Proof.
  unfold sell_scan. by rewrite (loop_exists _ (at_target t) (sell_step_exists t)).
Qed.

Lemma buy_scan_exists M t m :
  alreadyExists (buy_scan M t m) = existsb (at_target t) (map_to_list m).
Proof.
  unfold buy_scan. by rewrite (loop_exists _ (at_target t) (buy_step_exists M t)).
Qed.

Lemma sell_pass_insert_detail MAXIMUM_ASK ap av s id side p v l :
  In (InsertOrder id side p v l) (RepriceSellOrders MAXIMUM_ASK ap av s).2 →
  side = SELL ∧ id = mNextMessageId s ∧ p = sell_target MAXIMUM_ASK ap s
  ∧ v = to_ulong (sell_volume s) ∧ l = GOOD_FOR_DAY
  ∧ top ap ≠ 0
  ∧ existsb (at_target (sell_target MAXIMUM_ASK ap s)) (map_to_list (mAsks s)) = false.
Proof.
  unfold RepriceSellOrders. rewrite sell_scan_exists.
  pose proof (evict_only_cancels MIN_ORDER (mETFOrderAskCount s) _
                (sell_scan_only_cancels (sell_target MAXIMUM_ASK ap s) (mAsks s))) as Hc.
  destruct (evict _ _ _) as [asks out]. simpl in Hc.
  destruct (existsb _ _) eqn:E1; simpl;
    [intros Hin; by apply only_cancels_no_insert in Hin|].
  destruct (_ <? - POSITION_LIMIT) eqn:E2; simpl;
    [intros Hin; by apply only_cancels_no_insert in Hin|].
  destruct (MAX_ORDER_DEPTH <=? _) eqn:E3; simpl;
    [intros Hin; by apply only_cancels_no_insert in Hin|].
  destruct (top ap =? 0) eqn:E4; simpl;
    [intros Hin; by apply only_cancels_no_insert in Hin|].
  intros Hin. apply in_app_or in Hin as [Hin|[Hin|[]]].
  - by apply only_cancels_no_insert in Hin.
  - injection Hin as <- <- <- <- <-. repeat split; try done. lia.
Qed.

Lemma buy_pass_insert_detail MAXIMUM_ASK bp bv s id side p v l :
  In (InsertOrder id side p v l) (RepriceBuyOrders MAXIMUM_ASK bp bv s).2 →
  side = BUY ∧ id = mNextMessageId s ∧ p = buy_target bp s
  ∧ v = to_ulong (buy_volume s) ∧ l = GOOD_FOR_DAY
  ∧ top bp ≠ 0
  ∧ existsb (at_target (buy_target bp s)) (map_to_list (mBids s)) = false.
Proof.
  unfold RepriceBuyOrders. rewrite buy_scan_exists.
  pose proof (evict_only_cancels (MAX_ORDER MAXIMUM_ASK) (mETFOrderBidCount s) _
                (buy_scan_only_cancels MAXIMUM_ASK (buy_target bp s) (mBids s))) as Hc.
  destruct (evict _ _ _) as [bids out]. simpl in Hc.
  destruct (existsb _ _) eqn:E1; simpl;
    [intros Hin; by apply only_cancels_no_insert in Hin|].
  destruct (POSITION_LIMIT <? _) eqn:E2; simpl;
    [intros Hin; by apply only_cancels_no_insert in Hin|].
  destruct (MAX_ORDER_DEPTH <=? _) eqn:E3; simpl;
    [intros Hin; by apply only_cancels_no_insert in Hin|].
  destruct (top bp =? 0) eqn:E4; simpl;
    [intros Hin; by apply only_cancels_no_insert in Hin|].
  intros Hin. apply in_app_or in Hin as [Hin|[Hin|[]]].
  - by apply only_cancels_no_insert in Hin.
  - injection Hin as <- <- <- <- <-. repeat split; try done. lia.
Qed.

(** Every insert an order-book update sends, traced back to the pass it
    comes from and the state that pass ran on. *)
Lemma book_insert_detail MAXIMUM_ASK i n ap av bp bv s id side p v l :
  In (InsertOrder id side p v l)
     (OrderBookMessageHandler MAXIMUM_ASK i n ap av bp bv s).2 →
  l = GOOD_FOR_DAY ∧
  match side with
  | SELL => p = sell_target MAXIMUM_ASK ap s ∧ v = to_ulong (sell_volume s)
            ∧ top ap ≠ 0
  | BUY => p = buy_target bp s ∧ v = to_ulong (buy_volume s) ∧ top bp ≠ 0
  end.
Proof.
  unfold OrderBookMessageHandler. destruct i; [|by intros []].
  destruct (n <=? mOrderBookSequence s); [by intros []|].
  set (s1 := mkAutoTrader _ _ _ _ _ _ _ _ n _ _).
  pose proof (sell_pass_insert_detail MAXIMUM_ASK ap av s1 id side p v l) as Hsell.
  pose proof (sell_pass_frame MAXIMUM_ASK ap av s1) as (_ & Hpos & _ & _ & _ & _ & Hmin).
  destruct (RepriceSellOrders MAXIMUM_ASK ap av s1) as [s2 out2].
  pose proof (buy_pass_insert_detail MAXIMUM_ASK bp bv s2 id side p v l) as Hbuy.
  destruct (RepriceBuyOrders MAXIMUM_ASK bp bv s2) as [s3 out3].
  simpl in *. intros Hin. apply in_app_or in Hin as [Hin|Hin].
  - destruct (Hsell Hin) as (-> & _ & -> & -> & -> & Htop & _). done.
  - destruct (Hbuy Hin) as (-> & _ & -> & -> & -> & Htop & _).
    split; [done|]. unfold buy_target, buy_volume. by rewrite Hpos, Hmin.
Qed.

(** No insert crosses the recorded market: while the recorded best bid and
    best ask are far enough from the ends of the [unsigned long] range for
    [+ 100] and [- 100] not to wrap, every sell insert is priced at least
    100 above the recorded best bid and every buy insert at least 100 below
    the recorded best ask. *)
Theorem inserts_respect_recorded_quotes MAXIMUM_ASK i n ap av bp bv s id side p v l :
  0 ≤ mMarketMaxBid s → mMarketMaxBid s + 100 < 2 ^ 64 →
  100 ≤ mMarketMinAsk s < 2 ^ 64 →
  In (InsertOrder id side p v l)
     (OrderBookMessageHandler MAXIMUM_ASK i n ap av bp bv s).2 →
  match side with
  | SELL => mMarketMaxBid s + 100 ≤ p
  | BUY => p ≤ mMarketMinAsk s - 100
  end.
Proof.
  intros Hb0 Hb Ha Hin.
  destruct (book_insert_detail _ _ _ _ _ _ _ _ _ _ _ _ _ Hin) as [_ Hd].
  destruct side.
  - destruct Hd as (-> & _ & Htop). unfold sell_target.
    destruct (top ap =? 0) eqn:E; [lia|].
    rewrite to_ulong_small by lia. lia.
  - destruct Hd as (-> & _ & Htop). unfold buy_target.
    destruct (top bp =? 0) eqn:E; [lia|].
    rewrite to_ulong_small by lia. lia.
Qed.

Lemma inserts_respect_recorded_quotes_witness :
  mMarketMaxBid (start 9900 10100) + 100 ≤ 10000.
Proof.
  refine (inserts_respect_recorded_quotes demo_MAXIMUM_ASK FUTURE 1
            [10000] [5] [9900] [5] (start 9900 10100) 1 SELL 10000 20 GOOD_FOR_DAY
            _ _ _ _).
  - simpl. lia.
  - simpl. lia.
  - simpl. lia.
  - vm_compute. by left.
Defined.

(** A resting order already priced at the target keeps the pass from
    inserting another: with a non-cancelling sell order at the sell target
    the sell pass sends no insert, and the same holds on the buy side. *)
Theorem existing_quote_suppresses_insert MAXIMUM_ASK prices volumes s k o :
  cancelling o = false →
  (mAsks s !! k = Some o → price o = sell_target MAXIMUM_ASK prices s →
   ∀ id side p v l,
     ¬ In (InsertOrder id side p v l) (RepriceSellOrders MAXIMUM_ASK prices volumes s).2)
  ∧ (mBids s !! k = Some o → price o = buy_target prices s →
     ∀ id side p v l,
       ¬ In (InsertOrder id side p v l) (RepriceBuyOrders MAXIMUM_ASK prices volumes s).2).
Proof.
  intros Hc. split; intros Hk Hp id side p v l Hin.
  - apply sell_pass_insert_detail in Hin as (_ & _ & _ & _ & _ & _ & Hex).
    assert (Ht : existsb (at_target (sell_target MAXIMUM_ASK prices s))
                   (map_to_list (mAsks s)) = true); [|congruence].
    apply existsb_exists. exists (k, o). split.
    + apply list_elem_of_In. by apply elem_of_map_to_list.
    + unfold at_target. simpl. rewrite Hc, Hp, Z.eqb_refl. done.
  - apply buy_pass_insert_detail in Hin as (_ & _ & _ & _ & _ & _ & Hex).
    assert (Ht : existsb (at_target (buy_target prices s))
                   (map_to_list (mBids s)) = true); [|congruence].
    apply existsb_exists. exists (k, o). split.
    + apply list_elem_of_In. by apply elem_of_map_to_list.
    + unfold at_target. simpl. rewrite Hc, Hp, Z.eqb_refl. done.
Qed.

Lemma existing_quote_suppresses_insert_witness :
  ¬ In (InsertOrder 3 SELL 10000 20 GOOD_FOR_DAY)
       (RepriceSellOrders demo_MAXIMUM_ASK [10000] [5] after_book1).2.
Proof.
  refine (proj1 (existing_quote_suppresses_insert demo_MAXIMUM_ASK [10000] [5]
                   after_book1 1 (mkOrder 10000 20 0 false) _) _ _ 3 SELL 10000 20
                GOOD_FOR_DAY).
  - reflexivity.
  - vm_compute. reflexivity.
  - vm_compute. reflexivity.
Defined.

(** ** A side without liquidity *)

(** When the top level of a side is zero, the pass for that side withdraws
    its quotes: it sends cancels only, one for every resting sell order
    priced below [MAXIMUM_ASK], respectively one for every resting buy order
    with a price above zero. *)
Theorem empty_side_withdraws_quotes MAXIMUM_ASK prices volumes s :
  top prices = 0 →
  (Forall is_cancel (RepriceSellOrders MAXIMUM_ASK prices volumes s).2
   ∧ ∀ k o, mAsks s !! k = Some o → cancelling o = false → price o < MAXIMUM_ASK →
            cancels_of k (RepriceSellOrders MAXIMUM_ASK prices volumes s).2 = 1%nat)
  ∧ (Forall is_cancel (RepriceBuyOrders MAXIMUM_ASK prices volumes s).2
     ∧ ∀ k o, mBids s !! k = Some o → cancelling o = false → 0 < price o →
              cancels_of k (RepriceBuyOrders MAXIMUM_ASK prices volumes s).2 = 1%nat).
Proof.
  intros Htop.
  assert (Hst : sell_target MAXIMUM_ASK prices s = MAXIMUM_ASK)
    by (unfold sell_target; by rewrite Htop).
  assert (Hbt : buy_target prices s = 0) by (unfold buy_target; by rewrite Htop).
  split; split.
  - apply Forall_forall. intros c Hc. destruct c as [id side p v l| |]; [|done|].
    + apply list_elem_of_In, sell_pass_insert_detail in Hc. by destruct Hc as (_&_&_&_&_&?&_).
    + exfalso. destruct (RepriceSellOrders_cases MAXIMUM_ASK prices volumes s)
        as (asks & out & _ & Hout & [Hr|(_ & _ & Hr)]); rewrite Hr in Hc; simpl in Hc.
      * rewrite Forall_forall in Hout. by apply Hout in Hc.
      * apply elem_of_app in Hc as [Hc|Hc].
        -- rewrite Forall_forall in Hout. by apply Hout in Hc.
        -- apply list_elem_of_singleton in Hc. done.
  - intros k o Hk Hc Hp. apply (sell_pass_cancels_once _ _ _ _ _ o); [done|].
    unfold crosses_ask. simpl. rewrite Hc, Hst. simpl. lia.
  - apply Forall_forall. intros c Hc. destruct c as [id side p v l| |]; [|done|].
    + apply list_elem_of_In, buy_pass_insert_detail in Hc. by destruct Hc as (_&_&_&_&_&?&_).
    + exfalso. destruct (RepriceBuyOrders_cases MAXIMUM_ASK prices volumes s)
        as (bids & out & _ & Hout & [Hr|(_ & _ & Hr)]); rewrite Hr in Hc; simpl in Hc.
      * rewrite Forall_forall in Hout. by apply Hout in Hc.
      * apply elem_of_app in Hc as [Hc|Hc].
        -- rewrite Forall_forall in Hout. by apply Hout in Hc.
        -- apply list_elem_of_singleton in Hc. done.
  - intros k o Hk Hc Hp. apply (buy_pass_cancels_once _ _ _ _ _ o); [done|].
    unfold crosses_bid. simpl. rewrite Hc, Hbt. simpl. lia.
Qed.

Lemma empty_side_withdraws_quotes_witness :
  cancels_of 1 (RepriceSellOrders demo_MAXIMUM_ASK [0] [0] after_book1).2 = 1%nat.
Proof.
  refine (proj2 (proj1 (empty_side_withdraws_quotes demo_MAXIMUM_ASK [0] [0]
                          after_book1 _)) 1 (mkOrder 10000 20 0 false) _ _ _).
  - reflexivity.
  - vm_compute. reflexivity.
  - reflexivity.
  - vm_compute. reflexivity.
Defined.

(** ** Insert volumes *)

(** In any state whose position is within the limit, every insert of an
    order-book update is good for the day and sized by the head-room
    formula, [(position + POSITION_LIMIT) / MAX_ORDER_DEPTH] for a sell and
    [(POSITION_LIMIT - position) / MAX_ORDER_DEPTH] for a buy; the volume is
    never negative and never above 40 lots, and it is zero when fewer than
    [MAX_ORDER_DEPTH] lots of head-room are left.  (Once the position has
    left the limit, as after [error_session], the formula gives more than
    40 lots.) *)
Theorem insert_volumes_bounded MAXIMUM_ASK i n ap av bp bv s id side p v l :
  - POSITION_LIMIT ≤ mETFPosition s ≤ POSITION_LIMIT →
  In (InsertOrder id side p v l)
     (OrderBookMessageHandler MAXIMUM_ASK i n ap av bp bv s).2 →
  l = GOOD_FOR_DAY ∧ 0 ≤ v ≤ 40
  ∧ v = match side with
        | SELL => (mETFPosition s + POSITION_LIMIT) ÷ MAX_ORDER_DEPTH
        | BUY => (POSITION_LIMIT - mETFPosition s) ÷ MAX_ORDER_DEPTH
        end
  ∧ (v = 0 ↔ match side with
             | SELL => mETFPosition s + POSITION_LIMIT < MAX_ORDER_DEPTH
             | BUY => POSITION_LIMIT - mETFPosition s < MAX_ORDER_DEPTH
             end).
Proof.
  intros Hp Hin.
  destruct (book_insert_detail _ _ _ _ _ _ _ _ _ _ _ _ _ Hin) as [-> Hd].
  split; [done|]. unfold POSITION_LIMIT, MAX_ORDER_DEPTH in *.
  destruct side; destruct Hd as (_ & -> & _); unfold sell_volume, buy_volume;
    unfold POSITION_LIMIT, MAX_ORDER_DEPTH.
  - rewrite Z.quot_div_nonneg by lia.
    assert (0 ≤ (mETFPosition s + 100) / 5 ≤ 40).
    { split; [apply Z.div_pos; lia|]. apply Z.div_le_upper_bound; lia. }
    rewrite to_ulong_small by lia. repeat split; try lia.
    + intros H0. apply Z.div_small_iff in H0; lia.
    + intros Hs. apply Z.div_small. lia.
  - rewrite Z.quot_div_nonneg by lia.
    assert (0 ≤ (100 - mETFPosition s) / 5 ≤ 40).
    { split; [apply Z.div_pos; lia|]. apply Z.div_le_upper_bound; lia. }
    rewrite to_ulong_small by lia. repeat split; try lia.
    + intros H0. apply Z.div_small_iff in H0; lia.
    + intros Hs. apply Z.div_small. lia.
Qed.

Lemma insert_volumes_bounded_witness :
  GOOD_FOR_DAY = GOOD_FOR_DAY ∧ 0 ≤ 19 ≤ 40
  ∧ 19 = (mETFPosition after_fill1 + POSITION_LIMIT) ÷ MAX_ORDER_DEPTH
  ∧ (19 = 0 ↔ mETFPosition after_fill1 + POSITION_LIMIT < MAX_ORDER_DEPTH).
Proof.
  apply (insert_volumes_bounded demo_MAXIMUM_ASK FUTURE 2 [10200] [5] [9900] [5]
           after_fill1 4 SELL 10200 19 GOOD_FOR_DAY).
  - vm_compute. split; discriminate.
  - vm_compute. tauto.
Defined.

(** ** Which handler sends what *)

Lemma cancels_are_quotes out : Forall is_cancel out → Forall is_quote out.
Proof. intros H. eapply Forall_impl; [exact H|]. by intros []. Qed.

Lemma sell_pass_quotes MAXIMUM_ASK ap av s :
  Forall is_quote (RepriceSellOrders MAXIMUM_ASK ap av s).2.
Proof.
  destruct (RepriceSellOrders_cases MAXIMUM_ASK ap av s)
    as (asks & out & _ & Hc & [Hr|(_ & _ & Hr)]); rewrite Hr; simpl.
  - by apply cancels_are_quotes.
  - apply Forall_app. split; [by apply cancels_are_quotes|]. by apply Forall_cons.
Qed.

Lemma buy_pass_quotes MAXIMUM_ASK bp bv s :
  Forall is_quote (RepriceBuyOrders MAXIMUM_ASK bp bv s).2.
Proof.
  destruct (RepriceBuyOrders_cases MAXIMUM_ASK bp bv s)
    as (bids & out & _ & Hc & [Hr|(_ & _ & Hr)]); rewrite Hr; simpl.
  - by apply cancels_are_quotes.
  - apply Forall_app. split; [by apply cancels_are_quotes|]. by apply Forall_cons.
Qed.

Lemma book_quotes MAXIMUM_ASK i n ap av bp bv s :
  Forall is_quote (OrderBookMessageHandler MAXIMUM_ASK i n ap av bp bv s).2.
Proof.
  unfold OrderBookMessageHandler. destruct i; [|constructor].
  destruct (n <=? mOrderBookSequence s); [constructor|].
  set (s1 := mkAutoTrader _ _ _ _ _ _ _ _ n _ _).
  pose proof (sell_pass_quotes MAXIMUM_ASK ap av s1) as H2.
  destruct (RepriceSellOrders MAXIMUM_ASK ap av s1) as [s2 out2].
  pose proof (buy_pass_quotes MAXIMUM_ASK bp bv s2) as H3.
  destruct (RepriceBuyOrders MAXIMUM_ASK bp bv s2) as [s3 out3].
  simpl in *. apply Forall_app. by split.
Qed.

Lemma status_hedges MAXIMUM_ASK MINIMUM_BID id f r fees s :
  let out := (OrderStatusMessageHandler MAXIMUM_ASK MINIMUM_BID id f r fees s).2 in
  Forall is_hedge out ∧ (length out ≤ 1)%nat.
Proof.
  unfold OrderStatusMessageHandler.
  destruct (mAsks s !! id) as [o|]; [|destruct (mBids s !! id) as [o|]];
    [| |simpl; split; [constructor|lia]];
    unfold status_update; simpl; destruct (0 <? _); simpl;
    (split; [repeat constructor|lia]).
Qed.

(** The two kinds of command never mix: an order-book update sends inserts
    and cancels but no hedge; a status or an error sends at most one
    command, and that is a hedge; the three informational events send
    nothing. *)
Theorem handlers_command_kinds MAXIMUM_ASK MINIMUM_BID e s :
  let out := (handle MAXIMUM_ASK MINIMUM_BID e s).2 in
  match e with
  | OrderBookMessage _ _ _ _ _ _ => Forall is_quote out
  | OrderStatusMessage _ _ _ _ | ErrorMessage _ _ =>
      Forall is_hedge out ∧ (length out ≤ 1)%nat
  | _ => out = []
  end.
Proof.
  destruct e as [i n ap av bp bv|id f r fees|id msg| | |]; simpl; try done.
  - apply book_quotes.
  - apply status_hedges.
  - unfold ErrorMessageHandler. destruct (_ && _).
    + apply status_hedges.
    + simpl. split; [constructor|lia].
Qed.

(** ** The ledger under well-formed delivery *)

(** The two reserved volumes are what they stand for: under well-formed
    delivery [mETFOrderPositionSell] is the sum of the remaining volumes of
    the tracked sell orders and [mETFOrderPositionBuy] that of the tracked
    buy orders, cancelling ones included, and neither is negative. *)
Theorem reserved_volumes_are_sums MAXIMUM_ASK MINIMUM_BID s :
  wf_reachable MAXIMUM_ASK MINIMUM_BID s →
  mETFOrderPositionSell s = reserved (mAsks s)
  ∧ mETFOrderPositionBuy s = reserved (mBids s)
  ∧ 0 ≤ mETFOrderPositionSell s ∧ 0 ≤ mETFOrderPositionBuy s.
Proof.
  intros Hwf.
  destruct (wf_reachable_positioned _ _ _ Hwf) as [_ Hs Hb Ha Hbd _ _].
  split; [done|]. split; [done|]. rewrite Hs, Hb. split; apply reserved_nonneg.
  - intros k o Hk. by destruct (Ha k o Hk).
  - intros k o Hk. by destruct (Hbd k o Hk).
Qed.

Lemma reserved_volumes_are_sums_witness :
  mETFOrderPositionSell after_fill1 = reserved (mAsks after_fill1)
  ∧ mETFOrderPositionBuy after_fill1 = reserved (mBids after_fill1)
  ∧ 0 ≤ mETFOrderPositionSell after_fill1 ∧ 0 ≤ mETFOrderPositionBuy after_fill1.
Proof.
  exact (reserved_volumes_are_sums demo_MAXIMUM_ASK demo_MINIMUM_BID after_fill1
           wf_reachable_after_fill1).
Defined.

(** Under well-formed delivery, in which every error names an order that
    has not filled (an error is handled as the status [(0, 0)]), the
    position stays within the limit even if every tracked order of one side
    fills completely: the position less all remaining sell volume is at
    least [-POSITION_LIMIT], the position plus all remaining buy volume at
    most [POSITION_LIMIT].  After an error on a partly filled order this
    can fail, see [error_session]. *)
Theorem worst_case_position_within_limit MAXIMUM_ASK MINIMUM_BID s :
  wf_reachable MAXIMUM_ASK MINIMUM_BID s →
  - POSITION_LIMIT ≤ mETFPosition s - reserved (mAsks s)
  ∧ mETFPosition s + reserved (mBids s) ≤ POSITION_LIMIT.
Proof.
  intros Hwf.
  destruct (wf_reachable_positioned _ _ _ Hwf) as [_ Hs Hb _ _ Hshort Hlong].
  by rewrite <- Hs, <- Hb.
Qed.

Lemma worst_case_position_within_limit_witness :
  - POSITION_LIMIT ≤ mETFPosition after_fill1 - reserved (mAsks after_fill1)
  ∧ mETFPosition after_fill1 + reserved (mBids after_fill1) ≤ POSITION_LIMIT.
Proof.
  exact (worst_case_position_within_limit demo_MAXIMUM_ASK demo_MINIMUM_BID after_fill1
           wf_reachable_after_fill1).
Defined.

(** ** Tracked ids *)

(** In every reachable state a tracked id is one the counter has handed out
    (at least 1, below [mNextMessageId]) and is tracked on one side only. *)
Theorem tracked_ids_allocated_one_side MAXIMUM_ASK MINIMUM_BID s k :
  reachable MAXIMUM_ASK MINIMUM_BID s → tracked k s = true →
  1 ≤ k < mNextMessageId s
  ∧ (mAsks s !! k = None ∨ mBids s !! k = None).
Proof.
  intros Hr Ht.
  destruct (reachable_structural _ _ _ Hr) as [[_ _ _ _ Hka Hkb Hone] _].
  split; [|apply Hone]. unfold tracked in Ht.
  apply orb_true_iff in Ht as [Ht|Ht]; apply bool_decide_eq_true in Ht.
  - by apply Hka.
  - by apply Hkb.
Qed.

Lemma tracked_ids_allocated_one_side_witness :
  1 ≤ 3 < mNextMessageId after_book2
  ∧ (mAsks after_book2 !! 3 = None ∨ mBids after_book2 !! 3 = None).
Proof.
  refine (tracked_ids_allocated_one_side demo_MAXIMUM_ASK demo_MINIMUM_BID
            after_book2 3 reachable_after_book2 _).
  vm_compute. reflexivity.
Defined.

(** ** Hedging *)

Lemma future_position_app a b :
  future_position (a ++ b) = future_position a + future_position b.
Proof.
  induction a as [|c a IH]; simpl; [done|].
  destruct c as [| |id side p v]; try done. destruct side; lia.
Qed.

Lemma future_position_quotes out : Forall is_quote out → future_position out = 0.
Proof. induction 1 as [|c out Hc _ IH]; [done|]. by destruct c. Qed.

Lemma status_update_hedged MAXIMUM_ASK MINIMUM_BID (isSellOrder : bool) o id f r s :
  positioned s →
  (if isSellOrder then mAsks s else mBids s) !! id = Some o →
  0 ≤ f < 2 ^ 64 → 0 ≤ r < 2 ^ 64 →
  filledVolume o ≤ f → f + r ≤ filledVolume o + remainingVolume o →
  let res := status_update MAXIMUM_ASK MINIMUM_BID isSellOrder o id f r s in
  mETFPosition res.1 + future_position res.2 = mETFPosition s.
Proof.
  intros [Hp Hps Hpb Hva Hvb Hshort Hlong] Hid Hf Hr Hmono Hvol.
  unfold POSITION_LIMIT in *.
  assert (Ho : 0 ≤ remainingVolume o ∧ 0 ≤ filledVolume o)
    by (destruct isSellOrder; [apply (Hva id)|apply (Hvb id)]; done).
  assert (Hmem : remainingVolume o ≤ reserved (if isSellOrder then mAsks s else mBids s))
    by (destruct isSellOrder; by apply (reserved_member _ id)).
  unfold status_update. simpl.
  destruct isSellOrder; rewrite (to_ulong_small (f - filledVolume o)) by lia;
    destruct (0 <? f - filledVolume o) eqn:E; simpl; try lia.
  - rewrite to_long_neg_ulong by lia. lia.
  - rewrite to_long_small by lia. lia.
Qed.

Lemma handle_hedged MAXIMUM_ASK MINIMUM_BID e s :
  positioned s → wf_event s e →
  let res := handle MAXIMUM_ASK MINIMUM_BID e s in
  mETFPosition res.1 + future_position res.2 = mETFPosition s.
Proof.
  intros Hp Hwf.
  assert (Hstatus : ∀ id f r fees, wf_status id f r s →
            let res := OrderStatusMessageHandler MAXIMUM_ASK MINIMUM_BID id f r fees s in
            mETFPosition res.1 + future_position res.2 = mETFPosition s).
  { intros id f r fees (Hf & Hr & Ho). unfold OrderStatusMessageHandler.
    unfold order_of in Ho.
    destruct (mAsks s !! id) as [o|] eqn:Ea.
    - destruct (Ho o eq_refl). by apply status_update_hedged.
    - destruct (mBids s !! id) as [o|] eqn:Eb; [|simpl; lia].
      destruct (Ho o eq_refl). by apply status_update_hedged. }
  destruct e as [i n ap av bp bv|id f r fees|id msg| | |]; simpl; try lia.
  - rewrite (future_position_quotes _ (book_quotes MAXIMUM_ASK i n ap av bp bv s)).
    unfold OrderBookMessageHandler. destruct i; [|simpl; lia].
    destruct (n <=? mOrderBookSequence s); [simpl; lia|].
    set (s1 := mkAutoTrader _ _ _ _ _ _ _ _ n _ _).
    pose proof (sell_pass_frame MAXIMUM_ASK ap av s1) as (_ & H2 & _).
    destruct (RepriceSellOrders MAXIMUM_ASK ap av s1) as [s2 out2].
    pose proof (buy_pass_frame MAXIMUM_ASK bp bv s2) as (_ & H3 & _).
    destruct (RepriceBuyOrders MAXIMUM_ASK bp bv s2) as [s3 out3].
    simpl in *. lia.
  - by apply Hstatus.
  - unfold ErrorMessageHandler. destruct (_ && _); [|simpl; lia].
    by apply Hstatus.
Qed.

Lemma wf_along_reachable MAXIMUM_ASK MINIMUM_BID es s :
  wf_reachable MAXIMUM_ASK MINIMUM_BID s → wf_along MAXIMUM_ASK MINIMUM_BID es s →
  wf_reachable MAXIMUM_ASK MINIMUM_BID (run MAXIMUM_ASK MINIMUM_BID es s).1.
Proof.
  revert s. induction es as [|e es IH]; intros s Hwf Hal; simpl; [done|].
  destruct Hal as (Hids & He & Hal).
  pose proof (wf_reachable_step _ _ _ _ Hwf Hids He) as H1.
  destruct (handle MAXIMUM_ASK MINIMUM_BID e s) as [s1 out1]. simpl in *.
  specialize (IH s1 H1 Hal).
  by destruct (run MAXIMUM_ASK MINIMUM_BID es s1) as [s2 out2].
Qed.

(** The trader stays hedged as long as no error names a partly filled
    order: along a delivery in which every status is well-formed and every
    error names an order that has not filled (an error is handled as the
    status [(0, 0)]), the change of the ETF position and the futures
    position that the hedge orders sent add up to cancel out.  From session
    start, where the position is zero, the ETF position is at every moment
    the opposite of the hedges sent so far. *)
Theorem position_is_hedged MAXIMUM_ASK MINIMUM_BID es s :
  wf_reachable MAXIMUM_ASK MINIMUM_BID s → wf_along MAXIMUM_ASK MINIMUM_BID es s →
  let res := run MAXIMUM_ASK MINIMUM_BID es s in
  mETFPosition res.1 + future_position res.2 = mETFPosition s.
Proof.
  revert s. induction es as [|e es IH]; intros s Hwf Hal; simpl; [lia|].
  destruct Hal as (Hids & He & Hal).
  pose proof (wf_reachable_step _ _ _ _ Hwf Hids He) as H1.
  pose proof (handle_hedged MAXIMUM_ASK MINIMUM_BID e s
                (wf_reachable_positioned _ _ _ Hwf) He) as Hh.
  destruct (handle MAXIMUM_ASK MINIMUM_BID e s) as [s1 out1]. simpl in *.
  specialize (IH s1 H1 Hal).
  destruct (run MAXIMUM_ASK MINIMUM_BID es s1) as [s2 out2]. simpl in *.
  rewrite future_position_app. lia.
Qed.

Lemma position_is_hedged_witness :
  mETFPosition (run demo_MAXIMUM_ASK demo_MINIMUM_BID [book1; fill1] (start 0 0)).1
  + future_position (run demo_MAXIMUM_ASK demo_MINIMUM_BID [book1; fill1] (start 0 0)).2
  = mETFPosition (start 0 0).
Proof.
  refine (position_is_hedged demo_MAXIMUM_ASK demo_MINIMUM_BID [book1; fill1]
            (start 0 0) (wf_reachable_start _ _ 0 0) _).
  split; [unfold ids_left; vm_compute; reflexivity|]. split; [exact I|].
  split; [unfold ids_left; vm_compute; reflexivity|]. split; [|exact I].
  split; [lia|]. split; [lia|].
  intros o Ho. vm_compute in Ho. injection Ho as <-. simpl. lia.
Defined.

(** ** The eviction candidate *)

Lemma keeps_ask_not_crosses t e : keeps_ask t e = true → crosses_ask t e = false.
Proof.
  unfold keeps_ask, crosses_ask. destruct (cancelling e.2); simpl; [done|].
  intros H. apply Z.leb_le in H. apply Z.ltb_ge. lia.
Qed.

Lemma keeps_bid_not_crosses t e : keeps_bid t e = true → crosses_bid t e = false.
Proof.
  unfold keeps_bid, crosses_bid. destruct (cancelling e.2); simpl; [done|].
  intros H. apply Z.leb_le in H. apply Z.ltb_ge. lia.
Qed.

Lemma sell_fold_largest t (m : gmap Z Order) l :
  NoDup l.*1 → (∀ k o, (k, o) ∈ l → m !! k = Some o) →
  largest_of t l (fold_left (sell_scan_step t) l (scan_init m)).
Proof.
  induction l as [|[k o] l IH] using rev_ind; intros Hnd Hin.
  - simpl. split; [done|]. intros e He. by apply elem_of_nil in He.
  - rewrite fmap_app in Hnd. apply NoDup_app in Hnd as (Hnd & Hfresh & _).
    assert (Hin' : ∀ j x, (j, x) ∈ l → m !! j = Some x).
    { intros j x Hj. apply Hin. apply elem_of_app. by left. }
    specialize (IH Hnd Hin').
    rewrite fold_left_app. simpl.
    set (sc := fold_left (sell_scan_step t) l (scan_init m)) in *.
    assert (Hderef : ∀ c oc, (c, oc) ∈ l → keeps_ask t (c, oc) = true →
                             scanOrders sc !! c = Some oc).
    { intros c oc Hc Hk. unfold sc.
      rewrite (loop_lookup _ (crosses_ask t) (sell_step_orders t) _ _ c oc Hnd Hc).
      rewrite keeps_ask_not_crosses by done. simpl. by apply Hin'. }
    unfold largest_of in *. unfold sell_scan_step. simpl.
    destruct (cancelling o) eqn:Ec.
    { destruct (chosen sc) as [|c].
      - destruct IH as [Hid Hall]. split; [done|]. intros e He Hk.
        apply elem_of_app in He as [He|He]; [by apply Hall|].
        apply list_elem_of_singleton in He. subst e.
        unfold keeps_ask in Hk. simpl in Hk. by rewrite Ec in Hk.
      - destruct IH as (Hid & oc & Hc & Hkc & H0 & Hall). split; [done|].
        exists oc. split; [apply elem_of_app; by left|]. split; [done|]. split; [done|].
        intros e He Hk. apply elem_of_app in He as [He|He]; [by apply Hall|].
        apply list_elem_of_singleton in He. subst e.
        unfold keeps_ask in Hk. simpl in Hk. by rewrite Ec in Hk. }
    destruct (price o <? t) eqn:Ep; simpl.
    { destruct (chosen sc) as [|c].
      - destruct IH as [Hid Hall]. split; [done|]. intros e He Hk.
        apply elem_of_app in He as [He|He]; [by apply Hall|].
        apply list_elem_of_singleton in He. subst e.
        unfold keeps_ask in Hk. simpl in Hk. rewrite Ec in Hk. simpl in Hk. lia.
      - destruct IH as (Hid & oc & Hc & Hkc & H0 & Hall). split; [done|].
        exists oc. split; [apply elem_of_app; by left|]. split; [done|]. split; [done|].
        intros e He Hk. apply elem_of_app in He as [He|He]; [by apply Hall|].
        apply list_elem_of_singleton in He. subst e.
        unfold keeps_ask in Hk. simpl in Hk. rewrite Ec in Hk. simpl in Hk. lia. }
    assert (Hko : keeps_ask t (k, o) = true).
    { unfold keeps_ask. simpl. rewrite Ec. simpl. lia. }
    destruct (chosen sc) as [|c] eqn:Echosen; simpl.
    + destruct IH as [Hid Hall].
      destruct (0 <=? price o) eqn:E0; simpl.
      * split; [done|]. exists o. split; [apply elem_of_app; right; by left|].
        split; [done|]. split; [simpl; lia|].
        intros e He Hk. apply elem_of_app in He as [He|He].
        -- specialize (Hall e He Hk). simpl in Hall. lia.
        -- apply list_elem_of_singleton in He. subst e. simpl. lia.
      * split; [done|]. intros e He Hk.
        apply elem_of_app in He as [He|He]; [by apply Hall|].
        apply list_elem_of_singleton in He. subst e. simpl. lia.
    + destruct IH as (Hid & oc & Hc & Hkc & H0 & Hall).
      rewrite (Hderef c oc Hc Hkc). simpl.
      destruct (price oc <=? price o) eqn:E0; simpl.
      * split; [done|]. exists o. split; [apply elem_of_app; right; by left|].
        split; [done|]. split; [simpl in *; lia|].
        intros e He Hk. apply elem_of_app in He as [He|He].
        -- specialize (Hall e He Hk). lia.
        -- apply list_elem_of_singleton in He. subst e. simpl. lia.
      * split; [done|]. exists oc.
        split; [apply elem_of_app; by left|]. split; [done|]. split; [done|].
        intros e He Hk. apply elem_of_app in He as [He|He]; [by apply Hall|].
        apply list_elem_of_singleton in He. subst e. simpl. lia.
Qed.

Lemma buy_fold_smallest M t (m : gmap Z Order) l :
  NoDup l.*1 → (∀ k o, (k, o) ∈ l → m !! k = Some o) →
  smallest_of M t l (fold_left (buy_scan_step M t) l (scan_init m)).
Proof.
  induction l as [|[k o] l IH] using rev_ind; intros Hnd Hin.
  - simpl. split; [done|]. intros e He. by apply elem_of_nil in He.
  - rewrite fmap_app in Hnd. apply NoDup_app in Hnd as (Hnd & Hfresh & _).
    assert (Hin' : ∀ j x, (j, x) ∈ l → m !! j = Some x).
    { intros j x Hj. apply Hin. apply elem_of_app. by left. }
    specialize (IH Hnd Hin').
    rewrite fold_left_app. simpl.
    set (sc := fold_left (buy_scan_step M t) l (scan_init m)) in *.
    assert (Hderef : ∀ c oc, (c, oc) ∈ l → keeps_bid t (c, oc) = true →
                             scanOrders sc !! c = Some oc).
    { intros c oc Hc Hk. unfold sc.
      rewrite (loop_lookup _ (crosses_bid t) (buy_step_orders M t) _ _ c oc Hnd Hc).
      rewrite keeps_bid_not_crosses by done. simpl. by apply Hin'. }
    unfold smallest_of in *. unfold buy_scan_step. simpl.
    destruct (cancelling o) eqn:Ec.
    { destruct (chosen sc) as [|c].
      - destruct IH as [Hid Hall]. split; [done|]. intros e He Hk.
        apply elem_of_app in He as [He|He]; [by apply Hall|].
        apply list_elem_of_singleton in He. subst e.
        unfold keeps_bid in Hk. simpl in Hk. by rewrite Ec in Hk.
      - destruct IH as (Hid & oc & Hc & Hkc & H0 & Hall). split; [done|].
        exists oc. split; [apply elem_of_app; by left|]. split; [done|]. split; [done|].
        intros e He Hk. apply elem_of_app in He as [He|He]; [by apply Hall|].
        apply list_elem_of_singleton in He. subst e.
        unfold keeps_bid in Hk. simpl in Hk. by rewrite Ec in Hk. }
    destruct (t <? price o) eqn:Ep; simpl.
    { destruct (chosen sc) as [|c].
      - destruct IH as [Hid Hall]. split; [done|]. intros e He Hk.
        apply elem_of_app in He as [He|He]; [by apply Hall|].
        apply list_elem_of_singleton in He. subst e.
        unfold keeps_bid in Hk. simpl in Hk. rewrite Ec in Hk. simpl in Hk. lia.
      - destruct IH as (Hid & oc & Hc & Hkc & H0 & Hall). split; [done|].
        exists oc. split; [apply elem_of_app; by left|]. split; [done|]. split; [done|].
        intros e He Hk. apply elem_of_app in He as [He|He]; [by apply Hall|].
        apply list_elem_of_singleton in He. subst e.
        unfold keeps_bid in Hk. simpl in Hk. rewrite Ec in Hk. simpl in Hk. lia. }
    assert (Hko : keeps_bid t (k, o) = true).
    { unfold keeps_bid. simpl. rewrite Ec. simpl. lia. }
    destruct (chosen sc) as [|c] eqn:Echosen; simpl.
    + destruct IH as [Hid Hall].
      destruct (price o <=? M) eqn:E0; simpl.
      * split; [done|]. exists o. split; [apply elem_of_app; right; by left|].
        split; [done|]. split; [lia|].
        intros e He Hk. apply elem_of_app in He as [He|He].
        -- specialize (Hall e He Hk). lia.
        -- apply list_elem_of_singleton in He. subst e. simpl. lia.
      * split; [done|]. intros e He Hk.
        apply elem_of_app in He as [He|He]; [by apply Hall|].
        apply list_elem_of_singleton in He. subst e. simpl. lia.
    + destruct IH as (Hid & oc & Hc & Hkc & H0 & Hall).
      rewrite (Hderef c oc Hc Hkc). simpl.
      destruct (price o <=? price oc) eqn:E0; simpl.
      * split; [done|]. exists o. split; [apply elem_of_app; right; by left|].
        split; [done|]. split; [lia|].
        intros e He Hk. apply elem_of_app in He as [He|He].
        -- specialize (Hall e He Hk). lia.
        -- apply list_elem_of_singleton in He. subst e. simpl. lia.
      * split; [done|]. exists oc.
        split; [apply elem_of_app; by left|]. split; [done|]. split; [done|].
        intros e He Hk. apply elem_of_app in He as [He|He]; [by apply Hall|].
        apply list_elem_of_singleton in He. subst e. simpl. lia.
Qed.

Lemma sell_scan_largest t m : largest_of t (map_to_list m) (sell_scan t m).
Proof.
  apply sell_fold_largest; [apply NoDup_fst_map_to_list|].
  intros k o. apply elem_of_map_to_list.
Qed.

Lemma buy_scan_smallest M t m : smallest_of M t (map_to_list m) (buy_scan M t m).
Proof.
  apply buy_fold_smallest; [apply NoDup_fst_map_to_list|].
  intros k o. apply elem_of_map_to_list.
Qed.

(** ** Cancels of a repricing pass, order by order *)

Lemma cancels_of_insert k out id side p v l :
  cancels_of k (out ++ [InsertOrder id side p v l]) = cancels_of k out.
Proof. rewrite cancels_of_app. unfold cancels_of at 2. simpl. lia. Qed.

Lemma cancels_of_cancel k out c :
  cancels_of k (out ++ [CancelOrder c])
  = (cancels_of k out + if (c =? k)%Z then 1 else 0)%nat.
Proof.
  rewrite cancels_of_app. unfold cancels_of at 2. simpl. by destruct (c =? k).
Qed.

Lemma sell_evict_entry t count (m : gmap Z Order) k o :
  m !! k = Some o →
  let ev := evict MIN_ORDER count (sell_scan t m) in
  (cancels_of k ev.2 = 1%nat ∧ cancelling o = false
   ∧ ev.1 !! k = Some (mark_cancelling o))
  ∨ (cancels_of k ev.2 = 0%nat ∧ ev.1 !! k = Some o).
Proof.
  intros Hk.
  destruct (sell_scan_entry t m k o Hk) as [Hcan Hlook].
  pose proof (sell_scan_largest t m) as Hl. unfold largest_of in Hl.
  unfold evict.
  assert (Hplain :
    (cancels_of k (scanOut (sell_scan t m)) = 1%nat ∧ cancelling o = false
     ∧ scanOrders (sell_scan t m) !! k = Some (mark_cancelling o))
    ∨ (cancels_of k (scanOut (sell_scan t m)) = 0%nat
       ∧ scanOrders (sell_scan t m) !! k = Some o)).
  { destruct (crosses_ask t (k, o)) eqn:Ec; [left|by right].
    split; [done|]. split; [|done]. unfold crosses_ask in Ec. simpl in Ec.
    by destruct (cancelling o). }
  destruct (chosen (sell_scan t m)) as [|c] eqn:Echosen.
  - destruct Hl as [Hid _]. rewrite Hid. simpl. done.
  - destruct Hl as (Hid & oc & Hc & Hkc & _ & _). rewrite Hid.
    apply elem_of_map_to_list in Hc.
    destruct (sell_scan_entry t m c oc Hc) as [Hcanc Hlookc].
    rewrite (keeps_ask_not_crosses _ _ Hkc) in Hcanc, Hlookc.
    simpl. rewrite Hlookc. simpl.
    assert (Ecc : cancelling oc = false).
    { unfold keeps_ask in Hkc. simpl in Hkc. by destruct (cancelling oc). }
    rewrite Ecc. simpl.
    destruct (negb (c =? 0) && true && (MAX_ORDER_DEPTH - 1 <=? count)); simpl; [|done].
    rewrite cancels_of_cancel, lookup_alter.
    destruct (decide (c = k)) as [->|Hne].
    + rewrite Hk in Hc. injection Hc as <-. rewrite Z.eqb_refl.
      left. rewrite Hcanc, Hlookc. simpl. done.
    + assert (E : (c =? k) = false) by lia. rewrite E.
      destruct Hplain as [(H1 & H2 & H3)|(H1 & H3)]; [left|right];
        rewrite H1, H3; repeat split; try done; lia.
Qed.

Lemma buy_evict_entry M t count (m : gmap Z Order) k o :
  m !! k = Some o →
  let ev := evict (MAX_ORDER M) count (buy_scan M t m) in
  (cancels_of k ev.2 = 1%nat ∧ cancelling o = false
   ∧ ev.1 !! k = Some (mark_cancelling o))
  ∨ (cancels_of k ev.2 = 0%nat ∧ ev.1 !! k = Some o).
Proof.
  intros Hk.
  destruct (buy_scan_entry M t m k o Hk) as [Hcan Hlook].
  pose proof (buy_scan_smallest M t m) as Hl. unfold smallest_of in Hl.
  unfold evict.
  assert (Hplain :
    (cancels_of k (scanOut (buy_scan M t m)) = 1%nat ∧ cancelling o = false
     ∧ scanOrders (buy_scan M t m) !! k = Some (mark_cancelling o))
    ∨ (cancels_of k (scanOut (buy_scan M t m)) = 0%nat
       ∧ scanOrders (buy_scan M t m) !! k = Some o)).
  { destruct (crosses_bid t (k, o)) eqn:Ec; [left|by right].
    split; [done|]. split; [|done]. unfold crosses_bid in Ec. simpl in Ec.
    by destruct (cancelling o). }
  destruct (chosen (buy_scan M t m)) as [|c] eqn:Echosen.
  - destruct Hl as [Hid _]. rewrite Hid. simpl. done.
  - destruct Hl as (Hid & oc & Hc & Hkc & _ & _). rewrite Hid.
    apply elem_of_map_to_list in Hc.
    destruct (buy_scan_entry M t m c oc Hc) as [Hcanc Hlookc].
    rewrite (keeps_bid_not_crosses _ _ Hkc) in Hcanc, Hlookc.
    simpl. rewrite Hlookc. simpl.
    assert (Ecc : cancelling oc = false).
    { unfold keeps_bid in Hkc. simpl in Hkc. by destruct (cancelling oc). }
    rewrite Ecc. simpl.
    destruct (negb (c =? 0) && true && (MAX_ORDER_DEPTH - 1 <=? count)); simpl; [|done].
    rewrite cancels_of_cancel, lookup_alter.
    destruct (decide (c = k)) as [->|Hne].
    + rewrite Hk in Hc. injection Hc as <-. rewrite Z.eqb_refl.
      left. rewrite Hcanc, Hlookc. simpl. done.
    + assert (E : (c =? k) = false) by lia. rewrite E.
      destruct Hplain as [(H1 & H2 & H3)|(H1 & H3)]; [left|right];
        rewrite H1, H3; repeat split; try done; lia.
Qed.

Lemma sell_evict_untracked t count (m : gmap Z Order) k :
  m !! k = None → cancels_of k (evict MIN_ORDER count (sell_scan t m)).2 = 0%nat.
Proof.
  intros Hk. rewrite evict_cancels_other.
  - unfold sell_scan. rewrite (loop_out _ (crosses_ask t) (sell_step_out t)). simpl.
    apply loop_cancels_other. intros Hin. apply list_elem_of_fmap in Hin as ([j x] & -> & Hin).
    apply elem_of_map_to_list in Hin. simpl in Hk. congruence.
  - intros H0 Heq. pose proof (sell_scan_largest t m) as Hl. unfold largest_of in Hl.
    destruct (chosen (sell_scan t m)) as [|c].
    + destruct Hl as [Hid _]. congruence.
    + destruct Hl as (Hid & oc & Hc & _). apply elem_of_map_to_list in Hc.
      congruence.
Qed.

Lemma buy_evict_untracked M t count (m : gmap Z Order) k :
  m !! k = None → cancels_of k (evict (MAX_ORDER M) count (buy_scan M t m)).2 = 0%nat.
Proof.
  intros Hk. rewrite evict_cancels_other.
  - unfold buy_scan. rewrite (loop_out _ (crosses_bid t) (buy_step_out M t)). simpl.
    apply loop_cancels_other. intros Hin. apply list_elem_of_fmap in Hin as ([j x] & -> & Hin).
    apply elem_of_map_to_list in Hin. simpl in Hk. congruence.
  - intros H0 Heq. pose proof (buy_scan_smallest M t m) as Hl. unfold smallest_of in Hl.
    destruct (chosen (buy_scan M t m)) as [|c].
    + destruct Hl as [Hid _]. congruence.
    + destruct Hl as (Hid & oc & Hc & _). apply elem_of_map_to_list in Hc.
      congruence.
Qed.

Lemma sell_pass_entry MAXIMUM_ASK ap av s k o :
  mAsks s !! k = Some o → k ≠ mNextMessageId s →
  let res := RepriceSellOrders MAXIMUM_ASK ap av s in
  (cancels_of k res.2 = 1%nat ∧ cancelling o = false
   ∧ mAsks res.1 !! k = Some (mark_cancelling o))
  ∨ (cancels_of k res.2 = 0%nat ∧ mAsks res.1 !! k = Some o).
Proof.
  intros Hk Hne. unfold RepriceSellOrders.
  pose proof (sell_evict_entry (sell_target MAXIMUM_ASK ap s) (mETFOrderAskCount s)
                (mAsks s) k o Hk) as Hev.
  destruct (evict _ _ _) as [asks out]. simpl in Hev.
  destruct (_ || _); simpl; [done|].
  by rewrite cancels_of_insert, lookup_insert_ne.
Qed.

Lemma sell_pass_untracked MAXIMUM_ASK ap av s k :
  mAsks s !! k = None → cancels_of k (RepriceSellOrders MAXIMUM_ASK ap av s).2 = 0%nat.
Proof.
  intros Hk. unfold RepriceSellOrders.
  pose proof (sell_evict_untracked (sell_target MAXIMUM_ASK ap s) (mETFOrderAskCount s)
                (mAsks s) k Hk) as Hev.
  destruct (evict _ _ _) as [asks out]. simpl in Hev.
  destruct (_ || _); simpl; [done|]. by rewrite cancels_of_insert.
Qed.

Lemma buy_pass_entry MAXIMUM_ASK bp bv s k o :
  mBids s !! k = Some o → k ≠ mNextMessageId s →
  let res := RepriceBuyOrders MAXIMUM_ASK bp bv s in
  (cancels_of k res.2 = 1%nat ∧ cancelling o = false
   ∧ mBids res.1 !! k = Some (mark_cancelling o))
  ∨ (cancels_of k res.2 = 0%nat ∧ mBids res.1 !! k = Some o).
Proof.
  intros Hk Hne. unfold RepriceBuyOrders.
  pose proof (buy_evict_entry MAXIMUM_ASK (buy_target bp s) (mETFOrderBidCount s)
                (mBids s) k o Hk) as Hev.
  destruct (evict _ _ _) as [bids out]. simpl in Hev.
  destruct (_ || _); simpl; [done|].
  by rewrite cancels_of_insert, lookup_insert_ne.
Qed.

Lemma buy_pass_untracked MAXIMUM_ASK bp bv s k :
  mBids s !! k = None → cancels_of k (RepriceBuyOrders MAXIMUM_ASK bp bv s).2 = 0%nat.
Proof.
  intros Hk. unfold RepriceBuyOrders.
  pose proof (buy_evict_untracked MAXIMUM_ASK (buy_target bp s) (mETFOrderBidCount s)
                (mBids s) k Hk) as Hev.
  destruct (evict _ _ _) as [bids out]. simpl in Hev.
  destruct (_ || _); simpl; [done|]. by rewrite cancels_of_insert.
Qed.

Lemma sell_pass_keeps_untracked MAXIMUM_ASK ap av s k :
  mAsks s !! k = None → k ≠ mNextMessageId s →
  mAsks (RepriceSellOrders MAXIMUM_ASK ap av s).1 !! k = None.
Proof.
  intros Hk Hne.
  destruct (RepriceSellOrders_cases MAXIMUM_ASK ap av s)
    as (asks & out & He & _ & [Hr|(_ & _ & Hr)]); rewrite Hr; simpl.
  - by apply (erase_lookup_None (mAsks s)).
  - rewrite lookup_insert_ne by done. by apply (erase_lookup_None (mAsks s)).
Qed.

Lemma book_entry_cases MAXIMUM_ASK i n ap av bp bv s k :
  structural s → 1 ≤ mNextMessageId s → ids_left s →
  let res := OrderBookMessageHandler MAXIMUM_ASK i n ap av bp bv s in
  match order_of k s with
  | None => cancels_of k res.2 = 0%nat
  | Some o =>
      (cancels_of k res.2 = 1%nat ∧ cancelling o = false
       ∧ order_of k res.1 = Some (mark_cancelling o))
      ∨ (cancels_of k res.2 = 0%nat ∧ order_of k res.1 = Some o)
  end.
Proof.
  intros Hs Hn1 Hids.
  pose proof Hs as [_ _ _ _ Hka Hkb Hone].
  unfold ids_left in Hids. unfold OrderBookMessageHandler, order_of.
  destruct i; [|simpl; destruct (mAsks s !! k); [by right|];
                destruct (mBids s !! k); [by right|done]].
  destruct (n <=? mOrderBookSequence s);
    [simpl; destruct (mAsks s !! k); [by right|];
     destruct (mBids s !! k); [by right|done]|].
  set (s1 := mkAutoTrader _ _ _ _ _ _ _ _ n _ _).
  assert (Hs1 : structural s1) by (destruct Hs; by split).
  destruct (structural_sell MAXIMUM_ASK ap av s1 Hs1) as [_ Hn2]; [done|simpl; lia|].
  pose proof (sell_pass_frame MAXIMUM_ASK ap av s1) as (Hbids & _).
  destruct (mAsks s !! k) as [o|] eqn:Ea.
  - assert (Hk : 1 ≤ k < mNextMessageId s) by (apply Hka; by rewrite Ea).
    assert (Hb : mBids s !! k = None) by (destruct (Hone k); congruence).
    pose proof (sell_pass_entry MAXIMUM_ASK ap av s1 k o Ea) as Hsell.
    destruct (RepriceSellOrders MAXIMUM_ASK ap av s1) as [s2 out2]. simpl in *.
    pose proof (buy_pass_untracked MAXIMUM_ASK bp bv s2 k) as Hbuy.
    pose proof (buy_pass_frame MAXIMUM_ASK bp bv s2) as (Hasks & _).
    destruct (RepriceBuyOrders MAXIMUM_ASK bp bv s2) as [s3 out3]. simpl in *.
    rewrite cancels_of_app, Hbuy by (by rewrite Hbids). rewrite Hasks.
    destruct Hsell as [(H1 & H2 & H3)|(H1 & H3)]; [lia| |];
      [left|right]; rewrite H1, H3; repeat split; try done; lia.
  - pose proof (sell_pass_untracked MAXIMUM_ASK ap av s1 k Ea) as Hsell.
    destruct (mBids s !! k) as [o|] eqn:Eb.
    + assert (Hk : 1 ≤ k < mNextMessageId s) by (apply Hkb; by rewrite Eb).
      pose proof (sell_pass_keeps_untracked MAXIMUM_ASK ap av s1 k Ea) as Hnone.
      destruct (RepriceSellOrders MAXIMUM_ASK ap av s1) as [s2 out2]. simpl in *.
      pose proof (buy_pass_entry MAXIMUM_ASK bp bv s2 k o) as Hbuy.
      pose proof (buy_pass_frame MAXIMUM_ASK bp bv s2) as (Hasks & _).
      destruct (RepriceBuyOrders MAXIMUM_ASK bp bv s2) as [s3 out3]. simpl in *.
      rewrite cancels_of_app, Hsell, Hasks, Hnone by lia.
      destruct Hbuy as [(H1 & H2 & H3)|(H1 & H3)]; [by rewrite Hbids|lia| |];
        [left|right]; rewrite H1, H3; repeat split; try done; lia.
    + destruct (RepriceSellOrders MAXIMUM_ASK ap av s1) as [s2 out2]. simpl in *.
      pose proof (buy_pass_untracked MAXIMUM_ASK bp bv s2 k) as Hbuy.
      destruct (RepriceBuyOrders MAXIMUM_ASK bp bv s2) as [s3 out3]. simpl in *.
      rewrite cancels_of_app, Hsell, Hbuy by (by rewrite Hbids). done.
Qed.

(** One order-book update, seen from one order id, in a reachable state.  An
    id that is not tracked gets no cancel.  A tracked order gets at most one
    cancel, and only if it was not cancelling already; if it gets one, it
    comes out with [cancelling] true and its price and volumes unchanged; if
    it gets none, it comes out exactly as it was. *)
Theorem book_update_cancel_discipline MAXIMUM_ASK MINIMUM_BID i n ap av bp bv s k :
  reachable MAXIMUM_ASK MINIMUM_BID s → ids_left s →
  let res := OrderBookMessageHandler MAXIMUM_ASK i n ap av bp bv s in
  match order_of k s with
  | None => cancels_of k res.2 = 0%nat
  | Some o =>
      (cancels_of k res.2 = 1%nat ∧ cancelling o = false
       ∧ order_of k res.1
         = Some (mkOrder (price o) (remainingVolume o) (filledVolume o) true))
      ∨ (cancels_of k res.2 = 0%nat ∧ order_of k res.1 = Some o)
  end.
Proof.
  intros Hr Hids.
  destruct (reachable_structural _ _ _ Hr) as [Hs Hn1].
  by apply book_entry_cases.
Qed.

Lemma book_update_cancel_discipline_witness :
  cancels_of 1 (demo_handle book2 after_book1).2 = 1%nat
  ∧ order_of 1 (demo_handle book2 after_book1).1 = Some (mkOrder 10000 20 0 true)
  ∧ cancels_of 2 (demo_handle book2 after_book1).2 = 0%nat
  ∧ order_of 2 (demo_handle book2 after_book1).1 = Some (mkOrder 9800 20 0 false)
  ∧ cancels_of 7 (demo_handle book2 after_book1).2 = 0%nat.
Proof.
  pose proof (book_update_cancel_discipline demo_MAXIMUM_ASK demo_MINIMUM_BID
                FUTURE 2 [10200] [5] [9900] [5] after_book1 1
                reachable_after_book1 ids_left_after_book1) as H1.
  pose proof (book_update_cancel_discipline demo_MAXIMUM_ASK demo_MINIMUM_BID
                FUTURE 2 [10200] [5] [9900] [5] after_book1 2
                reachable_after_book1 ids_left_after_book1) as H2.
  pose proof (book_update_cancel_discipline demo_MAXIMUM_ASK demo_MINIMUM_BID
                FUTURE 2 [10200] [5] [9900] [5] after_book1 7
                reachable_after_book1 ids_left_after_book1) as H7.
  assert (E1 : order_of 1 after_book1 = Some (mkOrder 10000 20 0 false))
    by (vm_compute; reflexivity).
  assert (E2 : order_of 2 after_book1 = Some (mkOrder 9800 20 0 false))
    by (vm_compute; reflexivity).
  assert (E7 : order_of 7 after_book1 = None) by (vm_compute; reflexivity).
  set (res := OrderBookMessageHandler demo_MAXIMUM_ASK FUTURE 2 [10200] [5] [9900] [5]
                after_book1) in *.
  change (demo_handle book2 after_book1) with res.
  assert (C1 : cancels_of 1 res.2 = 1%nat) by (vm_compute; reflexivity).
  assert (C2 : cancels_of 2 res.2 = 0%nat) by (vm_compute; reflexivity).
  simpl in H1, H2, H7. rewrite E1 in H1. rewrite E2 in H2. rewrite E7 in H7.
  destruct H1 as [(_ & _ & H1)|(H1 & _)]; [|congruence].
  destruct H2 as [(H2 & _)|(_ & H2)]; [congruence|].
  split; [done|]. split; [exact H1|]. split; [done|]. split; [exact H2|exact H7].
Defined.

(** ** Depth eviction *)

Lemma sell_evict_out t count (m : gmap Z Order) :
  let sc := sell_scan t m in
  (evict MIN_ORDER count sc).2
  = if negb (chosenId sc =? 0) && (MAX_ORDER_DEPTH - 1 <=? count)
    then scanOut sc ++ [CancelOrder (chosenId sc)]
    else scanOut sc.
Proof.
  intros sc. unfold evict.
  destruct (chosenId sc =? 0) eqn:E0; simpl; [done|].
  pose proof (sell_scan_largest t m) as Hl. unfold largest_of in Hl. fold sc in Hl.
  destruct (chosen sc) as [|c] eqn:Echosen.
  - destruct Hl as [Hid _]. lia.
  - destruct Hl as (Hid & oc & Hc & Hkc & _). apply elem_of_map_to_list in Hc.
    destruct (sell_scan_entry t m c oc Hc) as [_ Hlook]. fold sc in Hlook.
    rewrite (keeps_ask_not_crosses _ _ Hkc) in Hlook. simpl. rewrite Hlook. simpl.
    unfold keeps_ask in Hkc. simpl in Hkc. destruct (cancelling oc); [done|].
    simpl. by destruct (_ <=? count).
Qed.

Lemma buy_evict_out M t count (m : gmap Z Order) :
  let sc := buy_scan M t m in
  (evict (MAX_ORDER M) count sc).2
  = if negb (chosenId sc =? 0) && (MAX_ORDER_DEPTH - 1 <=? count)
    then scanOut sc ++ [CancelOrder (chosenId sc)]
    else scanOut sc.
Proof.
  intros sc. unfold evict.
  destruct (chosenId sc =? 0) eqn:E0; simpl; [done|].
  pose proof (buy_scan_smallest M t m) as Hl. unfold smallest_of in Hl. fold sc in Hl.
  destruct (chosen sc) as [|c] eqn:Echosen.
  - destruct Hl as [Hid _]. lia.
  - destruct Hl as (Hid & oc & Hc & Hkc & _). apply elem_of_map_to_list in Hc.
    destruct (buy_scan_entry M t m c oc Hc) as [_ Hlook]. fold sc in Hlook.
    rewrite (keeps_bid_not_crosses _ _ Hkc) in Hlook. simpl. rewrite Hlook. simpl.
    unfold keeps_bid in Hkc. simpl in Hkc. destruct (cancelling oc); [done|].
    simpl. by destruct (_ <=? count).
Qed.

Lemma sell_pass_out MAXIMUM_ASK ap av s k :
  let sc := sell_scan (sell_target MAXIMUM_ASK ap s) (mAsks s) in
  cancels_of k (RepriceSellOrders MAXIMUM_ASK ap av s).2
  = (cancels_of k (scanOut sc)
     + if evicts (mETFOrderAskCount s) sc k then 1 else 0)%nat.
Proof.
  intros sc. unfold RepriceSellOrders.
  pose proof (sell_evict_out (sell_target MAXIMUM_ASK ap s) (mETFOrderAskCount s)
                (mAsks s)) as Hev. fold sc in Hev. simpl in Hev.
  destruct (evict _ _ _) as [asks out]. simpl in Hev. subst out.
  assert (Hgoal : cancels_of k
            (if negb (chosenId sc =? 0) && (MAX_ORDER_DEPTH - 1 <=? mETFOrderAskCount s)
             then scanOut sc ++ [CancelOrder (chosenId sc)] else scanOut sc)
          = (cancels_of k (scanOut sc)
             + if evicts (mETFOrderAskCount s) sc k then 1 else 0)%nat).
  { unfold evicts. destruct (negb (chosenId sc =? 0) && _); simpl; [|lia].
    by rewrite cancels_of_cancel. }
  destruct (_ || _); simpl; [done|]. by rewrite cancels_of_insert.
Qed.

Lemma buy_pass_out MAXIMUM_ASK bp bv s k :
  let sc := buy_scan MAXIMUM_ASK (buy_target bp s) (mBids s) in
  cancels_of k (RepriceBuyOrders MAXIMUM_ASK bp bv s).2
  = (cancels_of k (scanOut sc)
     + if evicts (mETFOrderBidCount s) sc k then 1 else 0)%nat.
Proof.
  intros sc. unfold RepriceBuyOrders.
  pose proof (buy_evict_out MAXIMUM_ASK (buy_target bp s) (mETFOrderBidCount s)
                (mBids s)) as Hev. fold sc in Hev. simpl in Hev.
  destruct (evict _ _ _) as [bids out]. simpl in Hev. subst out.
  assert (Hgoal : cancels_of k
            (if negb (chosenId sc =? 0) && (MAX_ORDER_DEPTH - 1 <=? mETFOrderBidCount s)
             then scanOut sc ++ [CancelOrder (chosenId sc)] else scanOut sc)
          = (cancels_of k (scanOut sc)
             + if evicts (mETFOrderBidCount s) sc k then 1 else 0)%nat).
  { unfold evicts. destruct (negb (chosenId sc =? 0) && _); simpl; [|lia].
    by rewrite cancels_of_cancel. }
  destruct (_ || _); simpl; [done|]. by rewrite cancels_of_insert.
Qed.

(** Depth eviction on the sell side.  A resting sell order at or above the
    target is cancelled by the pass only when the side already holds
    [MAX_ORDER_DEPTH - 1] orders or more, and then no other such order has
    a higher price.  Conversely, with that many orders tracked and some
    resting order at or above the target, the pass does cancel one of them,
    and it is one with the highest price. *)
Theorem sell_eviction_takes_highest MAXIMUM_ASK ap av s k o :
  mAsks s !! k = Some o → keeps_ask (sell_target MAXIMUM_ASK ap s) (k, o) = true →
  let out := (RepriceSellOrders MAXIMUM_ASK ap av s).2 in
  (cancels_of k out = 1%nat →
     MAX_ORDER_DEPTH - 1 ≤ mETFOrderAskCount s
     ∧ ∀ k' o', mAsks s !! k' = Some o' →
                keeps_ask (sell_target MAXIMUM_ASK ap s) (k', o') = true →
                price o' ≤ price o)
  ∧ (MAX_ORDER_DEPTH - 1 ≤ mETFOrderAskCount s → mAsks s !! 0 = None → 0 ≤ price o →
     ∃ k' o', mAsks s !! k' = Some o'
              ∧ keeps_ask (sell_target MAXIMUM_ASK ap s) (k', o') = true
              ∧ price o ≤ price o' ∧ cancels_of k' out = 1%nat).
Proof.
  intros Hk Hkeep out. subst out.
  set (t := sell_target MAXIMUM_ASK ap s) in *.
  pose proof (sell_scan_largest t (mAsks s)) as Hl. unfold largest_of in Hl.
  split.
  - rewrite sell_pass_out. fold t. unfold evicts.
    destruct (sell_scan_entry t (mAsks s) k o Hk) as [Hcan _].
    rewrite (keeps_ask_not_crosses _ _ Hkeep) in Hcan. rewrite Hcan.
    destruct (chosenId (sell_scan t (mAsks s)) =? 0) eqn:E0; simpl; [lia|].
    destruct (_ <=? mETFOrderAskCount s) eqn:Ed; simpl; [|lia].
    destruct (chosenId (sell_scan t (mAsks s)) =? k) eqn:Ek; [|lia].
    intros _. split; [lia|]. intros k' o' Hk' Hkeep'.
    destruct (chosen (sell_scan t (mAsks s))) as [|c].
    + destruct Hl as [Hid _]. lia.
    + destruct Hl as (Hid & oc & Hc & _ & _ & Hall).
      apply elem_of_map_to_list in Hc.
      assert (Hck : c = k) by lia. rewrite Hck, Hk in Hc. injection Hc as <-.
      apply (Hall (k', o')); [by apply elem_of_map_to_list|done].
  - intros Hdepth H0 Hp.
    destruct (chosen (sell_scan t (mAsks s))) as [|c].
    + destruct Hl as [_ Hall].
      specialize (Hall (k, o) ltac:(by apply elem_of_map_to_list) Hkeep).
      simpl in Hall. lia.
    + destruct Hl as (Hid & oc & Hc & Hkc & _ & Hall).
      pose proof (Hall (k, o) ltac:(by apply elem_of_map_to_list) Hkeep) as Hle.
      apply elem_of_map_to_list in Hc.
      exists c, oc. split; [done|]. split; [done|]. split; [done|].
      rewrite sell_pass_out. fold t. unfold evicts.
      destruct (sell_scan_entry t (mAsks s) c oc Hc) as [Hcan _].
      rewrite (keeps_ask_not_crosses _ _ Hkc) in Hcan. rewrite Hcan, Hid.
      assert (c ≠ 0) by (intros ->; congruence).
      assert (E0 : (c =? 0) = false) by lia.
      assert (Ed : (MAX_ORDER_DEPTH - 1 <=? mETFOrderAskCount s) = true) by lia.
      rewrite E0, Ed, Z.eqb_refl. done.
Qed.

(** Depth eviction on the buy side, mirrored: the order cancelled to make
    room is one with the lowest price among the resting buy orders at or
    below the target. *)
Theorem buy_eviction_takes_lowest MAXIMUM_ASK bp bv s k o :
  mBids s !! k = Some o → keeps_bid (buy_target bp s) (k, o) = true →
  let out := (RepriceBuyOrders MAXIMUM_ASK bp bv s).2 in
  (cancels_of k out = 1%nat →
     MAX_ORDER_DEPTH - 1 ≤ mETFOrderBidCount s
     ∧ ∀ k' o', mBids s !! k' = Some o' →
                keeps_bid (buy_target bp s) (k', o') = true →
                price o ≤ price o')
  ∧ (MAX_ORDER_DEPTH - 1 ≤ mETFOrderBidCount s → mBids s !! 0 = None →
     price o ≤ MAXIMUM_ASK →
     ∃ k' o', mBids s !! k' = Some o'
              ∧ keeps_bid (buy_target bp s) (k', o') = true
              ∧ price o' ≤ price o ∧ cancels_of k' out = 1%nat).
Proof.
  intros Hk Hkeep out. subst out.
  set (t := buy_target bp s) in *.
  pose proof (buy_scan_smallest MAXIMUM_ASK t (mBids s)) as Hl. unfold smallest_of in Hl.
  split.
  - rewrite buy_pass_out. fold t. unfold evicts.
    destruct (buy_scan_entry MAXIMUM_ASK t (mBids s) k o Hk) as [Hcan _].
    rewrite (keeps_bid_not_crosses _ _ Hkeep) in Hcan. rewrite Hcan.
    destruct (chosenId (buy_scan MAXIMUM_ASK t (mBids s)) =? 0) eqn:E0; simpl; [lia|].
    destruct (_ <=? mETFOrderBidCount s) eqn:Ed; simpl; [|lia].
    destruct (chosenId (buy_scan MAXIMUM_ASK t (mBids s)) =? k) eqn:Ek; [|lia].
    intros _. split; [lia|]. intros k' o' Hk' Hkeep'.
    destruct (chosen (buy_scan MAXIMUM_ASK t (mBids s))) as [|c].
    + destruct Hl as [Hid _]. lia.
    + destruct Hl as (Hid & oc & Hc & _ & _ & Hall).
      apply elem_of_map_to_list in Hc.
      assert (Hck : c = k) by lia. rewrite Hck, Hk in Hc. injection Hc as <-.
      apply (Hall (k', o')); [by apply elem_of_map_to_list|done].
  - intros Hdepth H0 Hp.
    destruct (chosen (buy_scan MAXIMUM_ASK t (mBids s))) as [|c].
    + destruct Hl as [_ Hall].
      specialize (Hall (k, o) ltac:(by apply elem_of_map_to_list) Hkeep).
      simpl in Hall. lia.
    + destruct Hl as (Hid & oc & Hc & Hkc & _ & Hall).
      pose proof (Hall (k, o) ltac:(by apply elem_of_map_to_list) Hkeep) as Hle.
      apply elem_of_map_to_list in Hc.
      exists c, oc. split; [done|]. split; [done|]. split; [done|].
      rewrite buy_pass_out. fold t. unfold evicts.
      destruct (buy_scan_entry MAXIMUM_ASK t (mBids s) c oc Hc) as [Hcan _].
      rewrite (keeps_bid_not_crosses _ _ Hkc) in Hcan. rewrite Hcan, Hid.
      assert (c ≠ 0) by (intros ->; congruence).
      assert (E0 : (c =? 0) = false) by lia.
      assert (Ed : (MAX_ORDER_DEPTH - 1 <=? mETFOrderBidCount s) = true) by lia.
      rewrite E0, Ed, Z.eqb_refl. done.
Qed.

Lemma sell_eviction_takes_highest_witness :
  ∃ k' o', mAsks deep_book !! k' = Some o'
           ∧ keeps_ask (sell_target demo_MAXIMUM_ASK [10000] deep_book) (k', o') = true
           ∧ price (mkOrder 10100 20 0 false) ≤ price o'
           ∧ cancels_of k' (RepriceSellOrders demo_MAXIMUM_ASK [10000] [5] deep_book).2
             = 1%nat.
Proof.
  refine (proj2 (sell_eviction_takes_highest demo_MAXIMUM_ASK [10000] [5] deep_book
                   7 (mkOrder 10100 20 0 false) _ _) _ _ _).
  - vm_compute. reflexivity.
  - vm_compute. reflexivity.
  - vm_compute. discriminate.
  - vm_compute. reflexivity.
  - simpl. lia.
Defined.

Lemma buy_eviction_takes_lowest_witness :
  ∃ k' o', mBids deep_book !! k' = Some o'
           ∧ keeps_bid (buy_target [10100] deep_book) (k', o') = true
           ∧ price o' ≤ price (mkOrder 9900 20 0 false)
           ∧ cancels_of k' (RepriceBuyOrders demo_MAXIMUM_ASK [10100] [5] deep_book).2
             = 1%nat.
Proof.
  refine (proj2 (buy_eviction_takes_lowest demo_MAXIMUM_ASK [10100] [5] deep_book
                   8 (mkOrder 9900 20 0 false) _ _) _ _ _).
  - vm_compute. reflexivity.
  - vm_compute. reflexivity.
  - vm_compute. discriminate.
  - vm_compute. reflexivity.
  - vm_compute. discriminate.
Defined.

(** ** The life of a tracked order *)

Lemma status_entry_cases MAXIMUM_ASK MINIMUM_BID id f r fees s k o :
  structural s → order_of k s = Some o →
  let s' := (OrderStatusMessageHandler MAXIMUM_ASK MINIMUM_BID id f r fees s).1 in
  (∃ o', order_of k s' = Some o' ∧ cancelling o' = cancelling o ∧ price o' = price o)
  ∨ (order_of k s' = None ∧ id = k ∧ r ≤ 0).
Proof.
  intros [_ _ _ _ _ _ Hone] Ho.
  destruct (decide (id = k)) as [->|Hne].
  - unfold OrderStatusMessageHandler, order_of in *.
    destruct (mAsks s !! k) as [x|] eqn:Ea.
    + injection Ho as ->. assert (Hb : mBids s !! k = None) by (destruct (Hone k); congruence).
      unfold status_update. simpl. destruct (0 <? r) eqn:Er; simpl.
      * left. rewrite lookup_insert_eq. by eexists.
      * right. rewrite lookup_delete_eq, Hb. repeat split; try done; lia.
    + rewrite Ho. unfold status_update. simpl. rewrite Ea.
      destruct (0 <? r) eqn:Er; simpl.
      * left. rewrite lookup_insert_eq. by eexists.
      * right. rewrite lookup_delete_eq. repeat split; try done; lia.
  - left. exists o.
    destruct (status_keeps_other_entries MAXIMUM_ASK MINIMUM_BID id f r fees s k Hne)
      as [Ha Hb].
    unfold order_of in *. rewrite Ha, Hb. done.
Qed.

(** A cancel is never taken back: in a reachable state an order marked
    cancelling keeps its mark and its price through every event, until a
    status reporting nothing remaining, or an error, naming that order
    removes it. *)
Theorem cancelling_order_stays_cancelling MAXIMUM_ASK MINIMUM_BID e k o s :
  reachable MAXIMUM_ASK MINIMUM_BID s → ids_left s →
  order_of k s = Some o → cancelling o = true →
  let s' := (handle MAXIMUM_ASK MINIMUM_BID e s).1 in
  (∃ o', order_of k s' = Some o' ∧ cancelling o' = true ∧ price o' = price o)
  ∨ (order_of k s' = None ∧ names e = Some k).
Proof.
  intros Hr Hids Ho Hc.
  destruct (reachable_structural _ _ _ Hr) as [Hs Hn1].
  destruct e as [i n ap av bp bv|id f r fees|id msg| | |]; simpl;
    try (left; by exists o).
  - pose proof (book_entry_cases MAXIMUM_ASK i n ap av bp bv s k Hs Hn1 Hids)
      as Hbook.
    simpl in Hbook. rewrite Ho in Hbook.
    destruct Hbook as [(_ & Hf & _)|(_ & Ho')]; [congruence|].
    left. by exists o.
  - destruct (status_entry_cases MAXIMUM_ASK MINIMUM_BID id f r fees s k o Hs Ho)
      as [(o' & Ho' & Hc' & Hp')|(Hn & -> & _)].
    + left. exists o'. split; [done|]. split; [congruence|done].
    + by right.
  - unfold ErrorMessageHandler. destruct (_ && _); [|left; by exists o].
    destruct (status_entry_cases MAXIMUM_ASK MINIMUM_BID id 0 0 0 s k o Hs Ho)
      as [(o' & Ho' & Hc' & Hp')|(Hn & -> & _)].
    + left. exists o'. split; [done|]. split; [congruence|done].
    + by right.
Qed.

Lemma cancelling_order_stays_cancelling_witness :
  (∃ o', order_of 1 (demo_handle fill1 after_book2).1 = Some o'
         ∧ cancelling o' = true ∧ price o' = price (mkOrder 10000 20 0 true))
  ∨ (order_of 1 (demo_handle fill1 after_book2).1 = None ∧ names fill1 = Some 1).
Proof.
  refine (cancelling_order_stays_cancelling demo_MAXIMUM_ASK demo_MINIMUM_BID fill1 1
            (mkOrder 10000 20 0 true) after_book2 reachable_after_book2 _ _ _).
  - unfold ids_left. vm_compute. reflexivity.
  - vm_compute. reflexivity.
  - reflexivity.
Defined.

Lemma terminal_status_effect MAXIMUM_ASK MINIMUM_BID id f fees s :
  structural s → tracked id s = true →
  let s' := (OrderStatusMessageHandler MAXIMUM_ASK MINIMUM_BID id f 0 fees s).1 in
  tracked id s' = false
  ∧ mETFOrderAskCount s' + mETFOrderBidCount s'
    = mETFOrderAskCount s + mETFOrderBidCount s - 1
  ∧ (size (mAsks s') + size (mBids s') + 1 = size (mAsks s) + size (mBids s))%nat.
Proof.
  intros [_ _ _ _ _ _ Hone] Ht. unfold tracked in *. unfold OrderStatusMessageHandler.
  destruct (mAsks s !! id) as [o|] eqn:Ea.
  - destruct (Hone id) as [H|Hb]; [congruence|].
    unfold status_update. simpl. rewrite Hb, lookup_delete_eq.
    split; [done|]. split; [lia|].
    rewrite map_size_delete_Some by (by rewrite Ea).
    assert (size (mAsks s) ≠ 0%nat)
      by (apply (map_size_ne_0_lookup_2 _ id); by rewrite Ea). lia.
  - destruct (mBids s !! id) as [o|] eqn:Eb; [|by vm_compute in Ht].
    unfold status_update. simpl. rewrite Ea, lookup_delete_eq.
    split; [done|]. split; [lia|].
    rewrite map_size_delete_Some by (by rewrite Eb).
    assert (size (mBids s) ≠ 0%nat)
      by (apply (map_size_ne_0_lookup_2 _ id); by rewrite Eb). lia.
Qed.

(** An error always frees the slot: in a reachable state an error naming a
    tracked order leaves the order untracked and takes one off the order
    counts, whether or not the order had filled.  (An error with id 0 or an
    untracked id changes nothing.) *)
Theorem error_releases_order MAXIMUM_ASK MINIMUM_BID id msg s :
  reachable MAXIMUM_ASK MINIMUM_BID s → tracked id s = true →
  let s' := (ErrorMessageHandler MAXIMUM_ASK MINIMUM_BID id msg s).1 in
  tracked id s' = false
  ∧ mETFOrderAskCount s' + mETFOrderBidCount s'
    = mETFOrderAskCount s + mETFOrderBidCount s - 1
  ∧ (size (mAsks s') + size (mBids s') + 1 = size (mAsks s) + size (mBids s))%nat.
Proof.
  intros Hr Ht. destruct (reachable_structural _ _ _ Hr) as [Hs _].
  assert (Hid : 1 ≤ id).
  { destruct Hs as [_ _ _ _ Hka Hkb _]. unfold tracked in Ht.
    apply orb_true_iff in Ht as [Ht|Ht]; apply bool_decide_eq_true in Ht.
    - by destruct (Hka id Ht).
    - by destruct (Hkb id Ht). }
  unfold ErrorMessageHandler. rewrite Ht.
  assert (E : (id =? 0) = false) by lia. rewrite E. simpl.
  by apply terminal_status_effect.
Qed.

Lemma error_releases_order_witness :
  tracked 1 (ErrorMessageHandler demo_MAXIMUM_ASK demo_MINIMUM_BID 1 "rejected"
               after_fill1).1 = false.
Proof.
  refine (proj1 (error_releases_order demo_MAXIMUM_ASK demo_MINIMUM_BID 1 "rejected"
                   after_fill1 _ _)).
  - apply reachable_step; [apply reachable_after_book1|apply ids_left_after_book1].
  - vm_compute. reflexivity.
Defined.

Lemma other_event_keeps_order_witness :
  ∃ o', order_of 1 (demo_handle book2 after_fill1).1 = Some o'
        ∧ price o' = 10000 ∧ remainingVolume o' = 16 ∧ filledVolume o' = 4
        ∧ on_sell_side 1 (demo_handle book2 after_fill1).1 = on_sell_side 1 after_fill1.
Proof.
  refine (other_event_keeps_order demo_MAXIMUM_ASK demo_MINIMUM_BID book2 1
            (mkOrder 10000 16 4 false) after_fill1 _ _ _ _).
  - apply reachable_step; [apply reachable_after_book1|apply ids_left_after_book1].
  - unfold ids_left. vm_compute. reflexivity.
  - vm_compute. reflexivity.
  - discriminate.
Defined.

(** * The one-order-per-side autotrader *)

(** ** Order-book sequence numbers *)

Lemma basic_cancel_ask_frame p s :
  Basic.mAsks (Basic.cancel_ask p s).1 = Basic.mAsks s
  ∧ Basic.mBids (Basic.cancel_ask p s).1 = Basic.mBids s
  ∧ Basic.mETFPosition (Basic.cancel_ask p s).1 = Basic.mETFPosition s
  ∧ Basic.mETFOrderPositionSell (Basic.cancel_ask p s).1 = Basic.mETFOrderPositionSell s
  ∧ Basic.mETFOrderPositionBuy (Basic.cancel_ask p s).1 = Basic.mETFOrderPositionBuy s
  ∧ Basic.mNextMessageId (Basic.cancel_ask p s).1 = Basic.mNextMessageId s
  ∧ Basic.mOrderBookSequence (Basic.cancel_ask p s).1 = Basic.mOrderBookSequence s
  ∧ Basic.mBidId (Basic.cancel_ask p s).1 = Basic.mBidId s
  ∧ Basic.mBidPrice (Basic.cancel_ask p s).1 = Basic.mBidPrice s
  ∧ Basic.mAskPrice (Basic.cancel_ask p s).1 = Basic.mAskPrice s.
Proof. unfold Basic.cancel_ask. by destruct (_ && _). Qed.

Lemma basic_cancel_bid_frame p s :
  Basic.mAsks (Basic.cancel_bid p s).1 = Basic.mAsks s
  ∧ Basic.mBids (Basic.cancel_bid p s).1 = Basic.mBids s
  ∧ Basic.mETFPosition (Basic.cancel_bid p s).1 = Basic.mETFPosition s
  ∧ Basic.mETFOrderPositionSell (Basic.cancel_bid p s).1 = Basic.mETFOrderPositionSell s
  ∧ Basic.mETFOrderPositionBuy (Basic.cancel_bid p s).1 = Basic.mETFOrderPositionBuy s
  ∧ Basic.mNextMessageId (Basic.cancel_bid p s).1 = Basic.mNextMessageId s
  ∧ Basic.mOrderBookSequence (Basic.cancel_bid p s).1 = Basic.mOrderBookSequence s
  ∧ Basic.mAskId (Basic.cancel_bid p s).1 = Basic.mAskId s
  ∧ Basic.mAskPrice (Basic.cancel_bid p s).1 = Basic.mAskPrice s
  ∧ Basic.mBidPrice (Basic.cancel_bid p s).1 = Basic.mBidPrice s.
Proof. unfold Basic.cancel_bid. by destruct (_ && _). Qed.

Lemma basic_insert_ask_frame p s :
  Basic.mBids (Basic.insert_ask p s).1 = Basic.mBids s
  ∧ Basic.mETFPosition (Basic.insert_ask p s).1 = Basic.mETFPosition s
  ∧ Basic.mETFOrderPositionBuy (Basic.insert_ask p s).1 = Basic.mETFOrderPositionBuy s
  ∧ Basic.mOrderBookSequence (Basic.insert_ask p s).1 = Basic.mOrderBookSequence s
  ∧ Basic.mBidId (Basic.insert_ask p s).1 = Basic.mBidId s
  ∧ Basic.mBidPrice (Basic.insert_ask p s).1 = Basic.mBidPrice s.
Proof. unfold Basic.insert_ask. by destruct (_ && _). Qed.

Lemma basic_insert_bid_frame p s :
  Basic.mAsks (Basic.insert_bid p s).1 = Basic.mAsks s
  ∧ Basic.mETFPosition (Basic.insert_bid p s).1 = Basic.mETFPosition s
  ∧ Basic.mETFOrderPositionSell (Basic.insert_bid p s).1 = Basic.mETFOrderPositionSell s
  ∧ Basic.mOrderBookSequence (Basic.insert_bid p s).1 = Basic.mOrderBookSequence s
  ∧ Basic.mAskId (Basic.insert_bid p s).1 = Basic.mAskId s
  ∧ Basic.mAskPrice (Basic.insert_bid p s).1 = Basic.mAskPrice s.
Proof. unfold Basic.insert_bid. by destruct (_ && _). Qed.

(** The four steps of an accepted order book of the future, named. *)
Lemma basic_book_future n ap av bp bv s :
  Basic.mOrderBookSequence s < n →
  let a := Basic.ask_quote (top ap) in
  let b := Basic.bid_quote (top bp) in
  let r1 := Basic.cancel_ask a (Basic.set_mOrderBookSequence s n) in
  let r2 := Basic.cancel_bid b r1.1 in
  let r3 := Basic.insert_ask a r2.1 in
  let r4 := Basic.insert_bid b r3.1 in
  Basic.OrderBookMessageHandler FUTURE n ap av bp bv s
  = (r4.1, r1.2 ++ r2.2 ++ r3.2 ++ r4.2).
Proof.
  intros Hn. unfold Basic.OrderBookMessageHandler.
  destruct (n <=? Basic.mOrderBookSequence s) eqn:E; [lia|].
  fold (Basic.ask_quote (top ap)). fold (Basic.bid_quote (top bp)).
  simpl.
  destruct (Basic.cancel_ask _ _) as [s1 o1]. simpl.
  destruct (Basic.cancel_bid _ _) as [s2 o2]. simpl.
  destruct (Basic.insert_ask _ _) as [s3 o3]. simpl.
  by destruct (Basic.insert_bid _ _) as [s4 o4].
Qed.

Lemma basic_book_sequence_after i n ap av bp bv s :
  Basic.mOrderBookSequence (Basic.OrderBookMessageHandler i n ap av bp bv s).1
  = Z.max n (Basic.mOrderBookSequence s).
Proof.
  destruct (Z.le_gt_cases n (Basic.mOrderBookSequence s)) as [Hle|Hlt].
  - unfold Basic.OrderBookMessageHandler.
    destruct (n <=? Basic.mOrderBookSequence s) eqn:E; [simpl; lia|lia].
  - destruct i.
    + rewrite basic_book_future by done. simpl.
      destruct (basic_insert_bid_frame (Basic.bid_quote (top bp))
        (Basic.insert_ask (Basic.ask_quote (top ap))
          (Basic.cancel_bid (Basic.bid_quote (top bp))
            (Basic.cancel_ask (Basic.ask_quote (top ap))
              (Basic.set_mOrderBookSequence s n)).1).1).1) as (_ & _ & _ & -> & _).
      destruct (basic_insert_ask_frame (Basic.ask_quote (top ap))
          (Basic.cancel_bid (Basic.bid_quote (top bp))
            (Basic.cancel_ask (Basic.ask_quote (top ap))
              (Basic.set_mOrderBookSequence s n)).1).1) as (_ & _ & _ & -> & _).
      destruct (basic_cancel_bid_frame (Basic.bid_quote (top bp))
            (Basic.cancel_ask (Basic.ask_quote (top ap))
              (Basic.set_mOrderBookSequence s n)).1) as (_ & _ & _ & _ & _ & _ & -> & _).
      destruct (basic_cancel_ask_frame (Basic.ask_quote (top ap))
              (Basic.set_mOrderBookSequence s n)) as (_ & _ & _ & _ & _ & _ & -> & _).
      simpl. lia.
    + unfold Basic.OrderBookMessageHandler.
      destruct (n <=? Basic.mOrderBookSequence s) eqn:E; [lia|]. simpl. lia.
Qed.

(** In the one-order-per-side trader the sequence guard comes before
    the instrument test, so an order book of either instrument raises
    [mOrderBookSequence]: after an order book numbered [n] has been
    delivered, an order book of either instrument with a number up to [n]
    changes nothing and sends nothing.  In particular the future's book that
    follows the ETF's book of the same number is dropped. *)
Theorem basic_book_shadows_older_books i j n n' ap av bp bv ap' av' bp' bv' s :
  n' ≤ n →
  let s1 := (Basic.OrderBookMessageHandler i n ap av bp bv s).1 in
  Basic.OrderBookMessageHandler j n' ap' av' bp' bv' s1 = (s1, []).
Proof.
  intros Hn s1.
  pose proof (basic_book_sequence_after i n ap av bp bv s) as Hseq.
  fold s1 in Hseq.
  unfold Basic.OrderBookMessageHandler at 1.
  destruct (n' <=? Basic.mOrderBookSequence s1) eqn:E; [done|lia].
Qed.

Lemma basic_book_shadows_older_books_witness :
  let s1 := (Basic.OrderBookMessageHandler ETF 7 [10000] [5] [9900] [5] Basic.start).1 in
  Basic.OrderBookMessageHandler FUTURE 7 [10000] [5] [9900] [5] s1 = (s1, []).
Proof.
  apply (basic_book_shadows_older_books ETF FUTURE 7 7). lia.
Defined.

(** ** The current quotes *)

Lemma basic_quoted_cancel_ask p s :
  Basic.quoted s → Basic.quoted (Basic.cancel_ask p s).1.
Proof.
  intros [Ha Hb]. unfold Basic.cancel_ask.
  destruct (_ && _); [|done]. split; simpl; [done|exact Hb].
Qed.

Lemma basic_quoted_cancel_bid p s :
  Basic.quoted s → Basic.quoted (Basic.cancel_bid p s).1.
Proof.
  intros [Ha Hb]. unfold Basic.cancel_bid.
  destruct (_ && _); [|done]. split; simpl; [exact Ha|done].
Qed.

Lemma basic_quoted_insert_ask p s :
  Basic.quoted s → Basic.quoted (Basic.insert_ask p s).1.
Proof.
  intros [Ha Hb]. unfold Basic.insert_ask.
  destruct (_ && _); [|done]. split; simpl; [|exact Hb].
  intros _. eexists. by rewrite lookup_insert_eq.
Qed.

Lemma basic_quoted_insert_bid p s :
  Basic.quoted s → Basic.quoted (Basic.insert_bid p s).1.
Proof.
  intros [Ha Hb]. unfold Basic.insert_bid.
  destruct (_ && _); [|done]. split; simpl; [exact Ha|].
  intros _. eexists. by rewrite lookup_insert_eq.
Qed.

Lemma basic_quoted_book i n ap av bp bv s :
  Basic.quoted s → Basic.quoted (Basic.OrderBookMessageHandler i n ap av bp bv s).1.
Proof.
  intros Hq.
  destruct (Z.le_gt_cases n (Basic.mOrderBookSequence s)) as [Hle|Hlt].
  - unfold Basic.OrderBookMessageHandler.
    by destruct (n <=? Basic.mOrderBookSequence s) eqn:E; [|lia].
  - destruct i.
    + rewrite basic_book_future by done. simpl.
      by apply basic_quoted_insert_bid, basic_quoted_insert_ask,
        basic_quoted_cancel_bid, basic_quoted_cancel_ask.
    + unfold Basic.OrderBookMessageHandler.
      by destruct (n <=? Basic.mOrderBookSequence s) eqn:E; [lia|].
Qed.

Lemma basic_quoted_status_update MAXIMUM_ASK MINIMUM_BID (isSellOrder : bool) o id f r s :
  Basic.quoted s →
  (if isSellOrder then Basic.mAsks s else Basic.mBids s) !! id = Some o →
  Basic.quoted (Basic.status_update MAXIMUM_ASK MINIMUM_BID isSellOrder o id f r s).1.
Proof.
  intros [Ha Hb] Hid. unfold Basic.status_update.
  destruct isSellOrder; simpl in Hid; destruct (0 <? r) eqn:Er; split; simpl; try done.
  - intros Hne. destruct (Ha Hne) as (x & Hx & Hp).
    destruct (decide (Basic.mAskId s = id)) as [Hk|Hk].
    + rewrite Hk in *. rewrite lookup_insert_eq. eexists. split; [done|]. simpl. congruence.
    + rewrite lookup_insert_ne by done. by exists x.
  - destruct (Basic.mAskId s =? id) eqn:E; [done|].
    intros Hne. destruct (Ha Hne) as (x & Hx & Hp).
    rewrite lookup_delete_ne by lia. by exists x.
  - destruct (Basic.mBidId s =? id) eqn:E; [done|]. exact Hb.
  - intros Hne. destruct (Hb Hne) as (x & Hx & Hp).
    destruct (decide (Basic.mBidId s = id)) as [Hk|Hk].
    + rewrite Hk in *. rewrite lookup_insert_eq. eexists. split; [done|]. simpl. congruence.
    + rewrite lookup_insert_ne by done. by exists x.
  - destruct (Basic.mAskId s =? id) eqn:E; [done|]. exact Ha.
  - destruct (Basic.mBidId s =? id) eqn:E; [done|].
    intros Hne. destruct (Hb Hne) as (x & Hx & Hp).
    rewrite lookup_delete_ne by lia. by exists x.
Qed.

Lemma basic_quoted_status MAXIMUM_ASK MINIMUM_BID id f r fees s :
  Basic.quoted s →
  Basic.quoted (Basic.OrderStatusMessageHandler MAXIMUM_ASK MINIMUM_BID id f r fees s).1.
Proof.
  intros Hq. unfold Basic.OrderStatusMessageHandler.
  destruct (Basic.mAsks s !! id) as [o|] eqn:Ea.
  - by apply (basic_quoted_status_update _ _ true).
  - destruct (Basic.mBids s !! id) as [o|] eqn:Eb; [|done].
    by apply (basic_quoted_status_update _ _ false).
Qed.

Lemma basic_quoted_handle MAXIMUM_ASK MINIMUM_BID e s :
  Basic.quoted s → Basic.quoted (Basic.handle MAXIMUM_ASK MINIMUM_BID e s).1.
Proof.
  intros Hq. destruct e; simpl; try done.
  - by apply basic_quoted_book.
  - by apply basic_quoted_status.
  - unfold Basic.ErrorMessageHandler. destruct (_ && _); [|done].
    by apply basic_quoted_status.
Qed.

(** Whatever is delivered to the one-order-per-side trader, in any
    order and with any contents, a non-zero [mAskId] names an order that is
    tracked in [mAsks] at the price [mAskPrice], and a non-zero [mBidId] an
    order tracked in [mBids] at [mBidPrice]: the quote the handler compares
    the new price with is never a forgotten order. *)
Theorem basic_current_quotes_tracked MAXIMUM_ASK MINIMUM_BID es :
  Basic.quoted (Basic.run MAXIMUM_ASK MINIMUM_BID es Basic.start).1.
Proof.
  assert (Hgen : ∀ s, Basic.quoted s →
            Basic.quoted (Basic.run MAXIMUM_ASK MINIMUM_BID es s).1).
  { induction es as [|e es IH]; intros s Hq; [done|].
    simpl.
    pose proof (basic_quoted_handle MAXIMUM_ASK MINIMUM_BID e s Hq) as H1.
    destruct (Basic.handle MAXIMUM_ASK MINIMUM_BID e s) as [s1 out1]. simpl in H1.
    specialize (IH s1 H1).
    by destruct (Basic.run MAXIMUM_ASK MINIMUM_BID es s1) as [s2 out2]. }
  apply Hgen. by split.
Qed.

(** ** The position limit *)

Lemma basic_lots_insert m k o :
  filledVolume o + remainingVolume o ≤ Basic.LOT_SIZE →
  Basic.lots_bounded m → Basic.lots_bounded (<[k := o]> m).
Proof.
  intros Ho H j x Hj. destruct (decide (k = j)) as [<-|Hne].
  - rewrite lookup_insert_eq in Hj. by injection Hj as <-.
  - rewrite lookup_insert_ne in Hj by done. by apply (H j).
Qed.

Lemma basic_lots_delete m k : Basic.lots_bounded m → Basic.lots_bounded (delete k m).
Proof.
  intros H j x Hj. rewrite lookup_delete in Hj. case_decide; [done|]. by apply (H j).
Qed.

Lemma basic_sound_start : Basic.sound Basic.start.
Proof.
  split; simpl; unfold POSITION_LIMIT; try lia; try by rewrite reserved_empty.
  all: try (intros k o Hk; by rewrite lookup_empty in Hk).
  all: intros k [o Hk]; by rewrite lookup_empty in Hk.
Qed.

Lemma basic_sound_cancel_ask p s : Basic.sound s → Basic.sound (Basic.cancel_ask p s).1.
Proof.
  intros H. unfold Basic.cancel_ask. destruct (_ && _); [|done].
  by destruct H; split.
Qed.

Lemma basic_sound_cancel_bid p s : Basic.sound s → Basic.sound (Basic.cancel_bid p s).1.
Proof.
  intros H. unfold Basic.cancel_bid. destruct (_ && _); [|done].
  by destruct H; split.
Qed.

Lemma basic_sound_insert_ask p s :
  Basic.mNextMessageId s + 1 < 2 ^ 64 →
  Basic.sound s → Basic.sound (Basic.insert_ask p s).1.
Proof.
  intros Hid H. unfold Basic.insert_ask.
  destruct (_ && _) eqn:E; [|done].
  destruct H as [Hp Hps Hpb Hva Hvb Hla Hlb Hshort Hlong Hn Hka Hkb].
  apply andb_prop in E as [_ Hroom]. apply Z.leb_le in Hroom.
  unfold POSITION_LIMIT, Basic.LOT_SIZE in *.
  rewrite to_ulong_small by lia.
  split; simpl; unfold POSITION_LIMIT, Basic.LOT_SIZE; try done; try lia.
  - rewrite reserved_insert by (by apply keys_below_fresh). simpl. lia.
  - apply volumes_nonneg_insert; simpl; [lia|lia|done].
  - apply basic_lots_insert; [simpl; unfold Basic.LOT_SIZE; lia|done].
  - by apply keys_below_insert.
  - by apply (keys_below_mono _ (Basic.mNextMessageId s)); [lia|].
Qed.

Lemma basic_sound_insert_bid p s :
  Basic.mNextMessageId s + 1 < 2 ^ 64 →
  Basic.sound s → Basic.sound (Basic.insert_bid p s).1.
Proof.
  intros Hid H. unfold Basic.insert_bid.
  destruct (_ && _) eqn:E; [|done].
  destruct H as [Hp Hps Hpb Hva Hvb Hla Hlb Hshort Hlong Hn Hka Hkb].
  apply andb_prop in E as [_ Hroom]. apply Z.leb_le in Hroom.
  unfold POSITION_LIMIT, Basic.LOT_SIZE in *.
  rewrite to_ulong_small by lia.
  split; simpl; unfold POSITION_LIMIT, Basic.LOT_SIZE; try done; try lia.
  - rewrite reserved_insert by (by apply keys_below_fresh). simpl. lia.
  - apply volumes_nonneg_insert; simpl; [lia|lia|done].
  - apply basic_lots_insert; [simpl; unfold Basic.LOT_SIZE; lia|done].
  - by apply (keys_below_mono _ (Basic.mNextMessageId s)); [lia|].
  - by apply keys_below_insert.
Qed.

Lemma basic_insert_ask_next p s :
  Basic.mNextMessageId s + 1 < 2 ^ 64 → 0 ≤ Basic.mNextMessageId s →
  Basic.mNextMessageId s ≤ Basic.mNextMessageId (Basic.insert_ask p s).1
    ≤ Basic.mNextMessageId s + 1.
Proof.
  intros H1 H0. unfold Basic.insert_ask. destruct (_ && _); simpl; [|lia].
  rewrite to_ulong_small by lia. lia.
Qed.

Lemma basic_sound_book i n ap av bp bv s :
  Basic.ids_left s → Basic.sound s →
  Basic.sound (Basic.OrderBookMessageHandler i n ap av bp bv s).1.
Proof.
  intros Hid Hs.
  destruct (Z.le_gt_cases n (Basic.mOrderBookSequence s)) as [Hle|Hlt].
  - unfold Basic.OrderBookMessageHandler.
    by destruct (n <=? Basic.mOrderBookSequence s) eqn:E; [|lia].
  - assert (Hs0 : Basic.sound (Basic.set_mOrderBookSequence s n))
      by (by destruct Hs; split).
    destruct i.
    + rewrite basic_book_future by done. simpl.
      set (a := Basic.ask_quote (top ap)). set (b := Basic.bid_quote (top bp)).
      set (s1 := (Basic.cancel_ask a (Basic.set_mOrderBookSequence s n)).1).
      set (s2 := (Basic.cancel_bid b s1).1).
      assert (Hn2 : Basic.mNextMessageId s2 = Basic.mNextMessageId s).
      { unfold s2.
        destruct (basic_cancel_bid_frame b s1) as (_ & _ & _ & _ & _ & -> & _).
        unfold s1.
        by destruct (basic_cancel_ask_frame a (Basic.set_mOrderBookSequence s n))
          as (_ & _ & _ & _ & _ & -> & _). }
      assert (Hs2 : Basic.sound s2)
        by (by apply basic_sound_cancel_bid, basic_sound_cancel_ask).
      unfold Basic.ids_left in Hid.
      pose proof (Basic.snd_next _ Hs2) as Hn.
      pose proof (basic_insert_ask_next a s2 ltac:(lia) ltac:(lia)) as Hn3.
      apply basic_sound_insert_bid; [lia|].
      apply basic_sound_insert_ask; [lia|done].
    + unfold Basic.OrderBookMessageHandler.
      by destruct (n <=? Basic.mOrderBookSequence s) eqn:E; [lia|].
Qed.

Lemma basic_sound_status_update MAXIMUM_ASK MINIMUM_BID (isSellOrder : bool) o id f r s :
  Basic.ids_left s → Basic.sound s →
  (if isSellOrder then Basic.mAsks s else Basic.mBids s) !! id = Some o →
  0 ≤ f < 2 ^ 64 → 0 ≤ r < 2 ^ 64 →
  filledVolume o ≤ f → f + r ≤ filledVolume o + remainingVolume o →
  Basic.sound (Basic.status_update MAXIMUM_ASK MINIMUM_BID isSellOrder o id f r s).1.
Proof.
  intros Hids [Hp Hps Hpb Hva Hvb Hla Hlb Hshort Hlong Hn Hka Hkb] Hid Hf Hr Hmono Hvol.
  unfold POSITION_LIMIT, Basic.ids_left in *.
  assert (Ho : 0 ≤ remainingVolume o ∧ 0 ≤ filledVolume o)
    by (destruct isSellOrder; [apply (Hva id)|apply (Hvb id)]; done).
  assert (Hlot : filledVolume o + remainingVolume o ≤ Basic.LOT_SIZE)
    by (destruct isSellOrder; [apply (Hla id)|apply (Hlb id)]; done).
  assert (Hmem : remainingVolume o
                 ≤ reserved (if isSellOrder then Basic.mAsks s else Basic.mBids s))
    by (destruct isSellOrder; by apply (reserved_member _ id)).
  pose proof (reserved_delete _ _ _ Hid) as Hdel.
  pose proof (reserved_update _ _ _ (mkOrder (price o) r f (cancelling o)) Hid) as Hupd.
  simpl in Hupd.
  assert (Hnn : 0 ≤ reserved (delete id
                     (if isSellOrder then Basic.mAsks s else Basic.mBids s))).
  { apply reserved_nonneg. intros j x Hj.
    destruct isSellOrder;
      [apply (volumes_nonneg_delete _ id Hva j x Hj)
      |apply (volumes_nonneg_delete _ id Hvb j x Hj)]. }
  assert (Hnext : 1 ≤ (if 0 <? f - filledVolume o
                       then to_ulong (Basic.mNextMessageId s + 1)
                       else Basic.mNextMessageId s)
                  ∧ Basic.mNextMessageId s
                    ≤ (if 0 <? f - filledVolume o
                       then to_ulong (Basic.mNextMessageId s + 1)
                       else Basic.mNextMessageId s)).
  { destruct (0 <? f - filledVolume o); [rewrite to_ulong_small by lia|]; lia. }
  unfold Basic.status_update. simpl.
  destruct isSellOrder; simpl in Hid;
    rewrite (to_ulong_small (f - filledVolume o)) by lia;
    rewrite (to_ulong_small (remainingVolume o - r)) by lia.
  - assert (Hpos' : (if 0 <? f - filledVolume o
                     then to_long (Basic.mETFPosition s + to_ulong (- (f - filledVolume o)))
                     else Basic.mETFPosition s)
                    = Basic.mETFPosition s - (f - filledVolume o)).
    { destruct (0 <? f - filledVolume o) eqn:E.
      - apply to_long_neg_ulong; lia.
      - lia. }
    rewrite Hpos'. rewrite to_long_small by lia.
    destruct (0 <? r) eqn:Er; simpl; split; simpl; unfold POSITION_LIMIT;
      first [ lia | done
            | by apply volumes_nonneg_delete
            | by apply basic_lots_delete
            | apply volumes_nonneg_insert; simpl; first [lia|done]
            | apply basic_lots_insert; simpl; first [lia|done]
            | apply (keys_below_mono _ (Basic.mNextMessageId s)); [lia|];
              first [ done | by apply keys_below_delete
                    | by apply (keys_below_update _ _ _ o) ] ].
  - assert (Hpos' : (if 0 <? f - filledVolume o
                     then to_long (Basic.mETFPosition s + (f - filledVolume o))
                     else Basic.mETFPosition s)
                    = Basic.mETFPosition s + (f - filledVolume o)).
    { destruct (0 <? f - filledVolume o) eqn:E.
      - apply to_long_small; lia.
      - lia. }
    rewrite Hpos'. rewrite to_long_small by lia.
    destruct (0 <? r) eqn:Er; simpl; split; simpl; unfold POSITION_LIMIT;
      first [ lia | done
            | by apply volumes_nonneg_delete
            | by apply basic_lots_delete
            | apply volumes_nonneg_insert; simpl; first [lia|done]
            | apply basic_lots_insert; simpl; first [lia|done]
            | apply (keys_below_mono _ (Basic.mNextMessageId s)); [lia|];
              first [ done | by apply keys_below_delete
                    | by apply (keys_below_update _ _ _ o) ] ].
Qed.

Lemma basic_sound_status MAXIMUM_ASK MINIMUM_BID id f r fees s :
  Basic.ids_left s → Basic.sound s → Basic.wf_status id f r s →
  Basic.sound (Basic.OrderStatusMessageHandler MAXIMUM_ASK MINIMUM_BID id f r fees s).1.
Proof.
  intros Hids Hs (Hf & Hr & Ho). unfold Basic.OrderStatusMessageHandler.
  unfold Basic.order_of in Ho.
  destruct (Basic.mAsks s !! id) as [o|] eqn:Ea.
  - destruct (Ho o eq_refl). by apply (basic_sound_status_update _ _ true).
  - destruct (Basic.mBids s !! id) as [o|] eqn:Eb; [|done].
    destruct (Ho o eq_refl). by apply (basic_sound_status_update _ _ false).
Qed.

Lemma basic_sound_handle MAXIMUM_ASK MINIMUM_BID e s :
  Basic.ids_left s → Basic.sound s → Basic.wf_event s e →
  Basic.sound (Basic.handle MAXIMUM_ASK MINIMUM_BID e s).1.
Proof.
  intros Hids Hs Hwf. destruct e; simpl; try done.
  - by apply basic_sound_book.
  - by apply basic_sound_status.
  - unfold Basic.ErrorMessageHandler. destruct (_ && _); [|done].
    by apply basic_sound_status.
Qed.

Lemma basic_sound_run MAXIMUM_ASK MINIMUM_BID es s :
  Basic.sound s → Basic.wf_along MAXIMUM_ASK MINIMUM_BID es s →
  Basic.sound (Basic.run MAXIMUM_ASK MINIMUM_BID es s).1.
Proof.
  revert s. induction es as [|e es IH]; intros s Hs Hwf; [done|].
  simpl in *. destruct Hwf as (Hids & He & Hrest).
  pose proof (basic_sound_handle MAXIMUM_ASK MINIMUM_BID e s Hids Hs He) as H1.
  destruct (Basic.handle MAXIMUM_ASK MINIMUM_BID e s) as [s1 out1]. simpl in *.
  specialize (IH s1 H1 Hrest).
  by destruct (Basic.run MAXIMUM_ASK MINIMUM_BID es s1) as [s2 out2].
Qed.

(** The one-order-per-side trader keeps the position limit as long as no
    error names a partly filled order.  From the session start, under
    well-formed delivery (statuses with fills that do not go down and
    conserve the order's volume, errors only for orders that have not
    filled, since an error is handled as the status [(0, 0)], id counter
    not exhausted), the ETF position stays within [-100, 100], and would
    stay there if every tracked sell order, or every tracked buy order,
    filled completely: the reserved volumes are the sums of the tracked
    orders' remaining volumes. *)
Theorem basic_position_limit_invariant MAXIMUM_ASK MINIMUM_BID es :
  Basic.wf_along MAXIMUM_ASK MINIMUM_BID es Basic.start →
  let s := (Basic.run MAXIMUM_ASK MINIMUM_BID es Basic.start).1 in
  - POSITION_LIMIT ≤ Basic.mETFPosition s ≤ POSITION_LIMIT
  ∧ Basic.mETFOrderPositionSell s = reserved (Basic.mAsks s)
  ∧ Basic.mETFOrderPositionBuy s = reserved (Basic.mBids s)
  ∧ - POSITION_LIMIT ≤ Basic.mETFPosition s - reserved (Basic.mAsks s)
  ∧ Basic.mETFPosition s + reserved (Basic.mBids s) ≤ POSITION_LIMIT.
Proof.
  intros Hwf s.
  destruct (basic_sound_run MAXIMUM_ASK MINIMUM_BID es Basic.start basic_sound_start Hwf)
    as [Hp Hps Hpb _ _ _ _ Hshort Hlong _ _ _].
  fold s in Hp, Hps, Hpb, Hshort, Hlong.
  rewrite <- Hps, <- Hpb. done.
Qed.

Lemma basic_position_limit_invariant_witness :
  Basic.wf_along demo_MAXIMUM_ASK demo_MINIMUM_BID Basic.session Basic.start
  ∧ let s := (Basic.run demo_MAXIMUM_ASK demo_MINIMUM_BID Basic.session Basic.start).1 in
    - POSITION_LIMIT ≤ Basic.mETFPosition s ≤ POSITION_LIMIT
    ∧ Basic.mETFOrderPositionSell s = reserved (Basic.mAsks s)
    ∧ Basic.mETFOrderPositionBuy s = reserved (Basic.mBids s)
    ∧ - POSITION_LIMIT ≤ Basic.mETFPosition s - reserved (Basic.mAsks s)
    ∧ Basic.mETFPosition s + reserved (Basic.mBids s) ≤ POSITION_LIMIT.
Proof.
  assert (Hwf : Basic.wf_along demo_MAXIMUM_ASK demo_MINIMUM_BID Basic.session Basic.start).
  { split; [unfold Basic.ids_left; vm_compute; reflexivity|]. split; [exact I|].
    split; [unfold Basic.ids_left; vm_compute; reflexivity|]. split.
    - split; [lia|]. split; [lia|].
      intros o Ho. vm_compute in Ho. injection Ho as <-. simpl. lia.
    - split; [unfold Basic.ids_left; vm_compute; reflexivity|]. split; exact I. }
  split; [exact Hwf|].
  exact (basic_position_limit_invariant demo_MAXIMUM_ASK demo_MINIMUM_BID Basic.session Hwf).
Defined.

(** ** Hedging *)

Lemma basic_book_quotes i n ap av bp bv s :
  Forall is_quote (Basic.OrderBookMessageHandler i n ap av bp bv s).2.
Proof.
  destruct (Z.le_gt_cases n (Basic.mOrderBookSequence s)) as [Hle|Hlt].
  - unfold Basic.OrderBookMessageHandler.
    destruct (n <=? Basic.mOrderBookSequence s) eqn:E; [constructor|lia].
  - destruct i.
    + rewrite basic_book_future by done. simpl.
      repeat apply Forall_app_2.
      * unfold Basic.cancel_ask. destruct (_ && _); repeat constructor.
      * unfold Basic.cancel_bid. destruct (_ && _); repeat constructor.
      * unfold Basic.insert_ask. destruct (_ && _); repeat constructor.
      * unfold Basic.insert_bid. destruct (_ && _); repeat constructor.
    + unfold Basic.OrderBookMessageHandler.
      destruct (n <=? Basic.mOrderBookSequence s) eqn:E; [lia|constructor].
Qed.

Lemma basic_book_position i n ap av bp bv s :
  Basic.mETFPosition (Basic.OrderBookMessageHandler i n ap av bp bv s).1
  = Basic.mETFPosition s.
Proof.
  destruct (Z.le_gt_cases n (Basic.mOrderBookSequence s)) as [Hle|Hlt].
  - unfold Basic.OrderBookMessageHandler.
    by destruct (n <=? Basic.mOrderBookSequence s) eqn:E; [|lia].
  - destruct i.
    + rewrite basic_book_future by done. simpl.
      destruct (basic_insert_bid_frame (Basic.bid_quote (top bp))
        (Basic.insert_ask (Basic.ask_quote (top ap))
          (Basic.cancel_bid (Basic.bid_quote (top bp))
            (Basic.cancel_ask (Basic.ask_quote (top ap))
              (Basic.set_mOrderBookSequence s n)).1).1).1) as (_ & -> & _).
      destruct (basic_insert_ask_frame (Basic.ask_quote (top ap))
          (Basic.cancel_bid (Basic.bid_quote (top bp))
            (Basic.cancel_ask (Basic.ask_quote (top ap))
              (Basic.set_mOrderBookSequence s n)).1).1) as (_ & -> & _).
      destruct (basic_cancel_bid_frame (Basic.bid_quote (top bp))
            (Basic.cancel_ask (Basic.ask_quote (top ap))
              (Basic.set_mOrderBookSequence s n)).1) as (_ & _ & -> & _).
      by destruct (basic_cancel_ask_frame (Basic.ask_quote (top ap))
              (Basic.set_mOrderBookSequence s n)) as (_ & _ & -> & _).
    + unfold Basic.OrderBookMessageHandler.
      by destruct (n <=? Basic.mOrderBookSequence s) eqn:E; [lia|].
Qed.

Lemma basic_quotes_within_lot out : Forall is_quote out → Forall Basic.hedge_within_lot out.
Proof. intros H. eapply Forall_impl; [exact H|]. by intros []. Qed.

Lemma basic_status_update_hedged MAXIMUM_ASK MINIMUM_BID (isSellOrder : bool) o id f r s :
  Basic.sound s →
  (if isSellOrder then Basic.mAsks s else Basic.mBids s) !! id = Some o →
  0 ≤ f < 2 ^ 64 → 0 ≤ r < 2 ^ 64 →
  filledVolume o ≤ f → f + r ≤ filledVolume o + remainingVolume o →
  let res := Basic.status_update MAXIMUM_ASK MINIMUM_BID isSellOrder o id f r s in
  Basic.mETFPosition res.1 + future_position res.2 = Basic.mETFPosition s
  ∧ Forall Basic.hedge_within_lot res.2.
Proof.
  intros [Hp Hps Hpb Hva Hvb Hla Hlb Hshort Hlong Hn Hka Hkb] Hid Hf Hr Hmono Hvol.
  unfold POSITION_LIMIT in *.
  assert (Ho : 0 ≤ remainingVolume o ∧ 0 ≤ filledVolume o)
    by (destruct isSellOrder; [apply (Hva id)|apply (Hvb id)]; done).
  assert (Hlot : filledVolume o + remainingVolume o ≤ Basic.LOT_SIZE)
    by (destruct isSellOrder; [apply (Hla id)|apply (Hlb id)]; done).
  assert (Hmem : remainingVolume o
                 ≤ reserved (if isSellOrder then Basic.mAsks s else Basic.mBids s))
    by (destruct isSellOrder; by apply (reserved_member _ id)).
  unfold Basic.status_update. simpl.
  destruct isSellOrder; rewrite (to_ulong_small (f - filledVolume o)) by lia;
    destruct (0 <? f - filledVolume o) eqn:E; simpl; (split; [|repeat constructor; lia]);
    try lia.
  - rewrite to_long_neg_ulong by lia. lia.
  - rewrite to_long_small by lia. lia.
Qed.

Lemma basic_handle_hedged MAXIMUM_ASK MINIMUM_BID e s :
  Basic.sound s → Basic.wf_event s e →
  let res := Basic.handle MAXIMUM_ASK MINIMUM_BID e s in
  Basic.mETFPosition res.1 + future_position res.2 = Basic.mETFPosition s
  ∧ Forall Basic.hedge_within_lot res.2.
Proof.
  intros Hp Hwf.
  assert (Hstatus : ∀ id f r fees, Basic.wf_status id f r s →
            let res := Basic.OrderStatusMessageHandler MAXIMUM_ASK MINIMUM_BID id f r fees s in
            Basic.mETFPosition res.1 + future_position res.2 = Basic.mETFPosition s
            ∧ Forall Basic.hedge_within_lot res.2).
  { intros id f r fees (Hf & Hr & Ho). unfold Basic.OrderStatusMessageHandler.
    unfold Basic.order_of in Ho.
    destruct (Basic.mAsks s !! id) as [o|] eqn:Ea.
    - destruct (Ho o eq_refl). by apply (basic_status_update_hedged _ _ true).
    - destruct (Basic.mBids s !! id) as [o|] eqn:Eb; [|simpl; split; [lia|constructor]].
      destruct (Ho o eq_refl). by apply (basic_status_update_hedged _ _ false). }
  destruct e as [i n ap av bp bv|id f r fees|id msg| | |]; simpl;
    try (split; [lia|constructor]).
  - pose proof (basic_book_quotes i n ap av bp bv s) as Hq.
    rewrite (future_position_quotes _ Hq), basic_book_position.
    split; [lia|by apply basic_quotes_within_lot].
  - by apply Hstatus.
  - unfold Basic.ErrorMessageHandler. destruct (_ && _); [|simpl; split; [lia|constructor]].
    by apply Hstatus.
Qed.

Lemma basic_run_hedged MAXIMUM_ASK MINIMUM_BID es s :
  Basic.sound s → Basic.wf_along MAXIMUM_ASK MINIMUM_BID es s →
  let res := Basic.run MAXIMUM_ASK MINIMUM_BID es s in
  Basic.mETFPosition res.1 + future_position res.2 = Basic.mETFPosition s
  ∧ Forall Basic.hedge_within_lot res.2.
Proof.
  revert s. induction es as [|e es IH]; intros s Hs Hal; simpl; [split; [lia|constructor]|].
  destruct Hal as (Hids & He & Hal).
  pose proof (basic_sound_handle MAXIMUM_ASK MINIMUM_BID e s Hids Hs He) as H1.
  pose proof (basic_handle_hedged MAXIMUM_ASK MINIMUM_BID e s Hs He) as [Hh Hl].
  destruct (Basic.handle MAXIMUM_ASK MINIMUM_BID e s) as [s1 out1]. simpl in *.
  destruct (IH s1 H1 Hal) as [IHh IHl].
  destruct (Basic.run MAXIMUM_ASK MINIMUM_BID es s1) as [s2 out2]. simpl in *.
  rewrite future_position_app. split; [lia|]. apply Forall_app. by split.
Qed.

(** The one-order-per-side trader hedges every fill.  Over any delivery
    from the session start in which every status is well-formed and every
    error names an order that has not filled (an error is handled as the
    status [(0, 0)]), the ETF position and the futures position that the
    hedge orders sent add up to zero. *)
Theorem basic_position_is_hedged MAXIMUM_ASK MINIMUM_BID es :
  Basic.wf_along MAXIMUM_ASK MINIMUM_BID es Basic.start →
  let res := Basic.run MAXIMUM_ASK MINIMUM_BID es Basic.start in
  Basic.mETFPosition res.1 + future_position res.2 = 0.
Proof.
  intros Hwf.
  by destruct (basic_run_hedged MAXIMUM_ASK MINIMUM_BID es Basic.start
                 basic_sound_start Hwf) as [H _].
Qed.

Lemma basic_session_wf :
  Basic.wf_along demo_MAXIMUM_ASK demo_MINIMUM_BID Basic.session Basic.start.
Proof.
  split; [unfold Basic.ids_left; vm_compute; reflexivity|]. split; [exact I|].
  split; [unfold Basic.ids_left; vm_compute; reflexivity|]. split.
  - split; [lia|]. split; [lia|].
    intros o Ho. vm_compute in Ho. injection Ho as <-. simpl. lia.
  - split; [unfold Basic.ids_left; vm_compute; reflexivity|]. split; exact I.
Defined.

Lemma basic_position_is_hedged_witness :
  let res := Basic.run demo_MAXIMUM_ASK demo_MINIMUM_BID Basic.session Basic.start in
  Basic.mETFPosition res.1 + future_position res.2 = 0.
Proof.
  exact (basic_position_is_hedged demo_MAXIMUM_ASK demo_MINIMUM_BID Basic.session
           basic_session_wf).
Defined.

(** Every order of the one-order-per-side trader is inserted for
    [LOT_SIZE] lots, so over any delivery from the session start in which
    every status is well-formed and every error names an order that has
    not filled, no hedge order is for more than [LOT_SIZE] lots, or for
    none. *)
Theorem basic_hedges_within_a_lot MAXIMUM_ASK MINIMUM_BID es :
  Basic.wf_along MAXIMUM_ASK MINIMUM_BID es Basic.start →
  Forall Basic.hedge_within_lot (Basic.run MAXIMUM_ASK MINIMUM_BID es Basic.start).2.
Proof.
  intros Hwf.
  by destruct (basic_run_hedged MAXIMUM_ASK MINIMUM_BID es Basic.start
                 basic_sound_start Hwf) as [_ H].
Qed.

Lemma basic_hedges_within_a_lot_witness :
  Forall Basic.hedge_within_lot
    (Basic.run demo_MAXIMUM_ASK demo_MINIMUM_BID Basic.session Basic.start).2.
Proof.
  exact (basic_hedges_within_a_lot demo_MAXIMUM_ASK demo_MINIMUM_BID Basic.session
           basic_session_wf).
Defined.

(** ** Replacing a quote *)

Lemma basic_insert_ask_keeps p s k o :
  Basic.sound s → Basic.mAsks s !! k = Some o →
  Basic.mAsks (Basic.insert_ask p s).1 !! k = Some o.
Proof.
  intros Hs Hk. unfold Basic.insert_ask. destruct (_ && _); [|done]. simpl.
  rewrite lookup_insert_ne; [done|]. intros <-.
  pose proof (keys_below_fresh _ _ (Basic.snd_ask_ids _ Hs)). congruence.
Qed.

Lemma basic_insert_bid_keeps p s k o :
  Basic.sound s → Basic.mBids s !! k = Some o →
  Basic.mBids (Basic.insert_bid p s).1 !! k = Some o.
Proof.
  intros Hs Hk. unfold Basic.insert_bid. destruct (_ && _); [|done]. simpl.
  rewrite lookup_insert_ne; [done|]. intros <-.
  pose proof (keys_below_fresh _ _ (Basic.snd_bid_ids _ Hs)). congruence.
Qed.

Lemma basic_book_keeps i n ap av bp bv s :
  Basic.sound s → Basic.ids_left s →
  let res := Basic.OrderBookMessageHandler i n ap av bp bv s in
  (∀ k o, Basic.mAsks s !! k = Some o → Basic.mAsks res.1 !! k = Some o)
  ∧ (∀ k o, Basic.mBids s !! k = Some o → Basic.mBids res.1 !! k = Some o)
  ∧ Basic.mETFOrderPositionSell s ≤ Basic.mETFOrderPositionSell res.1
  ∧ Basic.mETFOrderPositionBuy s ≤ Basic.mETFOrderPositionBuy res.1.
Proof.
  intros Hs Hid res. unfold res. clear res.
  destruct (Z.le_gt_cases n (Basic.mOrderBookSequence s)) as [Hle|Hlt].
  { unfold Basic.OrderBookMessageHandler.
    destruct (n <=? Basic.mOrderBookSequence s) eqn:E; [simpl|lia].
    repeat split; try done; lia. }
  destruct i.
  2: { unfold Basic.OrderBookMessageHandler.
       destruct (n <=? Basic.mOrderBookSequence s) eqn:E; [lia|simpl].
       repeat split; try done; lia. }
  rewrite basic_book_future by done. simpl.
  set (a := Basic.ask_quote (top ap)). set (b := Basic.bid_quote (top bp)).
  set (s0 := Basic.set_mOrderBookSequence s n).
  set (s1 := (Basic.cancel_ask a s0).1).
  set (s2 := (Basic.cancel_bid b s1).1).
  set (s3 := (Basic.insert_ask a s2).1).
  assert (Hs0 : Basic.sound s0) by (by destruct Hs; split).
  assert (Hs2 : Basic.sound s2)
    by (by apply basic_sound_cancel_bid, basic_sound_cancel_ask).
  destruct (basic_cancel_ask_frame a s0) as (Ha1 & Hb1 & _ & Hps1 & Hpb1 & Hn1 & _).
  destruct (basic_cancel_bid_frame b s1) as (Ha2 & Hb2 & _ & Hps2 & Hpb2 & Hn2 & _).
  fold s1 in Ha1, Hb1, Hps1, Hpb1, Hn1. fold s2 in Ha2, Hb2, Hps2, Hpb2, Hn2.
  assert (Hnext : Basic.mNextMessageId s2 = Basic.mNextMessageId s)
    by (rewrite Hn2, Hn1; done).
  unfold Basic.ids_left in Hid.
  pose proof (Basic.snd_next _ Hs2) as Hn.
  assert (Hs3 : Basic.sound s3) by (apply basic_sound_insert_ask; [lia|done]).
  destruct (basic_insert_ask_frame a s2) as (Hb3 & _ & Hpb3 & _).
  destruct (basic_insert_bid_frame b s3) as (Ha4 & _ & Hps4 & _).
  fold s3 in Hb3, Hpb3, Ha4, Hps4.
  split; [|split; [|split]].
  - intros k o Hk. rewrite Ha4. apply basic_insert_ask_keeps; [done|].
    rewrite Ha2, Ha1. exact Hk.
  - intros k o Hk. apply basic_insert_bid_keeps; [done|].
    rewrite Hb3, Hb2, Hb1. exact Hk.
  - rewrite Hps4. unfold s3, Basic.insert_ask.
    destruct (_ && _); simpl; rewrite Hps2, Hps1; simpl; unfold Basic.LOT_SIZE; lia.
  - unfold Basic.insert_bid.
    destruct (_ && _); simpl; rewrite Hpb3, Hpb2, Hpb1; simpl; unfold Basic.LOT_SIZE; lia.
Qed.

Lemma basic_quoting_wf :
  Basic.wf_along demo_MAXIMUM_ASK demo_MINIMUM_BID (firstn 2 Basic.session) Basic.start.
Proof.
  split; [unfold Basic.ids_left; vm_compute; reflexivity|]. split; [exact I|].
  split; [unfold Basic.ids_left; vm_compute; reflexivity|]. split; [|exact I].
  split; [lia|]. split; [lia|].
  intros o Ho. vm_compute in Ho. injection Ho as <-. simpl. lia.
Defined.

(** An order-book update of the one-order-per-side trader never
    drops or changes a tracked order.  In a state reached from the session
    start under well-formed delivery, with ids left, every order of [mAsks]
    and [mBids] is there unchanged after the update, also the quote the
    update has just cancelled, and the two reserved volumes do not go down:
    a cancelled order keeps its volume reserved until its terminal status
    arrives. *)
Theorem basic_book_keeps_orders MAXIMUM_ASK MINIMUM_BID es i n ap av bp bv :
  Basic.wf_along MAXIMUM_ASK MINIMUM_BID es Basic.start →
  let s := (Basic.run MAXIMUM_ASK MINIMUM_BID es Basic.start).1 in
  Basic.ids_left s →
  let res := Basic.OrderBookMessageHandler i n ap av bp bv s in
  (∀ k o, Basic.mAsks s !! k = Some o → Basic.mAsks res.1 !! k = Some o)
  ∧ (∀ k o, Basic.mBids s !! k = Some o → Basic.mBids res.1 !! k = Some o)
  ∧ Basic.mETFOrderPositionSell s ≤ Basic.mETFOrderPositionSell res.1
  ∧ Basic.mETFOrderPositionBuy s ≤ Basic.mETFOrderPositionBuy res.1.
Proof.
  intros Hwf s Hid. apply basic_book_keeps; [|done].
  by apply basic_sound_run; [apply basic_sound_start|].
Qed.

Lemma basic_book_keeps_orders_witness :
  let res := Basic.OrderBookMessageHandler FUTURE 2 [10100] [5] [10000] [5] Basic.quoting in
  (∀ k o, Basic.mAsks Basic.quoting !! k = Some o → Basic.mAsks res.1 !! k = Some o)
  ∧ (∀ k o, Basic.mBids Basic.quoting !! k = Some o → Basic.mBids res.1 !! k = Some o)
  ∧ Basic.mETFOrderPositionSell Basic.quoting ≤ Basic.mETFOrderPositionSell res.1
  ∧ Basic.mETFOrderPositionBuy Basic.quoting ≤ Basic.mETFOrderPositionBuy res.1.
Proof.
  apply (basic_book_keeps_orders demo_MAXIMUM_ASK demo_MINIMUM_BID
           (firstn 2 Basic.session) FUTURE 2 [10100] [5] [10000] [5] basic_quoting_wf).
  unfold Basic.ids_left. vm_compute. reflexivity.
Defined.

(** The one-order-per-side trader replaces a sell quote whose price
    has moved.  When an accepted order book of the future gives a sell
    price (best ask plus one tick, as an [unsigned long]) that is not zero
    and differs from the price of the current quote, the first command is
    the cancel of that quote.  If the position leaves room for [LOT_SIZE]
    more lots on the sell side, counting the cancelled quote's volume as
    still reserved, a new sell order of [LOT_SIZE] lots at the new price
    goes out under the next id and becomes the current quote; otherwise no
    sell order goes out and the side is left without a quote. *)
Theorem basic_ask_price_change_replaces_quote n ap av bp bv s :
  Basic.mOrderBookSequence s < n →
  Basic.mAskId s ≠ 0 →
  Basic.ask_quote (top ap) ≠ 0 →
  Basic.ask_quote (top ap) ≠ Basic.mAskPrice s →
  let a := Basic.ask_quote (top ap) in
  let res := Basic.OrderBookMessageHandler FUTURE n ap av bp bv s in
  (∃ rest, res.2 = CancelOrder (Basic.mAskId s) :: rest)
  ∧ if - POSITION_LIMIT
       <=? Basic.mETFPosition s - Basic.mETFOrderPositionSell s - Basic.LOT_SIZE
    then InsertOrder (Basic.mNextMessageId s) SELL a Basic.LOT_SIZE GOOD_FOR_DAY ∈ res.2
         ∧ Basic.mAskId res.1 = Basic.mNextMessageId s
         ∧ Basic.mAskPrice res.1 = a
         ∧ Basic.mAsks res.1 !! Basic.mNextMessageId s
           = Some (mkOrder a Basic.LOT_SIZE 0 false)
    else Basic.mAskId res.1 = 0
         ∧ ∀ id p v l, InsertOrder id SELL p v l ∉ res.2.
Proof.
  intros Hn Hid Ha0 Hap a res. unfold res. clear res.
  rewrite basic_book_future by done. fold a. simpl.
  set (b := Basic.bid_quote (top bp)).
  set (s0 := Basic.set_mOrderBookSequence s n).
  assert (Hc : Basic.cancel_ask a s0
               = (Basic.mkAutoTrader (Basic.mAsks s) (Basic.mBids s) (Basic.mETFPosition s)
                    (Basic.mETFOrderPositionSell s) (Basic.mETFOrderPositionBuy s)
                    (Basic.mNextMessageId s) n
                    0 (Basic.mAskPrice s) (Basic.mBidId s) (Basic.mBidPrice s),
                  [CancelOrder (Basic.mAskId s)])).
  { unfold Basic.cancel_ask. simpl.
    destruct (Basic.mAskId s =? 0) eqn:E1; [lia|].
    destruct (a =? 0) eqn:E2; [lia|].
    destruct (a =? Basic.mAskPrice s) eqn:E3; [lia|]. done. }
  rewrite Hc. simpl. set (s1 := Basic.mkAutoTrader _ _ _ _ _ _ _ 0 _ _ _).
  split; [by eexists|].
  destruct (basic_cancel_bid_frame b s1)
    as (Ha2 & Hb2 & Hp2 & Hps2 & Hpb2 & Hn2 & _ & Hi2 & Hpr2 & _).
  set (s2 := (Basic.cancel_bid b s1).1) in *. simpl in Ha2, Hp2, Hps2, Hn2, Hi2.
  assert (Hout2 : ∀ c, c ∈ (Basic.cancel_bid b s1).2 → is_cancel c).
  { unfold Basic.cancel_bid. destruct (_ && _); simpl; intros c Hc'.
    - apply list_elem_of_singleton in Hc'. by subst.
    - by apply not_elem_of_nil in Hc'. }
  assert (Hout4 : ∀ s' c, c ∈ (Basic.insert_bid b s').2 →
            ∃ id, c = InsertOrder id BUY b Basic.LOT_SIZE GOOD_FOR_DAY).
  { intros s' c. unfold Basic.insert_bid. destruct (_ && _); simpl; intros Hc'.
    - apply list_elem_of_singleton in Hc'. by eexists.
    - by apply not_elem_of_nil in Hc'. }
  destruct (basic_insert_bid_frame b (Basic.insert_ask a s2).1)
    as (Ha4 & _ & _ & _ & Hi4 & Hpr4).
  rewrite Ha4, Hi4, Hpr4.
  assert (H3 : Basic.insert_ask a s2
               = if - POSITION_LIMIT
                    <=? Basic.mETFPosition s - Basic.mETFOrderPositionSell s - Basic.LOT_SIZE
                 then (Basic.mkAutoTrader
                         (<[Basic.mNextMessageId s := mkOrder a Basic.LOT_SIZE 0 false]>
                            (Basic.mAsks s))
                         (Basic.mBids s2) (Basic.mETFPosition s2)
                         (Basic.mETFOrderPositionSell s + Basic.LOT_SIZE)
                         (Basic.mETFOrderPositionBuy s2)
                         (to_ulong (Basic.mNextMessageId s + 1)) (Basic.mOrderBookSequence s2)
                         (Basic.mNextMessageId s) a (Basic.mBidId s2) (Basic.mBidPrice s2),
                       [InsertOrder (Basic.mNextMessageId s) SELL a Basic.LOT_SIZE
                          GOOD_FOR_DAY])
                 else (s2, [])).
  { unfold Basic.insert_ask. rewrite Hi2, Hp2, Hps2, Hn2, Ha2.
    destruct (a =? 0) eqn:E2; [lia|]. simpl. by destruct (_ <=? _). }
  rewrite H3.
  destruct (- POSITION_LIMIT
            <=? Basic.mETFPosition s - Basic.mETFOrderPositionSell s - Basic.LOT_SIZE)
    eqn:Eroom; simpl.
  - split; [|split; [done|split; [done|by rewrite lookup_insert_eq]]].
    apply list_elem_of_further, elem_of_app. right. apply list_elem_of_here.
  - split; [done|]. intros id p v l Hin.
    apply elem_of_cons in Hin as [Hin|Hin]; [done|].
    apply elem_of_app in Hin as [Hin|Hin]; [by apply Hout2 in Hin|].
    by apply Hout4 in Hin as [? ?].
Qed.

Lemma basic_ask_price_change_replaces_quote_witness :
  let res := Basic.OrderBookMessageHandler FUTURE 2 [10100] [5] [10000] [5] Basic.quoting in
  (∃ rest, res.2 = CancelOrder 1 :: rest)
  ∧ InsertOrder 4 SELL 10200 10 GOOD_FOR_DAY ∈ res.2
  ∧ Basic.mAskId res.1 = 4
  ∧ Basic.mAskPrice res.1 = 10200
  ∧ Basic.mAsks res.1 !! 4 = Some (mkOrder 10200 10 0 false).
Proof.
  apply (basic_ask_price_change_replaces_quote 2 [10100] [5] [10000] [5] Basic.quoting).
  - vm_compute. reflexivity.
  - vm_compute. discriminate.
  - vm_compute. discriminate.
  - vm_compute. discriminate.
Defined.

(** The same for the buy quote, whose steps come after the sell
    side's.  When an accepted order book of the future gives a buy price
    (best bid minus one tick, as an [unsigned long]) that is not zero and
    differs from the price of the current buy quote, that quote is
    cancelled.  If the position leaves room for [LOT_SIZE] more lots on the
    buy side, the last command is the insert of a buy order of [LOT_SIZE]
    lots at the new price, under the id that follows the sell side's, and
    that order becomes the current quote; otherwise no buy order goes out
    and the side is left without a quote. *)
Theorem basic_bid_price_change_replaces_quote n ap av bp bv s :
  Basic.mOrderBookSequence s < n →
  Basic.mBidId s ≠ 0 →
  Basic.bid_quote (top bp) ≠ 0 →
  Basic.bid_quote (top bp) ≠ Basic.mBidPrice s →
  let b := Basic.bid_quote (top bp) in
  let res := Basic.OrderBookMessageHandler FUTURE n ap av bp bv s in
  CancelOrder (Basic.mBidId s) ∈ res.2
  ∧ if Basic.mETFPosition s + Basic.mETFOrderPositionBuy s + Basic.LOT_SIZE
       <=? POSITION_LIMIT
    then ∃ id,
           (id = Basic.mNextMessageId s ∨ id = to_ulong (Basic.mNextMessageId s + 1))
           ∧ last res.2 = Some (InsertOrder id BUY b Basic.LOT_SIZE GOOD_FOR_DAY)
           ∧ Basic.mBidId res.1 = id
           ∧ Basic.mBidPrice res.1 = b
           ∧ Basic.mBids res.1 !! id = Some (mkOrder b Basic.LOT_SIZE 0 false)
    else Basic.mBidId res.1 = 0
         ∧ ∀ id p v l, InsertOrder id BUY p v l ∉ res.2.
Proof.
  intros Hn Hid Hb0 Hbp b res. unfold res. clear res.
  rewrite basic_book_future by done. fold b. simpl.
  set (a := Basic.ask_quote (top ap)).
  set (s0 := Basic.set_mOrderBookSequence s n).
  destruct (basic_cancel_ask_frame a s0)
    as (_ & Hb1 & Hp1 & _ & Hpb1 & Hn1 & _ & Hi1 & Hpr1 & _).
  assert (Hout1 : ∀ c, c ∈ (Basic.cancel_ask a s0).2 → is_cancel c).
  { unfold Basic.cancel_ask. destruct (_ && _); simpl; intros c Hc'.
    - apply list_elem_of_singleton in Hc'. by subst.
    - by apply not_elem_of_nil in Hc'. }
  set (s1 := (Basic.cancel_ask a s0).1) in *. simpl in Hb1, Hp1, Hpb1, Hn1, Hi1, Hpr1.
  assert (Hc : Basic.cancel_bid b s1
               = (Basic.mkAutoTrader (Basic.mAsks s1) (Basic.mBids s1) (Basic.mETFPosition s1)
                    (Basic.mETFOrderPositionSell s1) (Basic.mETFOrderPositionBuy s1)
                    (Basic.mNextMessageId s1) (Basic.mOrderBookSequence s1)
                    (Basic.mAskId s1) (Basic.mAskPrice s1) 0 (Basic.mBidPrice s1),
                  [CancelOrder (Basic.mBidId s)])).
  { unfold Basic.cancel_bid. rewrite Hi1, Hpr1.
    destruct (Basic.mBidId s =? 0) eqn:E1; [lia|].
    destruct (b =? 0) eqn:E2; [lia|].
    destruct (b =? Basic.mBidPrice s) eqn:E3; [lia|]. done. }
  rewrite Hc. simpl. set (s2 := Basic.mkAutoTrader _ _ _ _ _ _ _ _ _ 0 _).
  destruct (basic_insert_ask_frame a s2) as (Hb3 & Hp3 & Hpb3 & _ & Hi3 & _).
  assert (Hout3 : ∀ c, c ∈ (Basic.insert_ask a s2).2 →
            ∃ id, c = InsertOrder id SELL a Basic.LOT_SIZE GOOD_FOR_DAY).
  { intros c. unfold Basic.insert_ask. destruct (_ && _); simpl; intros Hc'.
    - apply list_elem_of_singleton in Hc'. by eexists.
    - by apply not_elem_of_nil in Hc'. }
  assert (Hn3 : Basic.mNextMessageId (Basic.insert_ask a s2).1 = Basic.mNextMessageId s
                ∨ Basic.mNextMessageId (Basic.insert_ask a s2).1
                  = to_ulong (Basic.mNextMessageId s + 1)).
  { unfold Basic.insert_ask. destruct (_ && _); simpl; rewrite Hn1; auto. }
  set (s3 := (Basic.insert_ask a s2).1) in *.
  simpl in Hb3, Hp3, Hpb3, Hi3. rewrite Hb1 in Hb3. rewrite Hp1 in Hp3. rewrite Hpb1 in Hpb3.
  split.
  { apply elem_of_app. right. apply list_elem_of_here. }
  assert (H4 : Basic.insert_bid b s3
               = if Basic.mETFPosition s + Basic.mETFOrderPositionBuy s + Basic.LOT_SIZE
                    <=? POSITION_LIMIT
                 then (Basic.mkAutoTrader (Basic.mAsks s3)
                         (<[Basic.mNextMessageId s3 := mkOrder b Basic.LOT_SIZE 0 false]>
                            (Basic.mBids s))
                         (Basic.mETFPosition s3)
                         (Basic.mETFOrderPositionSell s3)
                         (Basic.mETFOrderPositionBuy s + Basic.LOT_SIZE)
                         (to_ulong (Basic.mNextMessageId s3 + 1)) (Basic.mOrderBookSequence s3)
                         (Basic.mAskId s3) (Basic.mAskPrice s3)
                         (Basic.mNextMessageId s3) b,
                       [InsertOrder (Basic.mNextMessageId s3) BUY b Basic.LOT_SIZE
                          GOOD_FOR_DAY])
                 else (s3, [])).
  { unfold Basic.insert_bid. rewrite Hi3, Hp3, Hpb3, Hb3.
    destruct (b =? 0) eqn:E2; [lia|]. simpl. by destruct (_ <=? _). }
  rewrite H4.
  destruct (Basic.mETFPosition s + Basic.mETFOrderPositionBuy s + Basic.LOT_SIZE
            <=? POSITION_LIMIT) eqn:Eroom; simpl.
  - exists (Basic.mNextMessageId s3).
    split; [done|]. split; [|split; [done|split; [done|by rewrite lookup_insert_eq]]].
    match goal with
    | |- last (?l1 ++ ?c :: ?l3 ++ [?x]) = _ =>
        replace (l1 ++ c :: l3 ++ [x]) with ((l1 ++ c :: l3) ++ [x])
          by (by rewrite <- app_assoc)
    end.
    apply last_snoc.
  - split; [done|]. intros id p v l Hin. rewrite app_nil_r in Hin.
    apply elem_of_app in Hin as [Hin|Hin]; [by apply Hout1 in Hin|].
    apply elem_of_cons in Hin as [Hin|Hin]; [done|].
    by apply Hout3 in Hin as [? ?].
Qed.

Lemma basic_bid_price_change_replaces_quote_witness :
  let res := Basic.OrderBookMessageHandler FUTURE 2 [10100] [5] [10000] [5] Basic.quoting in
  CancelOrder 2 ∈ res.2
  ∧ ∃ id, (id = 4 ∨ id = to_ulong (4 + 1))
          ∧ last res.2 = Some (InsertOrder id BUY 9900 10 GOOD_FOR_DAY)
          ∧ Basic.mBidId res.1 = id
          ∧ Basic.mBidPrice res.1 = 9900
          ∧ Basic.mBids res.1 !! id = Some (mkOrder 9900 10 0 false).
Proof.
  apply (basic_bid_price_change_replaces_quote 2 [10100] [5] [10000] [5] Basic.quoting).
  - vm_compute. reflexivity.
  - vm_compute. discriminate.
  - vm_compute. discriminate.
  - vm_compute. discriminate.
Defined.

(** An order book that moves neither quote is silent.  When both
    sides have a current quote and the accepted order book of the future
    gives, on each side, either no price (an empty side) or the price of
    the current quote, the one-order-per-side trader sends nothing and only
    records the sequence number: an empty book side leaves the resting
    quote in place. *)
Theorem basic_steady_book_is_silent n ap av bp bv s :
  Basic.mOrderBookSequence s < n →
  Basic.mAskId s ≠ 0 → Basic.mBidId s ≠ 0 →
  Basic.ask_quote (top ap) = 0 ∨ Basic.ask_quote (top ap) = Basic.mAskPrice s →
  Basic.bid_quote (top bp) = 0 ∨ Basic.bid_quote (top bp) = Basic.mBidPrice s →
  Basic.OrderBookMessageHandler FUTURE n ap av bp bv s
  = (Basic.set_mOrderBookSequence s n, []).
Proof.
  intros Hn Ha Hb Hap Hbp.
  rewrite basic_book_future by done. simpl.
  assert (H1 : Basic.cancel_ask (Basic.ask_quote (top ap)) (Basic.set_mOrderBookSequence s n)
               = (Basic.set_mOrderBookSequence s n, [])).
  { unfold Basic.cancel_ask. simpl.
    destruct (Basic.ask_quote (top ap) =? 0) eqn:E2;
      [by rewrite andb_false_r|].
    destruct (Basic.ask_quote (top ap) =? Basic.mAskPrice s) eqn:E3;
      [by rewrite andb_false_r|lia]. }
  rewrite H1. simpl.
  assert (H2 : Basic.cancel_bid (Basic.bid_quote (top bp)) (Basic.set_mOrderBookSequence s n)
               = (Basic.set_mOrderBookSequence s n, [])).
  { unfold Basic.cancel_bid. simpl.
    destruct (Basic.bid_quote (top bp) =? 0) eqn:E2;
      [by rewrite andb_false_r|].
    destruct (Basic.bid_quote (top bp) =? Basic.mBidPrice s) eqn:E3;
      [by rewrite andb_false_r|lia]. }
  rewrite H2. simpl.
  assert (H3 : Basic.insert_ask (Basic.ask_quote (top ap)) (Basic.set_mOrderBookSequence s n)
               = (Basic.set_mOrderBookSequence s n, [])).
  { unfold Basic.insert_ask. simpl.
    by destruct (Basic.mAskId s =? 0) eqn:E1; [lia|]. }
  rewrite H3. simpl.
  unfold Basic.insert_bid. simpl.
  by destruct (Basic.mBidId s =? 0) eqn:E1; [lia|].
Qed.

Lemma basic_steady_book_is_silent_witness :
  Basic.OrderBookMessageHandler FUTURE 2 [0] [0] [9900] [5] Basic.quoting
  = (Basic.set_mOrderBookSequence Basic.quoting 2, []).
Proof.
  apply (basic_steady_book_is_silent 2 [0] [0] [9900] [5] Basic.quoting).
  - vm_compute. reflexivity.
  - vm_compute. discriminate.
  - vm_compute. discriminate.
  - left. vm_compute. reflexivity.
  - right. vm_compute. reflexivity.
Defined.
